(** * Task allocation engine: spatial index, scorer, guarded commit, cache layer

    A shallow embedding of the allocation core of the backend
    ([task-allocation.service.ts], [spatial-index.service.ts],
    [advanced-cache.service.ts], [redis-cache.service.ts],
    [task-reallocation.config.ts]) and the properties its specification
    states about it.

    Conventions of the embedding.
    - A JavaScript [number] that holds a coordinate, a distance or a score is
      a real number ([R]); IEEE rounding is not modelled.  The one non-finite
      value the engine produces on purpose, [Infinity], is a constructor of
      [num].
    - Counters are [nat], timestamps and cache versions are [Z].
    - A JS object used as a dictionary and a [Map] are [gmap]s; the key
      [`${gridLat},${gridLon}`] of the spatial index is the pair of integers
      it prints.
    - Nullable columns are [option]s; JS truthiness is written out. *)

From Stdlib Require Import Reals Lra Lia ZArith Ascii String.
From stdpp Require Import base option list gmap strings pretty.

Local Open Scope Z_scope.

(** ** JavaScript numbers *)

Module Js.

Definition Rleb (x y : R) : bool := if Rle_dec x y then true else false.
Definition Rltb (x y : R) : bool := if Rlt_dec x y then true else false.
Definition Reqb (x y : R) : bool := if Req_dec_T x y then true else false.

(** [typeof v === 'number'] on a nullable numeric column. *)
Definition isNumber (v : option R) : bool :=
  match v with Some _ => true | None => false end.

(** Truthiness of a nullable numeric column: [null] and [0] are falsy. *)
Definition truthy (v : option R) : bool :=
  match v with Some r => negb (Reqb r 0) | None => false end.

(** A distance: finite, or the [Infinity] used when a coordinate is missing. *)
Inductive num : Type :=
| Fin (r : R)
| Infinity.

(** [Math.atan2(y, x)]. *)
Definition atan2 (y x : R) : R :=
  if Rlt_dec 0 x then atan (y / x)
  else if Rlt_dec x 0 then
    (if Rle_dec 0 y then atan (y / x) + PI else atan (y / x) - PI)%R
  else if Rlt_dec 0 y then (PI / 2)%R
  else if Rlt_dec y 0 then (- (PI / 2))%R
  else 0%R.

End Js.

(** ** Persistent store rows *)

Inductive TaskStatus : Type :=
| unassigned | assigned | accepted | rejected | completed.

#[global] Instance TaskStatus_eq_dec : EqDecision TaskStatus.
Proof. solve_decision. Defined.

Record User : Type := mkUser {
  user_id : string;
  user_lat : option R;
  user_lon : option R;
  user_role : string;
  user_active : bool;
}.

Record Task : Type := mkTask {
  task_id : string;
  task_lat : option R;
  task_lon : option R;
  task_status : TaskStatus;
  task_geocodePending : bool;
  task_assignedUserId : option string;
  task_assignedAt : option Z;
}.

(** ** Spatial index ([SpatialIndexService]) *)

Module SpatialIndex.

Record SpatialPoint : Type := mkPoint {
  pt_id : string;
  pt_lat : R;
  pt_lon : R;
  pt_data : User;
}.

Definition GRID_SIZE : R := 0.01%R.

Abbreviation Index := (gmap (Z * Z) (list SpatialPoint)).

Definition getGridKey (lat lon : R) : Z * Z :=
  (Zfloor (lat / GRID_SIZE), Zfloor (lon / GRID_SIZE)).

(** One iteration of the [forEach] of [buildSpatialIndex]. *)
Definition indexWorker (idx : Index) (worker : User) : Index :=
  match user_lat worker, user_lon worker with
  | Some lat, Some lon =>
      if Js.truthy (user_lat worker) && Js.truthy (user_lon worker) then
        let gridKey := getGridKey lat lon in
        let arr := default [] (idx !! gridKey) in
        <[gridKey := arr ++ [mkPoint (user_id worker) lat lon worker]]> idx
      else idx
  | _, _ => idx
  end.

Definition buildSpatialIndex (workers : list User) : Index :=
  foldl indexWorker ∅ workers.

Definition haversineDistance (lat1 lon1 lat2 lon2 : R) : R :=
  let R0 := 6371%R in
  let dLat := ((lat2 - lat1) * PI / 180)%R in
  let dLon := ((lon2 - lon1) * PI / 180)%R in
  let a := ((sin (dLat / 2)) ^ 2
            + cos (lat1 * PI / 180) * cos (lat2 * PI / 180)
              * (sin (dLon / 2)) ^ 2)%R in
  let c := (2 * Js.atan2 (sqrt a) (sqrt (1 - a)))%R in
  (R0 * c)%R.

(** The offsets [-gridRadius .. gridRadius] of one loop of [getSearchCells]. *)
Definition offsets (gridRadius : Z) : list Z :=
  seqZ (- gridRadius) (2 * gridRadius + 1).

Definition getSearchCells (lat lon radius : R) : list (Z * Z) :=
  let gridRadius := Zceil (radius / GRID_SIZE) in
  let centerLat := Zfloor (lat / GRID_SIZE) in
  let centerLon := Zfloor (lon / GRID_SIZE) in
  flat_map (fun latOffset =>
    map (fun lonOffset => (centerLat + latOffset, centerLon + lonOffset))
        (offsets gridRadius))
    (offsets gridRadius).

Definition withinRadius (taskLat taskLon radiusKm : R) (worker : SpatialPoint) : bool :=
  Js.Rleb (haversineDistance taskLat taskLon (pt_lat worker) (pt_lon worker)) radiusKm.

Definition findNearbyWorkers (idx : Index) (taskLat taskLon radiusKm : R)
  : list SpatialPoint :=
  let searchRadius := (radiusKm / 111)%R in
  let searchCells := getSearchCells taskLat taskLon searchRadius in
  flat_map (fun cellKey =>
    List.filter (withinRadius taskLat taskLon radiusKm)
                (default [] (idx !! cellKey)))
    searchCells.

(** [getStats]: the number of indexed workers and of occupied cells. *)
Record Stats : Type := mkStats {
  st_totalWorkers : nat;
  st_gridCells : nat;
  st_avgWorkersPerCell : R;
}.

Definition getStats (idx : Index) : Stats :=
  let totalWorkers := map_fold (fun _ workers acc => (acc + length workers)%nat) 0%nat idx in
  let gridCells := size idx in
  mkStats totalWorkers gridCells
          (if (0 <? gridCells)%nat then (INR totalWorkers / INR gridCells)%R else 0%R).

End SpatialIndex.

(** ** The persistent store, as the engine uses it *)

Module Store.

(** The two tables the engine touches.  Rows are kept in creation order, so
    [orderBy: { createdAt: 'asc' }] is the order of the list. *)
Record DB : Type := mkDB {
  db_tasks : list Task;
  db_users : list User;
}.

Definition isActive (t : Task) : bool :=
  bool_decide (task_status t = assigned) || bool_decide (task_status t = accepted).

(** [prisma.task.findMany({ where: { geocodePending: false, status:
    'unassigned' }, orderBy: { createdAt: 'asc' }, take: batchSize })]. *)
Definition findPendingGeocoded (db : DB) (batchSize : nat) : list Task :=
  take batchSize
    (List.filter (fun t => negb (task_geocodePending t)
                           && bool_decide (task_status t = unassigned))
                 (db_tasks db)).

(** [CacheService.getWorkers]: active workers with both coordinates set. *)
Definition getWorkers (db : DB) : list User :=
  List.filter (fun u => String.eqb (user_role u) "WORKER"
                        && Js.isNumber (user_lat u) && Js.isNumber (user_lon u)
                        && user_active u)
              (db_users db).

(** [prisma.task.count({ where: { assignedUserId, status: { in: ['assigned',
    'accepted'] } } })]. *)
Definition countActive (db : DB) (workerId : string) : nat :=
  length (List.filter (fun t => bool_decide (task_assignedUserId t = Some workerId)
                                && isActive t)
                      (db_tasks db)).

(** [prisma.task.count({ where: { assignedUserId, status } })]. *)
Definition countByStatus (db : DB) (workerId : string) (s : TaskStatus) : nat :=
  length (List.filter (fun t => bool_decide (task_assignedUserId t = Some workerId)
                                && bool_decide (task_status t = s))
                      (db_tasks db)).

(** The rows of [groupBy({ by: ['assignedUserId'], where: { assignedUserId:
    { in: workerIds }, status: { in: [...] } }, _count: { id } })]. *)
Definition groupActiveByWorker (db : DB) (workerIds : list string)
  : list (string * nat) :=
  let owners :=
    omap (fun t => if isActive t then task_assignedUserId t else None) (db_tasks db) in
  map (fun w => (w, countActive db w))
      (remove_dups (List.filter (fun w => bool_decide (w ∈ workerIds)) owners)).

Definition getWorkerTaskCountsBatch (db : DB) (workerIds : list string)
  : gmap string nat :=
  let result := foldl (fun acc id => <[id := 0%nat]> acc) ∅ workerIds in
  foldl (fun acc row => if (0 <? snd row)%nat then <[fst row := snd row]> acc else acc)
        result (groupActiveByWorker db workerIds).

(** [tx.task.updateMany({ where: { id, status: 'unassigned' }, data: {
    assignedUserId, status: 'assigned', assignedAt } })]: the rows after the
    update and the number of rows it changed. *)
Definition guardMatches (taskId : string) (t : Task) : bool :=
  String.eqb (task_id t) taskId && bool_decide (task_status t = unassigned).

Definition assignRow (workerId : string) (now : Z) (t : Task) : Task :=
  mkTask (task_id t) (task_lat t) (task_lon t) assigned
         (task_geocodePending t) (Some workerId) (Some now).

Definition updateManyUnassigned (taskId workerId : string) (now : Z)
    (rows : list Task) : list Task * nat :=
  (map (fun t => if guardMatches taskId t then assignRow workerId now t else t) rows,
   length (List.filter (guardMatches taskId) rows)).

End Store.

(** ** Allocation engine: scorer, proposal loop, guarded commit, reconciliation *)

Module Allocation.
Import SpatialIndex Store.

Definition MAX_TASKS_PER_WORKER : nat := 50.
Definition MAX_ALLOCATION_RADIUS : R := 10%R.

Record WorkerPoint : Type := mkWorkerPoint {
  wp_data : User;
  wp_distance : option Js.num;
}.

Record Allocation : Type := mkAllocation {
  alloc_taskId : string;
  alloc_workerId : string;
  alloc_distance : option Js.num;
}.

(** Modelled from the spec: [haversineDistance] of [common/utils/geo], the
    distance utility ("pure function computing great-circle distance between
    two coordinates"); its file is not part of the sources, so it is taken
    to be the haversine formula the spatial index carries. *)
Definition geoHaversineDistance : R -> R -> R -> R -> R :=
  SpatialIndex.haversineDistance.

Definition calculateWorkerScore (distance : Js.num) (currentTasks maxTasks : nat) : R :=
  let distanceScore :=
    match distance with
    | Js.Fin d => Rmax 0 (100 - d / 10)
    | Js.Infinity => 0%R       (* Math.max(0, -Infinity) *)
    end in
  let loadScore := ((1 - INR currentTasks / INR maxTasks) * 50)%R in
  (distanceScore + loadScore)%R.

(** [workerTaskCounts[worker.id] || 0]. *)
Definition currentTasksOf (workerTaskCounts : gmap string nat) (worker : User) : nat :=
  default 0%nat (workerTaskCounts !! user_id worker).

Definition distanceOf (task : Task) (workerPoint : WorkerPoint) : Js.num :=
  match wp_distance workerPoint with
  | Some d => d
  | None =>
      match task_lat task, task_lon task,
            user_lat (wp_data workerPoint), user_lon (wp_data workerPoint) with
      | Some tlat, Some tlon, Some wlat, Some wlon =>
          Js.Fin (geoHaversineDistance tlat tlon wlat wlon)
      | _, _, _, _ => Js.Infinity
      end
  end.

(** The loop state of [selectBestWorkerOptimized]. *)
Record Best : Type := mkBest {
  bestWorker : option User;
  bestScore : R;
  bestDistance : Js.num;
}.

Definition selectStep (workerTaskCounts : gmap string nat) (task : Task)
    (st : Best) (workerPoint : WorkerPoint) : Best :=
  let worker := wp_data workerPoint in
  let currentTasks := currentTasksOf workerTaskCounts worker in
  if (MAX_TASKS_PER_WORKER <=? currentTasks)%nat then st
  else
    let distance := distanceOf task workerPoint in
    let score := calculateWorkerScore distance currentTasks MAX_TASKS_PER_WORKER in
    if Js.Rltb (bestScore st) score then mkBest (Some worker) score distance
    else st.

Definition selectBestWorkerOptimized (nearbyWorkers : list WorkerPoint)
    (workerTaskCounts : gmap string nat) (task : Task) : option (User * Js.num) :=
  let st := foldl (selectStep workerTaskCounts task)
                  (mkBest None (-1)%R Js.Infinity) nearbyWorkers in
  match bestWorker st with
  | Some w => Some (w, bestDistance st)
  | None => None
  end.

(** The body of the [for (const task of tasks)] loop: the allocation it
    proposes, or [None] when the task is counted as failed. *)
Definition proposeForTask (idx : Index) (workerTaskCounts : gmap string nat)
    (task : Task) : option Allocation :=
  match task_lat task, task_lon task with
  | Some lat, Some lon =>
      if negb (Js.truthy (task_lat task)) || negb (Js.truthy (task_lon task)) then None
      else
        let nearbyWorkers := findNearbyWorkers idx lat lon MAX_ALLOCATION_RADIUS in
        let nearbyWorkerPoints :=
          map (fun sp => mkWorkerPoint (pt_data sp) None) nearbyWorkers in
        if (length nearbyWorkers =? 0)%nat then None
        else
          match selectBestWorkerOptimized nearbyWorkerPoints workerTaskCounts task with
          | Some (chosenWorker, distance) =>
              Some (mkAllocation (task_id task) (user_id chosenWorker) (Some distance))
          | None => None
          end
  | _, _ => None
  end.

(** The whole loop: the proposed allocations, in task order, and the number
    of tasks counted as failed. *)
Definition proposeAll (idx : Index) (workerTaskCounts : gmap string nat)
    (tasks : list Task) : list Allocation * nat :=
  foldl (fun acc task =>
           match proposeForTask idx workerTaskCounts task with
           | Some a => (fst acc ++ [a], snd acc)
           | None => (fst acc, S (snd acc))
           end)
        ([], 0%nat) tasks.

(** [bulkUpdateTaskAllocations]: the ids actually updated and the rows after
    the transaction. *)
Definition bulkUpdateTaskAllocations (now : Z) (allocations : list Allocation)
    (rows : list Task) : list string * list Task :=
  foldl (fun acc allocation =>
           let '(rows', count) :=
             updateManyUnassigned (alloc_taskId allocation)
                                  (alloc_workerId allocation) now (snd acc) in
           if (0 <? count)%nat
           then (fst acc ++ [alloc_taskId allocation], rows')
           else (fst acc, rows'))
        ([], rows) allocations.

(** [calculateAverageDistance]. *)
Definition numAdd (x y : Js.num) : Js.num :=
  match x, y with
  | Js.Fin a, Js.Fin b => Js.Fin (a + b)
  | _, _ => Js.Infinity
  end.

Definition numDivNat (x : Js.num) (n : nat) : Js.num :=
  match x with
  | Js.Fin a => Js.Fin (a / INR n)
  | Js.Infinity => Js.Infinity
  end.

Definition validDistance (a : Allocation) : option Js.num :=
  match alloc_distance a with
  | Some (Js.Fin d) => if Js.Rleb 0 d then Some (Js.Fin d) else None
  | Some Js.Infinity => Some Js.Infinity
  | None => None
  end.

Definition calculateAverageDistance (allocations : list Allocation) : Js.num :=
  if (length allocations =? 0)%nat then Js.Fin 0
  else
    let valid := omap validDistance allocations in
    let totalDistance := foldl numAdd (Js.Fin 0) valid in
    let validAllocations := length valid in
    if (0 <? validAllocations)%nat then numDivNat totalDistance validAllocations
    else Js.Fin 0.

(** [calculateWorkerUtilization]. *)
Definition calculateWorkerUtilization (workers : list User)
    (workerTaskCounts : gmap string nat) : R :=
  if (length workers =? 0)%nat then 0%R
  else
    let totalUtilization :=
      foldl (fun acc w =>
               (acc + INR (currentTasksOf workerTaskCounts w)
                      / INR MAX_TASKS_PER_WORKER)%R)
            0%R workers in
    (totalUtilization / INR (length workers))%R.

(** Insertion into the [Set<string>] of affected workers (insertion order
    is the order of [Array.from]). *)
Definition setAdd (s : list string) (x : string) : list string :=
  if bool_decide (x ∈ s) then s else s ++ [x].

(** The reconciliation after the guarded commit (the block under
    [if (allocations.length > 0)]). *)
Record Reconciled : Type := mkReconciled {
  rc_successful : list Allocation;
  rc_allocated : nat;
  rc_failed : nat;
  rc_counts : gmap string nat;
  rc_affected : list string;
}.

Definition reconcile (allocations : list Allocation) (successfulIds : list string)
    (failedSoFar : nat) (workerTaskCounts : gmap string nat) : Reconciled :=
  let allocationMap : gmap string Allocation :=
    foldl (fun m a => <[alloc_taskId a := a]> m) ∅ allocations in
  let successfulAllocations := omap (fun id => allocationMap !! id) successfulIds in
  mkReconciled
    successfulAllocations
    (length successfulAllocations)
    (failedSoFar + (length allocations - length successfulAllocations))
    (foldl (fun m a =>
              <[alloc_workerId a := S (default 0%nat (m !! alloc_workerId a))]> m)
           workerTaskCounts successfulAllocations)
    (foldl (fun s a => setAdd s (alloc_workerId a)) [] successfulAllocations).

(** What [allocateTasksOptimized] returns: the short object of the early
    exit, or the full report ([duration] and [spatialIndexStats] are
    observational and left out). *)
Record AllocationMetrics : Type := mkMetrics {
  am_totalTasks : nat;
  am_allocated : nat;
  am_failed : nat;
  am_affectedWorkers : nat;
  am_successRate : R;
  am_avgDistance : Js.num;
  am_workerUtilization : R;
}.

Inductive AllocationResult : Type :=
| NoTasksOrWorkers (totalTasks allocated allocationFailed : nat)
| Completed (metrics : AllocationMetrics).

Definition res_allocated (r : AllocationResult) : nat :=
  match r with NoTasksOrWorkers _ n _ => n | Completed m => am_allocated m end.
Definition res_failed (r : AllocationResult) : nat :=
  match r with NoTasksOrWorkers _ _ n => n | Completed m => am_failed m end.
Definition res_avgDistance (r : AllocationResult) : option Js.num :=
  match r with NoTasksOrWorkers _ _ _ => None | Completed m => Some (am_avgDistance m) end.

End Allocation.

(** ** The world of one service instance: store, Redis, circuit breaker, clock *)

Module Cache.
Import Store Allocation.

(** *** Circuit breaker state ([RedisCacheService.circuitBreaker]) *)

Inductive BreakerState : Type := CLOSED | OPEN | HALF_OPEN.

(** [state === '...']. *)
Definition stateEqb (a b : BreakerState) : bool :=
  match a, b with
  | CLOSED, CLOSED | OPEN, OPEN | HALF_OPEN, HALF_OPEN => true
  | _, _ => false
  end.

Record CircuitBreaker : Type := mkBreaker {
  cb_failures : nat;
  cb_lastFailure : Z;
  cb_state : BreakerState;
}.

Definition failureThreshold : nat := 5.
Definition recoveryTimeout : Z := 60000.

Definition initialBreaker : CircuitBreaker := mkBreaker 0 0 CLOSED.

(** *** What Redis holds

    Redis stores strings; the embedding keeps the document each string was
    produced from: [version.toString()], [JSON.stringify] of a summary, of
    the cached workers, and so on.  [VText] is any other string. *)

Record Summary : Type := mkSummary {
  sm_unassigned : nat;
  sm_assigned : nat;
  sm_accepted : nat;
  sm_completed : nat;
  sm_rejected : nat;
  sm_total : nat;
}.

Record CachedWorker : Type := mkCachedWorker {
  cw_id : string;
  cw_lat : R;
  cw_lon : R;
  cw_role : string;
  cw_active : bool;
  cw_currentTaskCount : nat;
  cw_lastUpdated : Z;
}.

Inductive RVal : Type :=
| VVersion (z : Z)
| VSummary (s : Summary)
| VCachedWorkers (ws : list CachedWorker)
| VCachedWorker (w : option CachedWorker)
| VUsers (ws : list User)
| VStats (stats : SpatialIndex.Stats) (timestamp : Z)
| VResults (rs : list (AllocationMetrics * Z))
| VText (s : string).

(** Truthiness of a string read from Redis: only the empty string is falsy. *)
Definition rvalTruthy (v : RVal) : bool :=
  match v with VText "" => false | _ => true end.

(** [parseInt(version)]; a text that is not a number gives [NaN], written
    [0] here: both are falsy and the callers test truthiness before they
    compare. *)
Definition parseInt (v : RVal) : Z :=
  match v with VVersion z => z | _ => 0 end.

(** [JSON.parse] where a summary is expected; [None] stands for the
    exception. *)
Definition parseSummary (v : RVal) : option Summary :=
  match v with VSummary s => Some s | _ => None end.

Definition parseResults (v : RVal) : option (list (AllocationMetrics * Z)) :=
  match v with VResults rs => Some rs | _ => None end.

(** *** World, environment and the monad of service code *)

Record World : Type := mkWorld {
  w_db : DB;
  w_redis : gmap string RVal;
  w_breaker : CircuitBreaker;
  w_tick : nat;
}.

(** What the service does not control: which Redis commands fail, what the
    clock shows, and what other writers do to the task table between the
    run's reads and its commit. *)
Record Env : Type := mkEnv {
  env_fails : nat -> bool;
  env_clock : nat -> Z;
  env_concurrent : list Task -> list Task;
}.

Inductive Outcome (A : Type) : Type :=
| Ok (a : A)
| Throw (e : string).
Arguments Ok {A} a.
Arguments Throw {A} e.

Definition M (A : Type) : Type := Env -> World -> Outcome A * World.

Definition ret {A} (a : A) : M A := fun _ w => (Ok a, w).
Definition throw {A} (e : string) : M A := fun _ w => (Throw e, w).

Definition bind {A B} (m : M A) (k : A -> M B) : M B :=
  fun env w =>
    match m env w with
    | (Ok a, w') => k a env w'
    | (Throw e, w') => (Throw e, w')
    end.

(** [try { m } catch (e) { h e }]. *)
Definition tryCatch {A} (m : M A) (h : string -> M A) : M A :=
  fun env w =>
    match m env w with
    | (Ok a, w') => (Ok a, w')
    | (Throw e, w') => h e env w'
    end.

Notation "'let*' x ':=' m 'in' k" := (bind m (fun x => k))
  (at level 10, x pattern, m at level 100, k at level 200).
Notation "m ';;' k" := (bind m (fun _ => k))
  (at level 100, k at level 200, right associativity).

(** [for (const x of l) await f(x)]; also used for [Promise.all(l.map(f))],
    whose outcome (all resolved, or the first rejection) it has. *)
Fixpoint forEachM {A} (l : list A) (f : A -> M unit) : M unit :=
  match l with
  | [] => ret tt
  | x :: l' => f x ;; forEachM l' f
  end.

Definition tick (w : World) : World :=
  mkWorld (w_db w) (w_redis w) (w_breaker w) (S (w_tick w)).

(** [Date.now()]. *)
Definition dateNow : M Z :=
  fun env w => (Ok (env_clock env (w_tick w)), tick w).

Definition getDB : M DB := fun _ w => (Ok (w_db w), w).

Definition setTasks (rows : list Task) : M unit :=
  fun _ w =>
    (Ok tt, mkWorld (mkDB rows (db_users (w_db w))) (w_redis w) (w_breaker w) (w_tick w)).

(** Other writers commit here. *)
Definition yieldToOtherWriters : M unit :=
  fun env w =>
    (Ok tt, mkWorld (mkDB (env_concurrent env (db_tasks (w_db w))) (db_users (w_db w)))
                    (w_redis w) (w_breaker w) (w_tick w)).

Definition getBreaker : M CircuitBreaker := fun _ w => (Ok (w_breaker w), w).

Definition modifyBreaker (f : CircuitBreaker -> CircuitBreaker) : M unit :=
  fun _ w => (Ok tt, mkWorld (w_db w) (w_redis w) (f (w_breaker w)) (w_tick w)).

(** One command sent to Redis: it fails when the environment says so, and
    otherwise acts on the key space. *)
Definition redisCmd {A} (f : gmap string RVal -> A * gmap string RVal) : M A :=
  fun env w =>
    if env_fails env (w_tick w) then (Throw "Redis connection error", tick w)
    else
      let '(a, r') := f (w_redis w) in
      (Ok a, tick (mkWorld (w_db w) r' (w_breaker w) (w_tick w))).

Definition redis_get (key : string) : M (option RVal) :=
  redisCmd (fun r => (r !! key, r)).

(** [setex]; expiry is not modelled. *)
Definition redis_setex (key : string) (ttl : Z) (value : RVal) : M unit :=
  redisCmd (fun r => (tt, <[key := value]> r)).

Definition redis_set (key : string) (value : RVal) : M unit :=
  redisCmd (fun r => (tt, <[key := value]> r)).

Definition redis_del (keys : list string) : M nat :=
  redisCmd (fun r =>
    (length (List.filter (fun k => bool_decide (is_Some (r !! k))) keys),
     foldr delete r keys)).

(** A glob whose only wildcard is a trailing [*], the form of every pattern
    the service builds. *)
Definition matchesPattern (pattern key : string) : bool :=
  match String.length pattern with
  | O => String.eqb key ""
  | S n =>
      if String.eqb (String.substring n 1 pattern) "*"
      then String.prefix (String.substring 0 n pattern) key
      else String.eqb pattern key
  end.

(** [getKeysByPattern]: the [SCAN] cursor loop, as one command. *)
Definition getKeysByPattern (pattern : string) : M (list string) :=
  redisCmd (fun r => (List.filter (matchesPattern pattern) (map fst (map_to_list r)), r)).

(** *** [RedisCacheService]: circuit breaker *)

(** First [if] of [executeWithCircuitBreaker]. *)
Definition tripIfNeeded (now : Z) (cb : CircuitBreaker) : CircuitBreaker :=
  if stateEqb (cb_state cb) CLOSED && (failureThreshold <=? cb_failures cb)%nat
  then mkBreaker (cb_failures cb) now OPEN
  else cb.

(** Second [if] of [executeWithCircuitBreaker]. *)
Definition probeIfDue (now : Z) (cb : CircuitBreaker) : CircuitBreaker :=
  if stateEqb (cb_state cb) OPEN && (recoveryTimeout <? now - cb_lastFailure cb)
  then mkBreaker (cb_failures cb) (cb_lastFailure cb) HALF_OPEN
  else cb.

Definition onCircuitBreakerSuccess (cb : CircuitBreaker) : CircuitBreaker :=
  mkBreaker 0 (cb_lastFailure cb)
            (if stateEqb (cb_state cb) HALF_OPEN then CLOSED else cb_state cb).

Definition onCircuitBreakerFailure (now : Z) (cb : CircuitBreaker) : CircuitBreaker :=
  mkBreaker (S (cb_failures cb)) now (cb_state cb).

Definition breakerOpenMessage : string :=
  "Circuit breaker is OPEN - Redis operations temporarily disabled".

Definition executeWithCircuitBreaker {A} (operation : M A) : M A :=
  let* now := dateNow in
  modifyBreaker (tripIfNeeded now) ;;
  modifyBreaker (probeIfDue now) ;;
  let* cb := getBreaker in
  if stateEqb (cb_state cb) OPEN then throw breakerOpenMessage
  else
    tryCatch
      (let* result := operation in
       modifyBreaker onCircuitBreakerSuccess ;;
       ret result)
      (fun error =>
         (let* t := dateNow in modifyBreaker (onCircuitBreakerFailure t)) ;;
         throw error).

(** *** [RedisCacheService]: plain accessors *)

Definition TASK_LIST_TTL : Z := 18000.
Definition SUMMARY_TTL : Z := 9000.

(** [set]: logs and rethrows. *)
Definition set (key : string) (value : RVal) (ttlSeconds : Z) : M unit :=
  tryCatch
    (if 0 <? ttlSeconds then redis_setex key ttlSeconds value
     else redis_set key value)
    (fun error => throw error).

(** [get]: a failed read is a miss. *)
Definition get (key : string) : M (option RVal) :=
  tryCatch (redis_get key) (fun _ => ret None).

(** [invalidateWorkerTaskCache(workerId)] (no [taskId]). *)
Definition invalidateWorkerTaskCache (workerId : string) : M nat :=
  let patterns :=
    [ "worker:tasks:" +:+ workerId +:+ ":*";
      "worker:summary:" +:+ workerId;
      "worker:tasks:all:" +:+ workerId ] in
  foldl (fun acc pattern =>
           let* totalKeysDeleted := acc in
           let* keys := getKeysByPattern pattern in
           if (0 <? length keys)%nat
           then redis_del keys ;; ret (totalKeysDeleted + length keys)%nat
           else ret totalKeysDeleted)
        (ret 0%nat) patterns.

(** The summary of a worker read from the store. *)
Definition summaryFromStore (db : DB) (workerId : string) : Summary :=
  let a := countByStatus db workerId assigned in
  let b := countByStatus db workerId accepted in
  let c := countByStatus db workerId completed in
  let d := countByStatus db workerId rejected in
  mkSummary 0 a b c d (a + b + c + d).

Definition getWorkerTaskSummaryCached (workerId : string) : M Summary :=
  let cacheKey := "worker:summary:" +:+ workerId in
  let* hit :=
    tryCatch
      (let* cached := executeWithCircuitBreaker (redis_get cacheKey) in
       match cached with
       | Some v =>
           if rvalTruthy v then
             match parseSummary v with
             | Some s => ret (Some s)
             | None => throw "SyntaxError"
             end
           else ret None
       | None => ret None
       end)
      (fun _ => ret None) in
  match hit with
  | Some s => ret s
  | None =>
      let* db := getDB in
      let summary := summaryFromStore db workerId in
      tryCatch
        (executeWithCircuitBreaker (redis_setex cacheKey SUMMARY_TTL (VSummary summary)))
        (fun _ => ret tt) ;;
      ret summary
  end.

(** [summary.total = Object.values(summary).reduce(...)]: the sum of every
    numeric field of the parsed object, the previous [total] among them. *)
Definition retotal (s : Summary) : Summary :=
  mkSummary (sm_unassigned s) (sm_assigned s) (sm_accepted s) (sm_completed s)
            (sm_rejected s)
            (sm_unassigned s + sm_assigned s + sm_accepted s + sm_completed s
             + sm_rejected s + sm_total s).

Definition addAssigned (n : nat) (s : Summary) : Summary :=
  mkSummary (sm_unassigned s) (sm_assigned s + n) (sm_accepted s) (sm_completed s)
            (sm_rejected s) (sm_total s).

(** [updateWorkerTaskSummaryCacheBulk(workerId, { assigned })]; the result is
    the [updated] flag. *)
Definition updateWorkerTaskSummaryCacheBulk (workerId : string) (assignedCount : nat)
  : M bool :=
  let cacheKey := "worker:summary:" +:+ workerId in
  let* r :=
    tryCatch
      (let* cached := executeWithCircuitBreaker (redis_get cacheKey) in
       match cached with
       | Some v =>
           if rvalTruthy v then
             tryCatch
               (match parseSummary v with
                | Some summary =>
                    let summary1 :=
                      if (0 <? assignedCount)%nat then addAssigned assignedCount summary
                      else summary in
                    executeWithCircuitBreaker
                      (redis_setex cacheKey SUMMARY_TTL (VSummary (retotal summary1))) ;;
                    ret true
                | None => throw "SyntaxError"
                end)
               (fun _ =>
                  executeWithCircuitBreaker (redis_del [cacheKey]) ;;
                  ret false)
           else
             tryCatch (getWorkerTaskSummaryCached workerId ;; ret true)
                      (fun _ => ret false)
       | None =>
           tryCatch (getWorkerTaskSummaryCached workerId ;; ret true)
                    (fun _ => ret false)
       end)
      (fun _ =>
         tryCatch (executeWithCircuitBreaker (redis_del [cacheKey]) ;; ret tt)
                  (fun _ => ret tt) ;;
         ret false) in
  ret r.

(** The field of a summary that a status names. *)
Definition summaryField (s : Summary) (st : TaskStatus) : nat :=
  match st with
  | unassigned => sm_unassigned s
  | assigned => sm_assigned s
  | accepted => sm_accepted s
  | completed => sm_completed s
  | rejected => sm_rejected s
  end.

Definition setSummaryField (s : Summary) (st : TaskStatus) (n : nat) : Summary :=
  match st with
  | unassigned => mkSummary n (sm_assigned s) (sm_accepted s) (sm_completed s) (sm_rejected s) (sm_total s)
  | assigned => mkSummary (sm_unassigned s) n (sm_accepted s) (sm_completed s) (sm_rejected s) (sm_total s)
  | accepted => mkSummary (sm_unassigned s) (sm_assigned s) n (sm_completed s) (sm_rejected s) (sm_total s)
  | completed => mkSummary (sm_unassigned s) (sm_assigned s) (sm_accepted s) n (sm_rejected s) (sm_total s)
  | rejected => mkSummary (sm_unassigned s) (sm_assigned s) (sm_accepted s) (sm_completed s) n (sm_total s)
  end.

(** [updateWorkerTaskSummaryCache(workerId, { oldStatus, newStatus })]. *)
Definition updateWorkerTaskSummaryCache (workerId : string)
    (oldStatus : option TaskStatus) (newStatus : TaskStatus) : M bool :=
  let cacheKey := "worker:summary:" +:+ workerId in
  let* r :=
    tryCatch
      (let* cached := executeWithCircuitBreaker (redis_get cacheKey) in
       match cached with
       | Some v =>
           if rvalTruthy v then
             tryCatch
               (match parseSummary v with
                | Some summary =>
                    let summary1 :=
                      match oldStatus with
                      | Some o => setSummaryField summary o (Nat.pred (summaryField summary o))
                      | None => summary
                      end in
                    let summary2 :=
                      setSummaryField summary1 newStatus (S (summaryField summary1 newStatus)) in
                    executeWithCircuitBreaker
                      (redis_setex cacheKey SUMMARY_TTL (VSummary (retotal summary2))) ;;
                    ret true
                | None => throw "SyntaxError"
                end)
               (fun _ =>
                  executeWithCircuitBreaker (redis_del [cacheKey]) ;;
                  ret false)
           else
             tryCatch (getWorkerTaskSummaryCached workerId ;; ret true)
                      (fun _ => ret false)
       | None =>
           tryCatch (getWorkerTaskSummaryCached workerId ;; ret true)
                    (fun _ => ret false)
       end)
      (fun _ =>
         tryCatch (executeWithCircuitBreaker (redis_del [cacheKey]) ;; ret tt)
                  (fun _ => ret tt) ;;
         ret false) in
  ret r.

(** *** [RedisCacheService]: versioned writes *)

Definition versionKey (key : string) : string := key +:+ ":version".

Definition getCacheVersion (key : string) : M Z :=
  tryCatch
    (let* version := redis_get (versionKey key) in
     match version with
     | Some v => if rvalTruthy v then ret (parseInt v) else ret 0
     | None => ret 0
     end)
    (fun _ => ret 0).

Definition setCacheVersion (key : string) (version : Z) : M unit :=
  tryCatch (redis_setex (versionKey key) 300 (VVersion version))
           (fun _ => ret tt).

(** [currentVersion && currentVersion >= version]. *)
Definition versionConflict (currentVersion version : Z) : bool :=
  negb (currentVersion =? 0) && (version <=? currentVersion).

Definition updateCacheWithVersion (key : string) (data : RVal) (version : Z) : M bool :=
  tryCatch
    (let* currentVersion := getCacheVersion key in
     if versionConflict currentVersion version then ret false
     else
       redis_setex key 300 data ;;
       setCacheVersion key version ;;
       ret true)
    (fun _ => ret false).

(** *** [AdvancedCacheService] *)

Definition WORKER_CACHE_TTL : Z := 300.
Definition SPATIAL_INDEX_TTL : Z := 600.

(** [worker.lat || 0]. *)
Definition orZero (v : option R) : R :=
  match v with Some r => r | None => 0%R end.

Definition cacheWorkersWithSpatialIndex (workers : list User) : M unit :=
  tryCatch
    (let* now := dateNow in
     let cachedWorkers :=
       map (fun worker =>
              mkCachedWorker (user_id worker) (orZero (user_lat worker))
                             (orZero (user_lon worker)) (user_role worker)
                             (user_active worker) 0 now)
           workers in
     set "workers:spatial_index" (VCachedWorkers cachedWorkers) SPATIAL_INDEX_TTL ;;
     forEachM workers (fun worker =>
       set ("worker:" +:+ user_id worker)
           (VCachedWorker
              (List.find (fun w => String.eqb (cw_id w) (user_id worker)) cachedWorkers))
           WORKER_CACHE_TTL))
    (fun _ => ret tt).

Definition cacheSpatialIndexStats (stats : SpatialIndex.Stats) (timestamp : Z) : M unit :=
  tryCatch (set "spatial:index:stats" (VStats stats timestamp) SPATIAL_INDEX_TTL)
           (fun _ => ret tt).

Definition syncCacheWithVersion (key : string) (data : RVal) (version : Z) : M bool :=
  tryCatch
    (let* currentVersion := getCacheVersion key in
     if versionConflict currentVersion version then ret false
     else
       updateCacheWithVersion key data version ;;
       ret true)
    (fun _ => ret false).

(** [recentList.splice(0, recentList.length - 50)] when longer than 50. *)
Definition keepLast50 {A} (l : list A) : list A :=
  if (50 <? length l)%nat then drop (length l - 50) l else l.

Definition cacheAllocationResults (results : AllocationMetrics) (timestamp : Z) : M unit :=
  tryCatch
    (let* now := dateNow in
     set ("allocation:results:" +:+ pretty now) (VResults [(results, timestamp)]) 3600 ;;
     let* recent := get "allocation:recent" in
     let* recentList :=
       match recent with
       | Some v =>
           if rvalTruthy v then
             match parseResults v with
             | Some l => ret l
             | None => throw "TypeError"
             end
           else ret []
       | None => ret []
       end in
     set "allocation:recent" (VResults (keepLast50 (recentList ++ [(results, timestamp)]))) 3600)
    (fun _ => ret tt).

End Cache.

(** ** [TaskAllocationService.allocateTasksOptimized] *)

Module Engine.
Import SpatialIndex Store Allocation Cache.

(** [invalidateWorkerCaches(workerIds, workerTaskCounts)]. *)
Definition invalidateWorkerCaches (workerIds : list string)
    (workerTaskCounts : gmap string nat) : M unit :=
  tryCatch
    (forEachM workerIds (fun workerId =>
       invalidateWorkerTaskCache workerId ;;
       if (0 <? default 0%nat (workerTaskCounts !! workerId))%nat then
         updateWorkerTaskSummaryCacheBulk workerId
           (default 0%nat (workerTaskCounts !! workerId)) ;;
         ret tt
       else
         updateWorkerTaskSummaryCache workerId (Some unassigned) assigned ;;
         ret tt))
    (fun _ => ret tt).

(** The transaction of [bulkUpdateTaskAllocations] against the store, after
    whatever other writers committed in the meantime. *)
Definition commitAllocations (allocations : list Allocation) : M (list string) :=
  tryCatch
    (yieldToOtherWriters ;;
     let* now := dateNow in
     let* db := getDB in
     let '(successful, rows) := bulkUpdateTaskAllocations now allocations (db_tasks db) in
     setTasks rows ;;
     ret successful)
    (fun error => throw error).

Definition successRateOf (allocatedCount totalTasks : nat) : R :=
  if (0 <? totalTasks)%nat then (INR allocatedCount / INR totalTasks * 100)%R else 0%R.

(** [allocateTasksOptimized].  Logging and the performance monitor (an
    in-process list of timings that the run only appends to) are left out;
    a failure of the store itself is not modelled, so the outer [catch] is
    only ever reached through what the cache layer lets escape. *)
Definition allocateTasksOptimized (batchSize : nat) : M AllocationResult :=
  tryCatch
    (let* _startTime := dateNow in
     let* db := getDB in
     let tasks := findPendingGeocoded db batchSize in
     let workers := getWorkers db in
     if (length tasks =? 0)%nat || (length workers =? 0)%nat then
       ret (NoTasksOrWorkers (length tasks) 0 (length tasks))
     else
       let idx := buildSpatialIndex workers in
       let spatialStats := getStats idx in
       let* cacheVersion := dateNow in
       cacheWorkersWithSpatialIndex workers ;;
       (let* ts := dateNow in cacheSpatialIndexStats spatialStats ts) ;;
       syncCacheWithVersion "workers:spatial_index" (VUsers workers) cacheVersion ;;
       let* db1 := getDB in
       let workerTaskCounts := getWorkerTaskCountsBatch db1 (map user_id workers) in
       let '(allocations, failedInLoop) := proposeAll idx workerTaskCounts tasks in
       let* rc :=
         (if (0 <? length allocations)%nat then
            let* successfulIds := commitAllocations allocations in
            ret (reconcile allocations successfulIds failedInLoop workerTaskCounts)
          else
            ret (mkReconciled [] 0 failedInLoop workerTaskCounts [])) in
       (if (0 <? length (rc_affected rc))%nat
        then invalidateWorkerCaches (rc_affected rc) (rc_counts rc)
        else ret tt) ;;
       let successRate := successRateOf (rc_allocated rc) (length tasks) in
       let avgDistance :=
         calculateAverageDistance
           (if (0 <? length (rc_successful rc))%nat then rc_successful rc
            else allocations) in
       let workerUtilization := calculateWorkerUtilization workers (rc_counts rc) in
       let allocationMetrics :=
         mkMetrics (length tasks) (rc_allocated rc) (rc_failed rc)
                   (length (rc_affected rc)) successRate avgDistance
                   workerUtilization in
       (let* ts := dateNow in cacheAllocationResults allocationMetrics ts) ;;
       ret (Completed allocationMetrics))
    (fun error => throw ("Optimized task allocation failed: " +:+ error)).

End Engine.

(** ** Reallocation policy ([task-reallocation.config.ts]) *)

Module Reallocation.

Record AllowedStatuses : Type := mkAllowed {
  al_unassigned : bool;
  al_assigned : bool;
  al_accepted : bool;
  al_rejected : bool;
  al_completed : bool;
}.

Record TaskReallocationConfig : Type := mkConfig {
  allowedStatuses : AllowedStatuses;
  defaultAllowReallocation : bool;
  errorMessages : gmap string string;
}.

(** The member name of a status, [String(status)]. *)
Definition statusName (s : TaskStatus) : string :=
  match s with
  | unassigned => "unassigned"
  | assigned => "assigned"
  | accepted => "accepted"
  | rejected => "rejected"
  | completed => "completed"
  end.

Definition defaultTaskReallocationConfig : TaskReallocationConfig :=
  mkConfig
    (mkAllowed true true true true false)
    false
    (<["unassigned" := "Unassigned tasks cannot be reallocated"]>
     (<["assigned" := "Assigned tasks cannot be reallocated"]>
      (<["accepted" := "Accepted tasks cannot be reallocated"]>
       (<["rejected" := "Rejected tasks cannot be reallocated"]>
        (<["completed" := "Completed tasks cannot be reallocated"]>
         (<["default" := "Task reallocation is not allowed for this status"]> ∅)))))).

Definition lookupAllowed (a : AllowedStatuses) (s : TaskStatus) : bool :=
  match s with
  | unassigned => al_unassigned a
  | assigned => al_assigned a
  | accepted => al_accepted a
  | rejected => al_rejected a
  | completed => al_completed a
  end.

Definition setAllowed (a : AllowedStatuses) (s : TaskStatus) (b : bool) : AllowedStatuses :=
  match s with
  | unassigned => mkAllowed b (al_assigned a) (al_accepted a) (al_rejected a) (al_completed a)
  | assigned => mkAllowed (al_unassigned a) b (al_accepted a) (al_rejected a) (al_completed a)
  | accepted => mkAllowed (al_unassigned a) (al_assigned a) b (al_rejected a) (al_completed a)
  | rejected => mkAllowed (al_unassigned a) (al_assigned a) (al_accepted a) b (al_completed a)
  | completed => mkAllowed (al_unassigned a) (al_assigned a) (al_accepted a) (al_rejected a) b
  end.

Definition upperChar (c : ascii) : ascii :=
  let n := nat_of_ascii c in
  if (97 <=? n)%nat && (n <=? 122)%nat then ascii_of_nat (n - 32) else c.

Definition lowerChar (c : ascii) : ascii :=
  let n := nat_of_ascii c in
  if (65 <=? n)%nat && (n <=? 90)%nat then ascii_of_nat (n + 32) else c.

Fixpoint mapString (f : ascii -> ascii) (s : string) : string :=
  match s with
  | EmptyString => EmptyString
  | String c s' => String (f c) (mapString f s')
  end.

Definition toUpperCase : string -> string := mapString upperChar.
Definition toLowerCase : string -> string := mapString lowerChar.

(** [Object.values(TaskStatus)]. *)
Definition allStatuses : list TaskStatus :=
  [unassigned; assigned; accepted; rejected; completed].

(** [loadTaskReallocationConfig], with [process.env] as a map. *)
Definition loadTaskReallocationConfig (env : gmap string string) : TaskReallocationConfig :=
  let allowed :=
    foldl (fun a status =>
             match env !! ("TASK_REALLOCATION_" +:+ toUpperCase (statusName status)) with
             | Some envValue => setAllowed a status (String.eqb (toLowerCase envValue) "true")
             | None => a
             end)
          (allowedStatuses defaultTaskReallocationConfig) allStatuses in
  let dflt :=
    match env !! "TASK_REALLOCATION_DEFAULT" with
    | Some defaultEnv => String.eqb (toLowerCase defaultEnv) "true"
    | None => defaultAllowReallocation defaultTaskReallocationConfig
    end in
  mkConfig allowed dflt (errorMessages defaultTaskReallocationConfig).

(** [canReallocateTask]: every status has an entry in [allowedStatuses], so
    the [!== undefined] test always succeeds. *)
Definition canReallocateTask (status : TaskStatus) (config : TaskReallocationConfig) : bool :=
  lookupAllowed (allowedStatuses config) status.


End Reallocation.

(** ** [loadTaskReallocationConfig] and the object it shares *)

Module SharedConfig.
Import Reallocation.

(** The name of the variable that overrides a status. *)
Definition overrideVar (s : TaskStatus) : string :=
  "TASK_REALLOCATION_" +:+ toUpperCase (statusName s).

(** [{ ...defaultTaskReallocationConfig }] copies one level: the
    [allowedStatuses] of the copy is the very object of the module-level
    default, and the loop of [loadTaskReallocationConfig] writes into it.
    [shared] is that object before the call; the second component is the
    object after it. *)
Definition loadTaskReallocationConfigShared (env : gmap string string)
    (shared : AllowedStatuses) : TaskReallocationConfig * AllowedStatuses :=
  let allowed :=
    foldl (fun a status =>
             match env !! ("TASK_REALLOCATION_" +:+ toUpperCase (statusName status)) with
             | Some envValue => setAllowed a status (String.eqb (toLowerCase envValue) "true")
             | None => a
             end)
          shared allStatuses in
  let dflt :=
    match env !! "TASK_REALLOCATION_DEFAULT" with
    | Some defaultEnv => String.eqb (toLowerCase defaultEnv) "true"
    | None => defaultAllowReallocation defaultTaskReallocationConfig
    end in
  (mkConfig allowed dflt (errorMessages defaultTaskReallocationConfig), allowed).

End SharedConfig.

(** ** [TaskAllocationService.deleteUnassignedTasks] *)

Module Deletion.
Import Store Cache.

(** The [where] of [deleteMany]: [{ id: { in: chunk }, status: 'unassigned' }]. *)
Definition deleteMatches (chunk : list string) (t : Task) : bool :=
  bool_decide (task_id t ∈ chunk) && bool_decide (task_status t = unassigned).

(** [prisma.task.deleteMany]: the rows that stay and the [count]. *)
Definition deleteManyUnassigned (chunk : list string) (rows : list Task)
  : list Task * nat :=
  (List.filter (fun t => negb (deleteMatches chunk t)) rows,
   length (List.filter (deleteMatches chunk) rows)).

(** The loop [for (let i = 0; i < ids.length; i += chunkSize)].  Its number
    of iterations is not bounded by the code, so the embedding counts them
    down from [fuel]; [None] is a loop still running when the fuel is out.
    Other writers are not modelled here. *)
Fixpoint deleteLoop (fuel : nat) (ids : list string) (chunkSize i : nat)
    (rows : list Task) (totalDeleted : nat) : option (nat * list Task) :=
  if (i <? length ids)%nat then
    match fuel with
    | O => None
    | S fuel' =>
        let chunk := take chunkSize (drop i ids) in
        let '(rows', count) := deleteManyUnassigned chunk rows in
        deleteLoop fuel' ids chunkSize (i + chunkSize) rows' (totalDeleted + count)
    end
  else Some (totalDeleted, rows).

(** [deleteUnassignedTasks(ids, chunkSize)]: the outcome ([totalDeleted] or
    the [BadRequestException]) and the task table afterwards. *)
Definition deleteUnassignedTasks (fuel : nat) (ids : list string) (chunkSize : nat)
    (rows : list Task) : option (Outcome nat * list Task) :=
  if (length ids =? 0)%nat then Some (Throw "IDs must be a non-empty array", rows)
  else
    match deleteLoop fuel ids chunkSize 0 rows 0 with
    | Some (totalDeleted, rows') => Some (Ok totalDeleted, rows')
    | None => None
    end.

End Deletion.

(** ** [AdvancedCacheService.batchSyncCache] *)

Module BatchSync.
Import Cache.

Record SyncUpdate : Type := mkUpdate {
  up_key : string;
  up_data : RVal;
  up_version : Z;
}.

Record BatchResult : Type := mkBatch {
  br_successful : nat;
  br_failed : nat;
  br_conflicts : nat;
}.

(** The body of the [for (const update of updates)] loop. *)
Definition batchStep (acc : BatchResult) (update : SyncUpdate) : M BatchResult :=
  tryCatch
    (let* result :=
       syncCacheWithVersion (up_key update) (up_data update) (up_version update) in
     if result
     then ret (mkBatch (S (br_successful acc)) (br_failed acc) (br_conflicts acc))
     else ret (mkBatch (br_successful acc) (br_failed acc) (S (br_conflicts acc))))
    (fun _ => ret (mkBatch (br_successful acc) (S (br_failed acc)) (br_conflicts acc))).

Fixpoint batchLoop (updates : list SyncUpdate) (acc : BatchResult) : M BatchResult :=
  match updates with
  | [] => ret acc
  | update :: rest => let* acc' := batchStep acc update in batchLoop rest acc'
  end.

Definition batchSyncCache (updates : list SyncUpdate) : M BatchResult :=
  batchLoop updates (mkBatch 0 0 0).

End BatchSync.

(** ** [PerformanceMonitorService] *)

Module Monitor.

(** The [AllocationMetrics] of the monitor, with the fields it reads. *)
Record AllocationMetrics : Type := mkAllocationMetrics {
  mm_totalTasks : nat;
  mm_allocated : nat;
  mm_failed : nat;
  mm_successRate : R;
  mm_duration : Z;
}.

(** [metadata: Record<string, any>], with the keys the callers of the
    monitor use; a key that is not set is [None]. *)
Record Metadata : Type := mkMetadata {
  md_operation : option string;
  md_batchSize : option nat;
  md_allocationMetrics : option AllocationMetrics;
  md_error : option string;
}.

Definition emptyMetadata : Metadata := mkMetadata None None None None.

Definition orElse {A} (later earlier : option A) : option A :=
  match later with Some v => Some v | None => earlier end.

(** [{ ...a, ...b }]: the keys of [b] win. *)
Definition spread (a b : Metadata) : Metadata :=
  mkMetadata (orElse (md_operation b) (md_operation a))
             (orElse (md_batchSize b) (md_batchSize a))
             (orElse (md_allocationMetrics b) (md_allocationMetrics a))
             (orElse (md_error b) (md_error a)).

Record PerformanceMetrics : Type := mkPerformanceMetrics {
  pm_operation : string;
  pm_startTime : Z;
  pm_endTime : option Z;
  pm_duration : option Z;
  pm_success : bool;
  pm_metadata : Metadata;
}.

Definition MAX_METRICS : nat := 1000.

(** [arr.slice(-n)] for a positive [n]: the last [n] elements. *)
Definition lastN {A} (n : nat) (l : list A) : list A := drop (length l - n) l.


(** What [endOperation] writes into the metric it found. *)
Definition endMetric (success : bool) (metadata : Metadata) (now : Z)
    (metric : PerformanceMetrics) : PerformanceMetrics :=
  mkPerformanceMetrics (pm_operation metric) (pm_startTime metric)
    (Some now) (Some (now - pm_startTime metric)) success
    (spread (pm_metadata metric) metadata).

(** [this.metrics.find(...)] followed by the writes to the object found:
    the first metric with that id is replaced in place. *)
Fixpoint updateFound (operationId : string)
    (f : PerformanceMetrics -> PerformanceMetrics)
    (metrics : list PerformanceMetrics) : list PerformanceMetrics :=
  match metrics with
  | [] => []
  | m :: rest =>
      if String.eqb (pm_operation m) operationId then f m :: rest
      else m :: updateFound operationId f rest
  end.

Definition endOperation (operationId : string) (success : bool) (metadata : Metadata)
    (now : Z) (metrics : list PerformanceMetrics) : list PerformanceMetrics :=
  let metrics1 := updateFound operationId (endMetric success metadata now) metrics in
  if (MAX_METRICS <? length metrics1)%nat then lastN MAX_METRICS metrics1 else metrics1.

Record PerformanceStats : Type := mkPerformanceStats {
  ps_totalOperations : nat;
  ps_successRate : R;
  ps_avgDuration : R;
  ps_minDuration : Z;
  ps_maxDuration : Z;
  ps_recentMetrics : list PerformanceMetrics;
}.

Definition isCompleted (m : PerformanceMetrics) : bool :=
  match pm_duration m with Some _ => true | None => false end.

(** [m.duration ?? 0]. *)
Definition durationOf (m : PerformanceMetrics) : Z := default 0 (pm_duration m).

(** [Math.min(...l)] and [Math.max(...l)] of a non-empty list. *)
Definition minOf (l : list Z) : Z :=
  match l with [] => 0 | d :: ds => foldl Z.min d ds end.
Definition maxOf (l : list Z) : Z :=
  match l with [] => 0 | d :: ds => foldl Z.max d ds end.

Definition sumZ (l : list Z) : Z := foldl Z.add 0 l.

(** [getPerformanceStats(operation?)]; an empty name is falsy, like no name. *)
Definition getPerformanceStats (operation : option string)
    (metrics : list PerformanceMetrics) : PerformanceStats :=
  let relevantMetrics :=
    match operation with
    | Some op =>
        if String.eqb op "" then metrics
        else List.filter
               (fun m => bool_decide (md_operation (pm_metadata m) = Some op)) metrics
    | None => metrics
    end in
  let completedMetrics := List.filter isCompleted relevantMetrics in
  let totalOperations := length completedMetrics in
  let successfulOperations := length (List.filter pm_success completedMetrics) in
  let successRate :=
    if (0 <? totalOperations)%nat
    then (INR successfulOperations / INR totalOperations * 100)%R else 0%R in
  let durations := map durationOf completedMetrics in
  let avgDuration :=
    if (0 <? length durations)%nat
    then (IZR (sumZ durations) / INR (length durations))%R else 0%R in
  let minDuration := if (0 <? length durations)%nat then minOf durations else 0 in
  let maxDuration := if (0 <? length durations)%nat then maxOf durations else 0 in
  mkPerformanceStats totalOperations successRate avgDuration minDuration maxDuration
    (lastN 10 completedMetrics).








End Monitor.

(** ** The engine as the monitor sees it *)

Module MonitoredEngine.
Import Store Cache Engine Monitor.




End MonitoredEngine.

(** ** [AdvancedCacheService.getRecentAllocationResults] *)

Module Recent.
Import Allocation Cache.

(** [arr.slice(start)]: a negative [start] counts from the end. *)
Definition sliceFrom {A} (start : Z) (l : list A) : list A :=
  if start <? 0 then drop (Z.to_nat (Z.max (Z.of_nat (length l) + start) 0)) l
  else drop (Z.to_nat start) l.

(** [AdvancedCacheService.getRecentAllocationResults(limit)]. *)
Definition getRecentAllocationResults (limit : Z) : M (list (AllocationMetrics * Z)) :=
  tryCatch
    (let* recent := get "allocation:recent" in
     match recent with
     | Some v =>
         if rvalTruthy v then
           match parseResults v with
           | Some recentList => ret (sliceFrom (- limit) recentList)
           | None => throw "TypeError"
           end
         else ret []
     | None => ret []
     end)
    (fun _ => ret []).

End Recent.

(** ** [RedisCacheService.retryOperation] *)

Module Retry.
Import Cache.

(** [await new Promise((resolve) => setTimeout(resolve, delay))]: the clock
    moves on. *)
Definition sleep (delay : Z) : M unit := fun _ w => (Ok tt, tick w).

(** The loop [for (let i = 0; i < maxRetries; i++)] from iteration [i], with
    [remaining = maxRetries - i] iterations to go. *)
Fixpoint retryFrom {A} (operation : M A) (maxRetries : nat) (baseDelay : Z)
    (remaining i : nat) : M A :=
  match remaining with
  | O => throw "Retry operation failed"
  | S remaining' =>
      tryCatch (executeWithCircuitBreaker operation)
        (fun error =>
           if (i =? maxRetries - 1)%nat then throw error
           else
             sleep (baseDelay * 2 ^ Z.of_nat i) ;;
             retryFrom operation maxRetries baseDelay remaining' (S i))
  end.

Definition retryOperation {A} (operation : M A) (maxRetries : nat) (baseDelay : Z) : M A :=
  retryFrom operation maxRetries baseDelay maxRetries 0.

End Retry.

(** ** [RedisCacheService.withLock] *)

Module Lock.
Import Cache.

(** [try { m } finally { f }]: [f] runs either way, and its own exception
    replaces the outcome of [m]. *)
Definition tryFinally {A} (m : M A) (f : M unit) : M A :=
  fun env w =>
    match m env w with
    | (outcome, w1) =>
        match f env w1 with
        | (Ok _, w2) => (outcome, w2)
        | (Throw e, w2) => (Throw e, w2)
        end
    end.

(** [redis.set(key, value, 'PX', ttl, 'NX')]: [true] for ['OK'], [false] for
    [null]; expiry is not modelled. *)
Definition redis_set_nx (key : string) (value : RVal) : M bool :=
  redisCmd (fun r =>
    match r !! key with
    | Some _ => (false, r)
    | None => (true, <[key := value]> r)
    end).

(** [currentValue === lockValue], on the strings Redis holds: a version is
    stored as its decimal text, every other document starts with a bracket. *)
Definition isText (v : option RVal) (s : string) : bool :=
  match v with
  | Some (VText t) => String.eqb t s
  | Some (VVersion z) => String.eqb (pretty z) s
  | _ => false
  end.

Definition withLock {A} (key : string) (operation : M A) : M A :=
  let lockKey := "lock:" +:+ key in
  let* now := dateNow in
  let lockValue := pretty now in
  let* acquired := redis_set_nx lockKey (VText lockValue) in
  if negb acquired then throw ("Lock acquisition failed for key: " +:+ key)
  else
    tryFinally operation
      (let* currentValue := redis_get lockKey in
       if isText currentValue lockValue then redis_del [lockKey] ;; ret tt
       else ret tt).

End Lock.

(** * Properties *)

(** ** Reallocation policy *)

Module ReallocationFacts.
Import Reallocation.




End ReallocationFacts.

(** ** Guarded bulk commit *)

Module CommitFacts.
Import Store Allocation.

(** What the transaction does to one row: the first allocation that names
    the row decides, and only a row that is still unassigned changes. *)
Definition committedRow (now : Z) (allocations : list Allocation) (t : Task) : Task :=
  match List.find (fun a => String.eqb (task_id t) (alloc_taskId a)) allocations with
  | Some a =>
      if bool_decide (task_status t = unassigned)
      then assignRow (alloc_workerId a) now t
      else t
  | None => t
  end.

(** Is some row with this id still unassigned? *)
Definition stillUnassigned (rows : list Task) (taskId : string) : bool :=
  existsb (guardMatches taskId) rows.

Definition commitStep (now : Z) (acc : list string * list Task) (allocation : Allocation)
  : list string * list Task :=
  let '(rows', count) :=
    updateManyUnassigned (alloc_taskId allocation) (alloc_workerId allocation) now (snd acc) in
  if (0 <? count)%nat then (fst acc ++ [alloc_taskId allocation], rows') else (fst acc, rows').

Lemma bulkUpdate_fold now allocations rows :
  bulkUpdateTaskAllocations now allocations rows
  = foldl (commitStep now) ([], rows) allocations.
Proof. reflexivity. Qed.

Lemma count_pos_iff taskId rows :
  (0 <? length (List.filter (guardMatches taskId) rows))%nat = stillUnassigned rows taskId.
Proof.
  unfold stillUnassigned. induction rows as [|t rows IH]; simpl; [reflexivity|].
  destruct (guardMatches taskId t); simpl; [reflexivity | exact IH].
Qed.

Lemma guardMatches_spec taskId t :
  guardMatches taskId t = true <-> task_id t = taskId /\ task_status t = unassigned.
Proof.
  unfold guardMatches. rewrite andb_true_iff, String.eqb_eq, bool_decide_eq_true.
  reflexivity.
Qed.

Lemma commitStep_eq now ids rows a :
  commitStep now (ids, rows) a
  = (if stillUnassigned rows (alloc_taskId a) then ids ++ [alloc_taskId a] else ids,
     map (fun t => if guardMatches (alloc_taskId a) t
                   then assignRow (alloc_workerId a) now t else t) rows).
Proof.
  unfold commitStep, updateManyUnassigned. simpl.
  rewrite count_pos_iff. destruct (stillUnassigned rows (alloc_taskId a)); reflexivity.
Qed.

(** A row named by another task id is invisible to the guard of this one,
    before and after it is assigned. *)
Lemma stillUnassigned_after_other now a rows taskId :
  taskId <> alloc_taskId a ->
  stillUnassigned
    (map (fun t => if guardMatches (alloc_taskId a) t
                   then assignRow (alloc_workerId a) now t else t) rows) taskId
  = stillUnassigned rows taskId.
Proof.
  intros Hne. unfold stillUnassigned. induction rows as [|t rows IH]; simpl; [reflexivity|].
  rewrite IH. f_equal.
  destruct (guardMatches (alloc_taskId a) t) eqn:E; [|reflexivity].
  apply guardMatches_spec in E as [E1 E2].
  unfold guardMatches. simpl.
  replace (String.eqb (task_id t) taskId) with false; [reflexivity|].
  symmetry. apply String.eqb_neq. congruence.
Qed.

Lemma committedRow_cons now a allocations t :
  committedRow now allocations
    (if guardMatches (alloc_taskId a) t then assignRow (alloc_workerId a) now t else t)
  = committedRow now (a :: allocations) t.
Proof.
  unfold committedRow at 2. simpl.
  destruct (guardMatches (alloc_taskId a) t) eqn:E.
  - apply guardMatches_spec in E as [E1 E2].
    rewrite <- E1, String.eqb_refl. rewrite bool_decide_eq_true_2 by exact E2.
    unfold committedRow. simpl.
    destruct (List.find _ allocations); reflexivity.
  - destruct (String.eqb (task_id t) (alloc_taskId a)) eqn:Eid.
    + apply String.eqb_eq in Eid.
      assert (Hs : task_status t <> unassigned).
      { intros Hs. assert (guardMatches (alloc_taskId a) t = true)
          by (apply guardMatches_spec; auto). congruence. }
      rewrite bool_decide_eq_false_2 by exact Hs.
      unfold committedRow.
      destruct (List.find _ allocations); [|reflexivity].
      rewrite bool_decide_eq_false_2 by exact Hs. reflexivity.
    + reflexivity.
Qed.

(** The fold of the transaction, in closed form. *)
Lemma commit_fold_spec now allocations :
  NoDup (map alloc_taskId allocations) ->
  forall ids rows,
    foldl (commitStep now) (ids, rows) allocations
    = (ids ++ List.filter (stillUnassigned rows) (map alloc_taskId allocations),
       map (committedRow now allocations) rows).
Proof.
  induction allocations as [|a allocations IH]; intros Hnd ids rows.
  - simpl. rewrite app_nil_r. f_equal.
    induction rows as [|t rows IHr]; simpl; [reflexivity | f_equal; exact IHr].
  - simpl in Hnd. apply NoDup_cons in Hnd as [Hnotin Hnd].
    cbn [foldl]. rewrite commitStep_eq, (IH Hnd). f_equal.
    + cbn [map List.filter].
      assert (Hsame :
        List.filter
          (stillUnassigned
             (map (fun t => if guardMatches (alloc_taskId a) t
                            then assignRow (alloc_workerId a) now t else t) rows))
          (map alloc_taskId allocations)
        = List.filter (stillUnassigned rows) (map alloc_taskId allocations)).
      { clear IH Hnd. induction allocations as [|b bs IHb]; [reflexivity|].
        simpl in Hnotin. apply not_elem_of_cons in Hnotin as [Hne Hnotin].
        cbn [map List.filter].
        rewrite (stillUnassigned_after_other now a rows (alloc_taskId b))
          by congruence.
        rewrite (IHb Hnotin). reflexivity. }
      rewrite Hsame.
      destruct (stillUnassigned rows (alloc_taskId a)).
      * rewrite <- app_assoc. reflexivity.
      * reflexivity.
    + rewrite map_map. apply map_ext. intros t. apply committedRow_cons.
Qed.

(** After the transaction no row named by an allocation is unassigned. *)
Lemma committed_not_unassigned now allocations rows a :
  a ∈ allocations ->
  stillUnassigned (map (committedRow now allocations) rows) (alloc_taskId a) = false.
Proof.
  intros Hin. unfold stillUnassigned.
  apply not_true_is_false. intros Hex.
  apply existsb_exists in Hex as (t' & Ht' & Hg).
  apply in_map_iff in Ht' as (t & <- & _).
  apply guardMatches_spec in Hg as [Hid Hst].
  unfold committedRow in Hid, Hst.
  destruct (List.find (fun a0 => String.eqb (task_id t) (alloc_taskId a0)) allocations)
    as [a0|] eqn:Hfind.
  - destruct (bool_decide (task_status t = unassigned)) eqn:Hb.
    + simpl in Hst. discriminate.
    + apply bool_decide_eq_false in Hb. contradiction.
  - assert (Hf := find_none _ _ Hfind a).
    rewrite <- list_elem_of_In in Hf. specialize (Hf Hin).
    apply String.eqb_neq in Hf. congruence.
Qed.

Lemma stillUnassigned_false_map rows taskId (f : Task -> Task) :
  stillUnassigned rows taskId = false ->
  map (fun t => if guardMatches taskId t then f t else t) rows = rows.
Proof.
  unfold stillUnassigned. induction rows as [|t rows IH]; simpl; [reflexivity|].
  intros H. apply orb_false_iff in H as [H1 H2]. rewrite H1, (IH H2). reflexivity.
Qed.

(** A transaction none of whose guards holds changes nothing. *)
Lemma commit_fold_noop now allocations :
  forall ids rows,
    (forall a, a ∈ allocations -> stillUnassigned rows (alloc_taskId a) = false) ->
    foldl (commitStep now) (ids, rows) allocations = (ids, rows).
Proof.
  induction allocations as [|a allocations IH]; intros ids rows H; [reflexivity|].
  cbn [foldl]. rewrite commitStep_eq.
  assert (Ha : stillUnassigned rows (alloc_taskId a) = false)
    by (apply H; left).
  rewrite Ha, (stillUnassigned_false_map _ _ _ Ha).
  apply IH. intros b Hb. apply H. right. exact Hb.
Qed.

Lemma lookup_map_row (f : Task -> Task) rows i :
  map f rows !! i = f <$> (rows !! i).
Proof. apply (list_lookup_fmap f rows i). Qed.

Lemma find_allocation_unique allocations a t :
  NoDup (map alloc_taskId allocations) ->
  a ∈ allocations -> alloc_taskId a = task_id t ->
  List.find (fun a0 => String.eqb (task_id t) (alloc_taskId a0)) allocations = Some a.
Proof.
  induction allocations as [|b bs IH]; intros Hnd Hin Hid.
  - inversion Hin.
  - simpl in Hnd. apply NoDup_cons in Hnd as [Hnotin Hnd]. simpl.
    apply elem_of_cons in Hin as [->|Hin].
    + rewrite Hid, String.eqb_refl. reflexivity.
    + destruct (String.eqb (task_id t) (alloc_taskId b)) eqn:E.
      * apply String.eqb_eq in E. exfalso. apply Hnotin.
        rewrite <- E, <- Hid. apply list_elem_of_fmap_2. exact Hin.
      * apply IH; assumption.
Qed.

(** C3.  For a list of proposed pairs with distinct task ids, over a task
    table with distinct ids, [bulkUpdateTaskAllocations] returns exactly the
    proposed task ids whose row was still unassigned; each such row becomes
    [assigned] with the proposed worker; a row that was not unassigned is
    unchanged and its id is not returned; rows that no pair names are
    unchanged; and running the same update again returns nothing and changes
    nothing. *)
Theorem guarded_bulk_commit (now now' : Z) (allocations : list Allocation)
    (rows : list Task) :
  NoDup (map alloc_taskId allocations) ->
  NoDup (map task_id rows) ->
  exists ids rows',
    bulkUpdateTaskAllocations now allocations rows = (ids, rows')
    /\ (forall id, id ∈ ids <->
          id ∈ map alloc_taskId allocations
          /\ exists t, t ∈ rows /\ task_id t = id /\ task_status t = unassigned)
    /\ length rows' = length rows
    /\ (forall i t, rows !! i = Some t ->
          exists t', rows' !! i = Some t'
            /\ task_id t' = task_id t
            /\ (task_status t <> unassigned -> t' = t /\ task_id t ∉ ids)
            /\ (task_id t ∉ map alloc_taskId allocations -> t' = t)
            /\ (task_status t = unassigned ->
                forall a, a ∈ allocations -> alloc_taskId a = task_id t ->
                  task_status t' = assigned
                  /\ task_assignedUserId t' = Some (alloc_workerId a)
                  /\ task_id t ∈ ids))
    /\ bulkUpdateTaskAllocations now' allocations rows' = ([], rows').
Proof.
  intros Hnd Hrows.
  rewrite bulkUpdate_fold, (commit_fold_spec now allocations Hnd [] rows).
  eexists _, _. split; [reflexivity|]. cbn [app].
  assert (Hmem : forall id,
    id ∈ List.filter (stillUnassigned rows) (map alloc_taskId allocations) <->
    id ∈ map alloc_taskId allocations
    /\ exists t, t ∈ rows /\ task_id t = id /\ task_status t = unassigned).
  { intros id. rewrite list_elem_of_In, filter_In, <- list_elem_of_In.
    unfold stillUnassigned. rewrite existsb_exists.
    split; intros [H1 (t & Ht & Hg)]; (split; [exact H1|]); exists t.
    - apply guardMatches_spec in Hg. rewrite list_elem_of_In. tauto.
    - rewrite <- list_elem_of_In. split; [tauto|]. apply guardMatches_spec. tauto. }
  split; [exact Hmem|]. split; [apply length_map|]. split.
  - intros i t Hi. exists (committedRow now allocations t).
    rewrite lookup_map_row, Hi. split; [reflexivity|].
    split; [|split; [|split]].
    + unfold committedRow. destruct (List.find _ allocations); [|reflexivity].
      destruct (bool_decide _); reflexivity.
    + intros Hs. split.
      * unfold committedRow. destruct (List.find _ allocations); [|reflexivity].
        rewrite bool_decide_eq_false_2 by exact Hs. reflexivity.
      * rewrite Hmem. intros [_ (t2 & Ht2 & Hid & Hst)].
        assert (t2 = t); [|congruence].
        apply list_elem_of_lookup in Ht2 as [j Hj].
        assert (i = j); [|congruence].
        eapply NoDup_lookup; [exact Hrows| |].
        -- change (map task_id rows) with (task_id <$> rows).
           rewrite list_lookup_fmap, Hi. reflexivity.
        -- change (map task_id rows) with (task_id <$> rows).
           rewrite list_lookup_fmap, Hj. simpl. congruence.
    + intros Hnot. unfold committedRow.
      destruct (List.find _ allocations) as [a0|] eqn:Hfind; [|reflexivity].
      apply find_some in Hfind as [Hin Heq]. apply String.eqb_eq in Heq.
      exfalso. apply Hnot. rewrite Heq. apply list_elem_of_fmap_2.
      apply list_elem_of_In. exact Hin.
    + intros Hs a Ha Hid. unfold committedRow.
      rewrite (find_allocation_unique allocations a t Hnd Ha Hid).
      rewrite bool_decide_eq_true_2 by exact Hs. simpl.
      split; [reflexivity|]. split; [reflexivity|].
      apply Hmem. split.
      * rewrite <- Hid. apply list_elem_of_fmap_2. exact Ha.
      * exists t. split; [|tauto]. eapply list_elem_of_lookup_2. exact Hi.
  - rewrite bulkUpdate_fold. apply commit_fold_noop.
    intros a Ha. apply committed_not_unassigned. exact Ha.
Qed.

(** A two-pair batch over a table in which one task was already taken. *)
Definition sampleAllocations : list Allocation :=
  [mkAllocation "t1" "w1" None; mkAllocation "t2" "w2" None].

Definition sampleRows : list Task :=
  [mkTask "t1" None None unassigned false None None;
   mkTask "t2" None None assigned false (Some "w9") (Some 1)].

Lemma guarded_bulk_commit_witness :
  NoDup (map alloc_taskId sampleAllocations)
  /\ NoDup (map task_id sampleRows)
  /\ exists ids rows',
       bulkUpdateTaskAllocations 10 sampleAllocations sampleRows = (ids, rows')
       /\ bulkUpdateTaskAllocations 11 sampleAllocations rows' = ([], rows').
Proof.
  assert (H1 : NoDup (map alloc_taskId sampleAllocations))
    by (apply (bool_decide_unpack _); vm_compute; exact I).
  assert (H2 : NoDup (map task_id sampleRows))
    by (apply (bool_decide_unpack _); vm_compute; exact I).
  split; [exact H1|]. split; [exact H2|].
  destruct (guarded_bulk_commit 10 11 sampleAllocations sampleRows H1 H2)
    as (ids & rows' & E & _ & _ & _ & Hagain).
  exists ids, rows'. split; assumption.
Defined.

End CommitFacts.

(** ** Worker selection *)

Module ScorerFacts.
Import Allocation.
Local Open Scope R_scope.

Section Selection.
Variable workerTaskCounts : gmap string nat.
Variable task : Task.

(** A candidate is eligible when its load is below the cap. *)
Definition eligible (wp : WorkerPoint) : Prop :=
  (currentTasksOf workerTaskCounts (wp_data wp) < MAX_TASKS_PER_WORKER)%nat.

Definition scoreOf (wp : WorkerPoint) : R :=
  calculateWorkerScore (distanceOf task wp)
    (currentTasksOf workerTaskCounts (wp_data wp)) MAX_TASKS_PER_WORKER.

Lemma Rltb_true x y : x < y -> Js.Rltb x y = true.
Proof. intros H. unfold Js.Rltb. destruct (Rlt_dec x y); [reflexivity | contradiction]. Qed.

Lemma Rltb_false x y : ~ x < y -> Js.Rltb x y = false.
Proof. intros H. unfold Js.Rltb. destruct (Rlt_dec x y); [contradiction | reflexivity]. Qed.

Lemma score_positive wp : eligible wp -> 0 < scoreOf wp.
Proof.
  unfold eligible, scoreOf, calculateWorkerScore, MAX_TASKS_PER_WORKER.
  intros H. apply lt_INR in H.
  set (c := INR (currentTasksOf workerTaskCounts (wp_data wp))) in *.
  assert (H50 : INR 50 = 50) by (simpl; lra).
  rewrite H50 in *.
  assert (0 <= match distanceOf task wp with
               | Js.Fin d => Rmax 0 (100 - d / 10)
               | Js.Infinity => 0
               end).
  { destruct (distanceOf task wp); [apply Rmax_l | lra]. }
  lra.
Qed.

Lemma selectStep_skip st wp :
  ~ eligible wp -> selectStep workerTaskCounts task st wp = st.
Proof.
  unfold eligible, selectStep. intros H.
  destruct (Nat.leb_spec MAX_TASKS_PER_WORKER
              (currentTasksOf workerTaskCounts (wp_data wp))); [reflexivity | lia].
Qed.

Lemma selectStep_eligible st wp :
  eligible wp ->
  selectStep workerTaskCounts task st wp
  = if Js.Rltb (bestScore st) (scoreOf wp)
    then mkBest (Some (wp_data wp)) (scoreOf wp) (distanceOf task wp)
    else st.
Proof.
  unfold eligible, selectStep. intros H.
  destruct (Nat.leb_spec MAX_TASKS_PER_WORKER
              (currentTasksOf workerTaskCounts (wp_data wp))); [lia | reflexivity].
Qed.

(** What the loop has established after a prefix of the candidates. *)
Definition selectInv (seen : list WorkerPoint) (st : Best) : Prop :=
  match bestWorker st with
  | None => bestScore st = -1 /\ forall wp, wp ∈ seen -> ~ eligible wp
  | Some w =>
      exists i wp,
        seen !! i = Some wp /\ wp_data wp = w /\ distanceOf task wp = bestDistance st
        /\ eligible wp /\ bestScore st = scoreOf wp
        /\ (forall j wp', seen !! j = Some wp' -> eligible wp' ->
              scoreOf wp' <= scoreOf wp)
        /\ (forall j wp', seen !! j = Some wp' -> (j < i)%nat -> eligible wp' ->
              scoreOf wp' < scoreOf wp)
  end.

Lemma selectInv_step seen st wp :
  selectInv seen st -> selectInv (seen ++ [wp]) (selectStep workerTaskCounts task st wp).
Proof.
  intros Hinv.
  destruct (decide (eligible wp)) as [He|Hne].
  2:{ rewrite selectStep_skip by exact Hne. unfold selectInv in *.
      destruct (bestWorker st) as [w|].
      - destruct Hinv as (i & wp0 & Hi & Hw & Hd & Hel & Hs & Hmax & Hfirst).
        exists i, wp0. split; [apply lookup_app_l_Some; exact Hi|].
        repeat split; try assumption.
        + intros j wp' Hj Hel'. apply lookup_app_Some in Hj as [Hj|[_ Hj]].
          * eapply Hmax; eassumption.
          * apply list_lookup_singleton_Some in Hj as [_ <-]. contradiction.
        + intros j wp' Hj Hlt Hel'. apply lookup_app_Some in Hj as [Hj|[_ Hj]].
          * eapply Hfirst; eassumption.
          * apply list_lookup_singleton_Some in Hj as [_ <-]. contradiction.
      - destruct Hinv as [Hs Hall]. split; [exact Hs|].
        intros wp' Hin. apply elem_of_app in Hin as [Hin|Hin]; [auto|].
        apply list_elem_of_singleton in Hin as ->. exact Hne. }
  rewrite selectStep_eligible by exact He.
  assert (Hpos := score_positive wp He).
  unfold selectInv in *.
  destruct (bestWorker st) as [w|] eqn:Hbw.
  - destruct Hinv as (i & wp0 & Hi & Hw & Hd & Hel & Hs & Hmax & Hfirst).
    destruct (Rlt_dec (bestScore st) (scoreOf wp)) as [Hlt|Hge].
    + rewrite Rltb_true by exact Hlt. cbn [bestWorker bestScore bestDistance].
      exists (length seen), wp.
      split; [apply list_lookup_middle; reflexivity|].
      repeat split; try assumption.
      * intros j wp' Hj Hel'. apply lookup_app_Some in Hj as [Hj|[_ Hj]].
        -- specialize (Hmax j wp' Hj Hel'). lra.
        -- apply list_lookup_singleton_Some in Hj as [_ <-]. lra.
      * intros j wp' Hj Hjlt Hel'. apply lookup_app_Some in Hj as [Hj|[Hge _]].
        -- specialize (Hmax j wp' Hj Hel'). lra.
        -- lia.
    + rewrite Rltb_false by exact Hge. rewrite Hbw.
      exists i, wp0. split; [apply lookup_app_l_Some; exact Hi|].
      repeat split; try assumption.
      * intros j wp' Hj Hel'. apply lookup_app_Some in Hj as [Hj|[_ Hj]].
        -- eapply Hmax; eassumption.
        -- apply list_lookup_singleton_Some in Hj as [_ <-]. lra.
      * intros j wp' Hj Hjlt Hel'. apply lookup_app_Some in Hj as [Hj|[Hge' Hj]].
        -- eapply Hfirst; eassumption.
        -- apply lookup_lt_Some in Hi. lia.
  - destruct Hinv as [Hs Hall].
    rewrite Rltb_true by lra. cbn [bestWorker bestScore bestDistance].
    exists (length seen), wp.
    split; [apply list_lookup_middle; reflexivity|].
    repeat split; try assumption.
    + intros j wp' Hj Hel'. apply lookup_app_Some in Hj as [Hj|[_ Hj]].
      * exfalso. eapply Hall; [eapply list_elem_of_lookup_2; exact Hj | exact Hel'].
      * apply list_lookup_singleton_Some in Hj as [_ <-]. lra.
    + intros j wp' Hj Hjlt Hel'. apply lookup_app_Some in Hj as [Hj|[Hge' _]].
      * exfalso. eapply Hall; [eapply list_elem_of_lookup_2; exact Hj | exact Hel'].
      * lia.
Qed.

Lemma selectInv_fold rest : forall seen st,
  selectInv seen st ->
  selectInv (seen ++ rest) (foldl (selectStep workerTaskCounts task) st rest).
Proof.
  induction rest as [|wp rest IH]; intros seen st Hinv.
  - rewrite app_nil_r. exact Hinv.
  - cbn [foldl]. replace (seen ++ wp :: rest) with ((seen ++ [wp]) ++ rest)
      by (rewrite <- app_assoc; reflexivity).
    apply IH, selectInv_step, Hinv.
Qed.

End Selection.


End ScorerFacts.

(** ** Circuit breaker *)

Module BreakerFacts.
Import Cache.

Definition withBreaker (w : World) (cb : CircuitBreaker) : World :=
  mkWorld (w_db w) (w_redis w) cb (w_tick w).

(** The breaker as the call sees it once both entry checks ran. *)
Definition onEntry (now : Z) (cb : CircuitBreaker) : CircuitBreaker :=
  probeIfDue now (tripIfNeeded now cb).

(** [executeWithCircuitBreaker], step by step. *)
Lemma execute_unfold {A} (operation : M A) env w :
  executeWithCircuitBreaker operation env w
  = let now := env_clock env (w_tick w) in
    let w1 := withBreaker (tick w) (onEntry now (w_breaker w)) in
    if stateEqb (cb_state (w_breaker w1)) OPEN
    then (Throw breakerOpenMessage, w1)
    else
      match operation env w1 with
      | (Ok a, w2) => (Ok a, withBreaker w2 (onCircuitBreakerSuccess (w_breaker w2)))
      | (Throw e, w2) =>
          (Throw e,
           withBreaker (tick w2)
             (onCircuitBreakerFailure (env_clock env (w_tick w2)) (w_breaker w2)))
      end.
Proof.
  unfold executeWithCircuitBreaker, bind, tryCatch, dateNow, modifyBreaker, getBreaker,
    throw, ret, withBreaker, onEntry. cbn.
  destruct (stateEqb _ OPEN); [reflexivity|].
  destruct (operation env _) as [[a|e] w2]; reflexivity.
Qed.

(** A Redis command leaves the breaker alone. *)
Lemma redisCmd_breaker {A} (f : gmap string RVal -> A * gmap string RVal) env w :
  w_breaker (snd (redisCmd f env w)) = w_breaker w.
Proof.
  unfold redisCmd. destruct (env_fails env (w_tick w)); [reflexivity|].
  destruct (f (w_redis w)); reflexivity.
Qed.

Lemma onEntry_cases now cb :
  onEntry now cb =
    match cb_state cb with
    | CLOSED =>
        if (failureThreshold <=? cb_failures cb)%nat
        then mkBreaker (cb_failures cb) now OPEN else cb
    | OPEN =>
        if recoveryTimeout <? now - cb_lastFailure cb
        then mkBreaker (cb_failures cb) (cb_lastFailure cb) HALF_OPEN else cb
    | HALF_OPEN => cb
    end.
Proof.
  unfold onEntry, tripIfNeeded, probeIfDue.
  destruct cb as [n t []]; cbn -[Nat.leb Z.ltb Z.sub].
  - destruct (failureThreshold <=? n)%nat; cbn -[Nat.leb Z.ltb Z.sub]; [|reflexivity].
    replace (now - now) with 0 by lia. reflexivity.
  - destruct (recoveryTimeout <? now - t); reflexivity.
  - reflexivity.
Qed.

(** A wrapped Redis command, in closed form. *)
Lemma execute_redis {A} (f : gmap string RVal -> A * gmap string RVal) env w :
  executeWithCircuitBreaker (redisCmd f) env w
  = let cb1 := onEntry (env_clock env (w_tick w)) (w_breaker w) in
    if stateEqb (cb_state cb1) OPEN
    then (Throw breakerOpenMessage, mkWorld (w_db w) (w_redis w) cb1 (S (w_tick w)))
    else if env_fails env (S (w_tick w))
    then (Throw "Redis connection error",
          mkWorld (w_db w) (w_redis w)
            (onCircuitBreakerFailure (env_clock env (S (S (w_tick w)))) cb1)
            (S (S (S (w_tick w)))))
    else (Ok (fst (f (w_redis w))),
          mkWorld (w_db w) (snd (f (w_redis w))) (onCircuitBreakerSuccess cb1)
                  (S (S (w_tick w)))).
Proof.
  rewrite execute_unfold. cbv zeta. unfold withBreaker, tick, redisCmd.
  cbn [w_breaker w_db w_redis w_tick].
  destruct (stateEqb _ OPEN); [reflexivity|].
  destruct (env_fails env (S (w_tick w))); [reflexivity|].
  destruct (f (w_redis w)); reflexivity.
Qed.

(** One wrapped command whose failure is swallowed, and [n] of them in a
    row. *)
Definition attempt {A} (f : gmap string RVal -> A * gmap string RVal) : M unit :=
  tryCatch (executeWithCircuitBreaker (redisCmd f) ;; ret tt) (fun _ => ret tt).

Fixpoint attempts {A} (n : nat) (f : gmap string RVal -> A * gmap string RVal) : M unit :=
  match n with
  | O => ret tt
  | S n' => attempt f ;; attempts n' f
  end.

Ltac breaker_cases w :=
  rewrite execute_redis; cbv zeta; rewrite onEntry_cases;
  destruct w as [?db ?r [?n ?t ?s] ?k];
  cbn [w_breaker w_db w_redis w_tick cb_state cb_failures cb_lastFailure] in *.




End BreakerFacts.

(** ** Versioned cache writes *)

Module VersionFacts.
Import Cache.

(** The version Redis holds for a key, as [getCacheVersion] reads it. *)
Definition storedVersion (r : gmap string RVal) (key : string) : Z :=
  match r !! versionKey key with
  | Some v => if rvalTruthy v then parseInt v else 0
  | None => 0
  end.

(** An environment in which every Redis command succeeds. *)
Definition reachable (clock : nat -> Z) (concurrent : list Task -> list Task) : Env :=
  mkEnv (fun _ => false) clock concurrent.

Definition withRedis (w : World) (r : gmap string RVal) (ticks : nat) : World :=
  mkWorld (w_db w) r (w_breaker w) (ticks + w_tick w).

Lemma getCacheVersion_reachable clock concurrent key w :
  getCacheVersion key (reachable clock concurrent) w
  = (Ok (storedVersion (w_redis w) key), withRedis w (w_redis w) 1).
Proof.
  unfold getCacheVersion, tryCatch, bind, redis_get, redisCmd, storedVersion. cbn.
  destruct (w_redis w !! versionKey key) as [v|]; [|reflexivity].
  destruct (rvalTruthy v); reflexivity.
Qed.

(** [syncCacheWithVersion] over a reachable Redis, in closed form. *)
Lemma sync_reachable clock concurrent key data version w :
  syncCacheWithVersion key data version (reachable clock concurrent) w
  = if versionConflict (storedVersion (w_redis w) key) version
    then (Ok false, withRedis w (w_redis w) 1)
    else (Ok true,
          withRedis w (<[versionKey key := VVersion version]> (<[key := data]> (w_redis w))) 4).
Proof.
  unfold syncCacheWithVersion, updateCacheWithVersion, tryCatch, bind.
  rewrite getCacheVersion_reachable.
  destruct (versionConflict (storedVersion (w_redis w) key) version) eqn:E;
    [reflexivity|].
  rewrite getCacheVersion_reachable. cbn [w_redis withRedis]. rewrite E.
  reflexivity.
Qed.

Lemma versionConflict_false cur version :
  versionConflict cur version = false <-> cur = 0 \/ cur < version.
Proof.
  unfold versionConflict. rewrite andb_false_iff, negb_false_iff, Z.eqb_eq, Z.leb_gt.
  reflexivity.
Qed.

Lemma storedVersion_after_write r key data version :
  storedVersion (<[versionKey key := VVersion version]> (<[key := data]> r)) key = version.
Proof. unfold storedVersion. rewrite lookup_insert_eq. reflexivity. Qed.








End VersionFacts.

(** ** Spatial index *)

Module SpatialFacts.
Import SpatialIndex.
Local Open Scope R_scope.

(** *** Real-number facts the haversine formula needs *)

Lemma Rleb_true x y : x <= y -> Js.Rleb x y = true.
Proof. intros H. unfold Js.Rleb. destruct (Rle_dec x y); [reflexivity | contradiction]. Qed.

Lemma Rleb_spec x y : Js.Rleb x y = true <-> x <= y.
Proof. unfold Js.Rleb. destruct (Rle_dec x y); split; auto; discriminate. Qed.

Lemma truthy_spec (v : option R) :
  Js.truthy v = true <-> exists r, v = Some r /\ r <> 0.
Proof.
  unfold Js.truthy, Js.Reqb. destruct v as [r|].
  - destruct (Req_dec_T r 0); cbn; split.
    + discriminate.
    + intros (r' & [= <-] & Hr). contradiction.
    + intros _. eauto.
    + reflexivity.
  - split; [discriminate | intros (r & H & _); discriminate].
Qed.

Lemma truthy_zero : Js.truthy (Some 0) = false.
Proof.
  apply not_true_is_false. rewrite truthy_spec. intros (r & [= <-] & H). lra.
Qed.

Lemma sin_lower (b : R) : 0 <= b -> b <= PI -> b - b ^ 3 / 6 <= sin b.
Proof.
  intros H0 H1. destruct (sin_bound b 0 H0 H1) as [H _].
  unfold sin_approx, sin_term in H. simpl in H. lra.
Qed.

Lemma atan2_pos_x y x : 0 < x -> Js.atan2 y x = atan (y / x).
Proof. intros H. unfold Js.atan2. destruct (Rlt_dec 0 x); [reflexivity | contradiction]. Qed.

Lemma sqrt_ge_self u : 0 <= u <= 1 -> u <= sqrt u.
Proof.
  intros [H0 H1]. assert (Hs := sqrt_pos u).
  assert (Hsq : sqrt u * sqrt u = u) by (apply sqrt_sqrt; exact H0).
  destruct (Rle_dec u (sqrt u)) as [|Hn]; [assumption|].
  apply Rnot_le_lt in Hn. nra.
Qed.

(** [atan t < b] as soon as [t] is below the cubic lower bound of [sin b]. *)
Lemma atan_below (t b : R) : 0 < b <= 1 -> t < b - b ^ 3 / 6 -> atan t < b.
Proof.
  intros [Hb0 Hb1] Ht.
  assert (HPI := PI2_3_2).
  assert (Hsin := sin_lower b ltac:(lra) ltac:(lra)).
  assert (Hcos0 : 0 < cos b) by (apply cos_gt_0; lra).
  assert (Hcos1 := COS_bound b).
  assert (Hsin0 : 0 < sin b) by (apply sin_gt_0; lra).
  assert (Htan : sin b <= tan b).
  { unfold tan. apply (Rmult_le_reg_r (cos b)); [exact Hcos0|].
    unfold Rdiv. rewrite Rmult_assoc, Rinv_l by lra. nra. }
  rewrite <- (atan_tan b) by lra.
  apply atan_increasing. lra.
Qed.

(** Two points on the 60th parallel, up to 0.115 degrees of longitude
    apart, are less than 10 km from each other (and not at distance 0). *)
Lemma haversine_lat60 (lon d : R) :
  0 < d <= 0.115 ->
  0 < haversineDistance 60 lon 60 (lon + d) <= 10.
Proof.
  intros [Hd0 Hd1]. unfold haversineDistance. cbv zeta.
  assert (HPI : 3 < PI <= 4) by (split; [generalize PI2_3_2; lra | apply PI_4]).
  replace ((60 - 60) * PI / 180 / 2) with 0 by lra.
  replace ((lon + d - lon) * PI / 180 / 2) with (d * PI / 360) by lra.
  replace (60 * PI / 180) with (PI / 3) by lra.
  rewrite sin_0, cos_PI3.
  set (h := d * PI / 360).
  assert (Hh : 0 < h <= 0.0013) by (unfold h; nra).
  assert (Hs0 : 0 < sin h) by (apply sin_gt_0; lra).
  assert (Hs1 : sin h < h) by (apply sin_lt_x; lra).
  set (s := sin h) in *.
  replace (0 ^ 2 + 1 / 2 * (1 / 2) * s ^ 2) with ((s / 2) ^ 2) by lra.
  rewrite sqrt_pow2 by lra.
  assert (Ha : 0 < (s / 2) ^ 2 < 0.000001) by nra.
  set (a := (s / 2) ^ 2) in *.
  assert (Hx : 1 - a <= sqrt (1 - a)) by (apply sqrt_ge_self; lra).
  assert (Hx1 : sqrt (1 - a) <= 1).
  { rewrite <- sqrt_1 at 2. apply sqrt_le_1_alt. lra. }
  set (x := sqrt (1 - a)) in *.
  rewrite atan2_pos_x by lra.
  assert (Ht0 : 0 < s / 2 / x) by (apply Rdiv_lt_0_compat; lra).
  assert (Ht1 : s / 2 / x < 0.00066).
  { apply (Rmult_lt_reg_r x); [lra|].
    unfold Rdiv at 1. rewrite Rmult_assoc, Rinv_l by lra. nra. }
  split.
  - assert (0 < atan (s / 2 / x))
      by (rewrite <- atan_0; apply atan_increasing; exact Ht0).
    lra.
  - assert (atan (s / 2 / x) < 5 / 6371); [|lra].
    apply atan_below; [lra|].
    assert (5 / 6371 > 0.00078) by lra.
    assert ((5 / 6371) ^ 3 < 0.000001) by nra.
    lra.
Qed.

(** A point is at distance 0 from itself. *)
Lemma haversine_self (lat lon : R) : haversineDistance lat lon lat lon = 0.
Proof.
  unfold haversineDistance. cbv zeta.
  replace ((lat - lat) * PI / 180 / 2) with 0 by lra.
  replace ((lon - lon) * PI / 180 / 2) with 0 by lra.
  rewrite sin_0.
  replace (0 ^ 2 + cos (lat * PI / 180) * cos (lat * PI / 180) * 0 ^ 2) with 0 by lra.
  rewrite Rminus_0_r, sqrt_0, sqrt_1, atan2_pos_x by lra.
  replace (0 / 1) with 0 by lra. rewrite atan_0. lra.
Qed.

(** *** Search cells *)

Lemma elem_of_offsets (g o : Z) : o ∈ offsets g <-> (- g <= o <= g)%Z.
Proof. unfold offsets. rewrite elem_of_seqZ. lia. Qed.

Lemma elem_of_cells (c1 c2 : Z) (l1 l2 : list Z) (ka kb : Z) :
  (ka, kb) ∈ flat_map (fun a => map (fun b => (c1 + a, c2 + b)%Z) l2) l1
  <-> (ka - c1)%Z ∈ l1 /\ (kb - c2)%Z ∈ l2.
Proof.
  rewrite list_elem_of_In, in_flat_map. split.
  - intros (a & Ha & Hin). apply in_map_iff in Hin as (b & [= <- <-] & Hb).
    rewrite !list_elem_of_In.
    replace (c1 + a - c1)%Z with a by lia. replace (c2 + b - c2)%Z with b by lia.
    auto.
  - intros [Ha Hb]. exists (ka - c1)%Z. rewrite <- list_elem_of_In. split; [exact Ha|].
    apply in_map_iff. exists (kb - c2)%Z. rewrite <- list_elem_of_In.
    split; [f_equal; lia | exact Hb].
Qed.

Lemma elem_of_getSearchCells lat lon radius (ka kb : Z) :
  (ka, kb) ∈ getSearchCells lat lon radius
  <-> (- Zceil (radius / GRID_SIZE) <= ka - Zfloor (lat / GRID_SIZE)
       <= Zceil (radius / GRID_SIZE))%Z
      /\ (- Zceil (radius / GRID_SIZE) <= kb - Zfloor (lon / GRID_SIZE)
          <= Zceil (radius / GRID_SIZE))%Z.
Proof. unfold getSearchCells. rewrite elem_of_cells, !elem_of_offsets. reflexivity. Qed.

Lemma NoDup_cells (c1 c2 : Z) (l1 l2 : list Z) :
  NoDup l1 -> NoDup l2 ->
  NoDup (flat_map (fun a => map (fun b => (c1 + a, c2 + b)%Z) l2) l1).
Proof.
  intros H1 H2. induction H1 as [|a l1 Hnotin _ IH]; [constructor|].
  cbn [flat_map]. apply NoDup_app. split; [|split; [|exact IH]].
  - assert (Hinj : Inj (=) (=) (fun b => (c1 + a, c2 + b)%Z))
      by (intros b b' [= ?]; lia).
    apply (NoDup_fmap_2 (fun b => (c1 + a, c2 + b)%Z)). exact H2.
  - intros [ka kb] Hin Hin'.
    apply list_elem_of_In, in_map_iff in Hin as (b & [= <- <-] & _).
    apply elem_of_cells in Hin' as [Ha _]. apply Hnotin.
    replace (c1 + a - c1)%Z with a in Ha by lia. exact Ha.
Qed.

Lemma NoDup_getSearchCells lat lon radius : NoDup (getSearchCells lat lon radius).
Proof. apply NoDup_cells; apply NoDup_seqZ. Qed.

(** *** What the index holds *)

Lemma buildSpatialIndex_snoc workers w :
  buildSpatialIndex (workers ++ [w]) = indexWorker (buildSpatialIndex workers) w.
Proof. unfold buildSpatialIndex. apply foldl_snoc. Qed.

(** Every indexed point comes from a worker of the list with both
    coordinates non-zero, and sits in the bucket of its own cell. *)
Lemma index_invariant workers :
  forall key bucket p,
    buildSpatialIndex workers !! key = Some bucket -> p ∈ bucket ->
    pt_data p ∈ workers
    /\ pt_id p = user_id (pt_data p)
    /\ user_lat (pt_data p) = Some (pt_lat p)
    /\ user_lon (pt_data p) = Some (pt_lon p)
    /\ pt_lat p <> 0 /\ pt_lon p <> 0
    /\ getGridKey (pt_lat p) (pt_lon p) = key.
Proof.
  induction workers as [|w workers IH] using rev_ind; intros key bucket p Hlook Hin.
  - unfold buildSpatialIndex in Hlook. cbn [foldl] in Hlook.
    rewrite lookup_empty in Hlook. discriminate.
  - rewrite buildSpatialIndex_snoc in Hlook. unfold indexWorker in Hlook.
    assert (Hold : forall key bucket,
              buildSpatialIndex workers !! key = Some bucket -> p ∈ bucket ->
              pt_data p ∈ workers ++ [w]
              /\ pt_id p = user_id (pt_data p)
              /\ user_lat (pt_data p) = Some (pt_lat p)
              /\ user_lon (pt_data p) = Some (pt_lon p)
              /\ pt_lat p <> 0 /\ pt_lon p <> 0
              /\ getGridKey (pt_lat p) (pt_lon p) = key).
    { intros k b Hk Hp. destruct (IH k b p Hk Hp) as (H1 & H2).
      split; [apply elem_of_app; left; exact H1 | exact H2]. }
    destruct (user_lat w) as [lat|] eqn:Elat; [|eapply Hold; eassumption].
    destruct (user_lon w) as [lon|] eqn:Elon; [|eapply Hold; eassumption].
    destruct (Js.truthy (Some lat)) eqn:Tlat; [|eapply Hold; eassumption].
    destruct (Js.truthy (Some lon)) eqn:Tlon; [|eapply Hold; eassumption].
    cbn [andb] in Hlook.
    destruct (decide (getGridKey lat lon = key)) as [Hk|Hk].
    + subst key. rewrite lookup_insert_eq in Hlook. injection Hlook as <-.
      apply elem_of_app in Hin as [Hin|Hin].
      * destruct (buildSpatialIndex workers !! getGridKey lat lon) as [b|] eqn:Eb.
        -- eapply Hold; eassumption.
        -- cbn in Hin. inversion Hin.
      * apply list_elem_of_singleton in Hin as ->. cbn.
        apply truthy_spec in Tlat as (r1 & [= <-] & Hr1).
        apply truthy_spec in Tlon as (r2 & [= <-] & Hr2).
        split; [apply elem_of_app; right; left|]. auto 10.
    + rewrite lookup_insert_ne in Hlook by exact Hk. eapply Hold; eassumption.
Qed.

Lemma elem_of_findNearbyWorkers idx lat lon radiusKm p :
  p ∈ findNearbyWorkers idx lat lon radiusKm
  <-> exists key bucket,
        key ∈ getSearchCells lat lon (radiusKm / 111)
        /\ idx !! key = Some bucket /\ p ∈ bucket
        /\ haversineDistance lat lon (pt_lat p) (pt_lon p) <= radiusKm.
Proof.
  unfold findNearbyWorkers. rewrite list_elem_of_In, in_flat_map. split.
  - intros (key & Hkey & Hin). apply filter_In in Hin as [Hin Hw].
    destruct (idx !! key) as [bucket|] eqn:E; [|inversion Hin].
    exists key, bucket. rewrite !list_elem_of_In.
    repeat split; auto. apply Rleb_spec. exact Hw.
  - intros (key & bucket & Hkey & E & Hin & Hd).
    exists key. rewrite <- list_elem_of_In. split; [exact Hkey|].
    apply filter_In. rewrite E. cbn. rewrite <- list_elem_of_In.
    split; [exact Hin | apply Rleb_spec; exact Hd].
Qed.

(** The half of C4 that holds: whatever the query returns is indexed, lies
    in a searched cell and passed the exact-distance filter. *)
Lemma findNearbyWorkers_sound workers lat lon radiusKm p :
  p ∈ findNearbyWorkers (buildSpatialIndex workers) lat lon radiusKm ->
  pt_data p ∈ workers
  /\ haversineDistance lat lon (pt_lat p) (pt_lon p) <= radiusKm
  /\ Js.truthy (user_lat (pt_data p)) = true
  /\ Js.truthy (user_lon (pt_data p)) = true.
Proof.
  intros Hin. apply elem_of_findNearbyWorkers in Hin as (key & bucket & _ & E & Hp & Hd).
  destruct (index_invariant workers key bucket p E Hp)
    as (Hw & _ & Hlat & Hlon & Hnz1 & Hnz2 & _).
  split; [exact Hw|]. split; [exact Hd|].
  rewrite Hlat, Hlon. split; apply truthy_spec; eauto.
Qed.

(** *** An index with one worker *)

Lemma buildSpatialIndex_single w lat lon :
  user_lat w = Some lat -> user_lon w = Some lon -> lat <> 0 -> lon <> 0 ->
  buildSpatialIndex [w]
  = <[getGridKey lat lon := [mkPoint (user_id w) lat lon w]]> ∅.
Proof.
  intros Elat Elon Hlat Hlon. unfold buildSpatialIndex. cbn [foldl].
  unfold indexWorker. rewrite Elat, Elon.
  assert (T1 : Js.truthy (Some lat) = true) by (apply truthy_spec; eauto).
  assert (T2 : Js.truthy (Some lon) = true) by (apply truthy_spec; eauto).
  rewrite T1, T2. cbn [andb]. rewrite lookup_empty. reflexivity.
Qed.

Lemma flat_map_all_nil {A B} (f : A -> list B) (l : list A) :
  (forall x, x ∈ l -> f x = []) -> flat_map f l = [].
Proof.
  induction l as [|x l IH]; intros H; [reflexivity|].
  cbn [flat_map]. rewrite (H x) by left. cbn. apply IH. intros y Hy. apply H. right. exact Hy.
Qed.

Lemma flat_map_only {A B} (f : A -> list B) (l : list A) (x0 : A) :
  NoDup l -> x0 ∈ l -> (forall x, x ∈ l -> x <> x0 -> f x = []) ->
  flat_map f l = f x0.
Proof.
  induction 1 as [|x l Hnotin Hnd IH]; intros Hin Hnil; [inversion Hin|].
  cbn [flat_map]. apply elem_of_cons in Hin as [<-|Hin].
  - rewrite flat_map_all_nil; [apply app_nil_r|].
    intros y Hy. apply Hnil; [right; exact Hy|]. intros ->. contradiction.
  - rewrite (Hnil x); [|left|intros ->; contradiction]. cbn.
    apply IH; [exact Hin|]. intros y Hy. apply Hnil. right. exact Hy.
Qed.

(** The only worker is found when its cell is searched and it is within the
    radius... *)
Lemma findNearbyWorkers_single_hit w wlat wlon lat lon radiusKm :
  user_lat w = Some wlat -> user_lon w = Some wlon -> wlat <> 0 -> wlon <> 0 ->
  getGridKey wlat wlon ∈ getSearchCells lat lon (radiusKm / 111) ->
  haversineDistance lat lon wlat wlon <= radiusKm ->
  findNearbyWorkers (buildSpatialIndex [w]) lat lon radiusKm
  = [mkPoint (user_id w) wlat wlon w].
Proof.
  intros Elat Elon Hlat Hlon Hcell Hd.
  rewrite (buildSpatialIndex_single w wlat wlon) by assumption.
  unfold findNearbyWorkers.
  rewrite (flat_map_only _ _ (getGridKey wlat wlon)).
  - rewrite lookup_insert_eq. cbn. unfold withinRadius. cbn.
    rewrite Rleb_true by exact Hd. reflexivity.
  - apply NoDup_getSearchCells.
  - exact Hcell.
  - intros key _ Hne. rewrite lookup_insert_ne by congruence.
    rewrite lookup_empty. reflexivity.
Qed.

(** ... and is missed when its cell is not searched. *)
Lemma findNearbyWorkers_single_miss w wlat wlon lat lon radiusKm :
  user_lat w = Some wlat -> user_lon w = Some wlon -> wlat <> 0 -> wlon <> 0 ->
  getGridKey wlat wlon ∉ getSearchCells lat lon (radiusKm / 111) ->
  findNearbyWorkers (buildSpatialIndex [w]) lat lon radiusKm = [].
Proof.
  intros Elat Elon Hlat Hlon Hcell.
  rewrite (buildSpatialIndex_single w wlat wlon) by assumption.
  unfold findNearbyWorkers. apply flat_map_all_nil.
  intros key Hkey. rewrite lookup_insert_ne; [rewrite lookup_empty; reflexivity|].
  intros <-. contradiction.
Qed.

(** *** A worker the query misses *)

Definition northernWorker : User :=
  mkUser "w1" (Some 60) (Some 10.115) "WORKER" true.

(** C4 fails on the code.  A worker at (60N, 10.115E) is indexed, in cell
    (6000, 1011), and lies less than 10 km from the query point
    (60N, 10E); the query with radius 10 km searches longitude cells 990
    to 1010 only and returns nothing. *)
Theorem query_misses_worker_within_radius :
  buildSpatialIndex [northernWorker] !! (6000, 1011)%Z
    = Some [mkPoint "w1" 60 10.115 northernWorker]
  /\ haversineDistance 60 10 60 10.115 <= 10
  /\ findNearbyWorkers (buildSpatialIndex [northernWorker]) 60 10 10 = [].
Proof.
  assert (Hkey : getGridKey 60 10.115 = (6000, 1011)%Z).
  { unfold getGridKey, GRID_SIZE. f_equal; apply Zfloor_eq; lra. }
  split; [|split].
  - rewrite (buildSpatialIndex_single northernWorker 60 10.115);
      [|reflexivity|reflexivity|lra|lra].
    rewrite Hkey. apply lookup_insert_eq.
  - replace 10.115 with (10 + 0.115) by lra. apply haversine_lat60. lra.
  - apply (findNearbyWorkers_single_miss northernWorker 60 10.115);
      [reflexivity|reflexivity|lra|lra|].
    rewrite Hkey, elem_of_getSearchCells. unfold GRID_SIZE.
    assert (Zceil (10 / 111 / 0.01) = 10%Z) as -> by (apply Zceil_eq; lra).
    assert (Zfloor (10 / 0.01) = 1000%Z) as -> by (apply Zfloor_eq; lra).
    lia.
Qed.

End SpatialFacts.

(** ** Cache traffic never reaches the store or the caller *)

Module CacheFacts.
Import Store Allocation Cache Engine.

(** A computation that leaves the store as it found it, whatever happens. *)
Definition storeNeutral {A} (m : M A) : Prop :=
  forall env w, w_db (snd (m env w)) = w_db w.

(** A computation that, besides, never throws. *)
Definition quiet {A} (m : M A) : Prop :=
  forall env w, exists a w', m env w = (Ok a, w') /\ w_db w' = w_db w.

Lemma quiet_neutral {A} (m : M A) : quiet m -> storeNeutral m.
Proof. intros H env w. destruct (H env w) as (a & w' & -> & Hdb). exact Hdb. Qed.

Lemma neutral_ret {A} (a : A) : storeNeutral (ret a).
Proof. intros env w. reflexivity. Qed.

Lemma neutral_throw {A} (e : string) : storeNeutral (@throw A e).
Proof. intros env w. reflexivity. Qed.

Lemma neutral_dateNow : storeNeutral dateNow.
Proof. intros env w. reflexivity. Qed.

Lemma neutral_getDB : storeNeutral getDB.
Proof. intros env w. reflexivity. Qed.

Lemma neutral_getBreaker : storeNeutral getBreaker.
Proof. intros env w. reflexivity. Qed.

Lemma neutral_modifyBreaker f : storeNeutral (modifyBreaker f).
Proof. intros env w. reflexivity. Qed.

Lemma neutral_redisCmd {A} (f : gmap string RVal -> A * gmap string RVal) :
  storeNeutral (redisCmd f).
Proof.
  intros env w. unfold redisCmd. destruct (env_fails env (w_tick w)); [reflexivity|].
  destruct (f (w_redis w)); reflexivity.
Qed.

Lemma neutral_bind {A B} (m : M A) (k : A -> M B) :
  storeNeutral m -> (forall a, storeNeutral (k a)) -> storeNeutral (bind m k).
Proof.
  intros Hm Hk env w. unfold bind. specialize (Hm env w).
  destruct (m env w) as [[a|e] w1]; cbn [snd] in *; [|exact Hm].
  rewrite <- Hm. apply Hk.
Qed.

Lemma neutral_tryCatch {A} (m : M A) (h : string -> M A) :
  storeNeutral m -> (forall e, storeNeutral (h e)) -> storeNeutral (tryCatch m h).
Proof.
  intros Hm Hh env w. unfold tryCatch. specialize (Hm env w).
  destruct (m env w) as [[a|e] w1]; cbn [snd] in *; [exact Hm|].
  rewrite <- Hm. apply Hh.
Qed.

Lemma neutral_forEachM {A} (l : list A) (f : A -> M unit) :
  (forall x, storeNeutral (f x)) -> storeNeutral (forEachM l f).
Proof.
  intros Hf. induction l as [|x l IH]; [apply neutral_ret|].
  cbn [forEachM]. apply neutral_bind; [apply Hf | intros _; exact IH].
Qed.

Lemma quiet_ret {A} (a : A) : quiet (ret a).
Proof. intros env w. exists a, w. split; reflexivity. Qed.

Lemma quiet_bind {A B} (m : M A) (k : A -> M B) :
  quiet m -> (forall a, quiet (k a)) -> quiet (bind m k).
Proof.
  intros Hm Hk env w. unfold bind.
  destruct (Hm env w) as (a & w1 & -> & Hdb1).
  destruct (Hk a env w1) as (b & w2 & -> & Hdb2).
  exists b, w2. split; [reflexivity | congruence].
Qed.

(** A [try] whose handler is quiet is quiet, if its body leaves the store
    alone. *)
Lemma quiet_tryCatch {A} (m : M A) (h : string -> M A) :
  storeNeutral m -> (forall e, quiet (h e)) -> quiet (tryCatch m h).
Proof.
  intros Hm Hh env w. unfold tryCatch. specialize (Hm env w).
  destruct (m env w) as [[a|e] w1]; cbn [snd] in *.
  - exists a, w1. split; [reflexivity | exact Hm].
  - destruct (Hh e env w1) as (b & w2 & -> & Hdb2).
    exists b, w2. split; [reflexivity | congruence].
Qed.

Create HintDb neutral discriminated.

Ltac neutral_step :=
  first
    [ apply neutral_ret | apply neutral_throw | apply neutral_dateNow
    | apply neutral_getDB | apply neutral_getBreaker | apply neutral_modifyBreaker
    | apply neutral_redisCmd
    | solve [auto with neutral]
    | apply neutral_bind; [|intros ?]
    | apply neutral_tryCatch; [|intros ?]
    | apply neutral_forEachM; intros ?
    | match goal with
      | |- storeNeutral (match ?x with _ => _ end) => destruct x
      end ].

Ltac neutral := repeat neutral_step.

Lemma neutral_execute {A} (operation : M A) :
  storeNeutral operation -> storeNeutral (executeWithCircuitBreaker operation).
Proof. intros H. unfold executeWithCircuitBreaker. neutral. Qed.
#[local] Hint Resolve neutral_execute : neutral.

Lemma neutral_redis_get key : storeNeutral (redis_get key).
Proof. apply neutral_redisCmd. Qed.
Lemma neutral_redis_setex key ttl v : storeNeutral (redis_setex key ttl v).
Proof. apply neutral_redisCmd. Qed.
Lemma neutral_redis_set key v : storeNeutral (redis_set key v).
Proof. apply neutral_redisCmd. Qed.
Lemma neutral_redis_del keys : storeNeutral (redis_del keys).
Proof. apply neutral_redisCmd. Qed.
Lemma neutral_getKeysByPattern pattern : storeNeutral (getKeysByPattern pattern).
Proof. apply neutral_redisCmd. Qed.
#[local] Hint Resolve neutral_redis_get neutral_redis_setex neutral_redis_set
  neutral_redis_del neutral_getKeysByPattern : neutral.

Lemma neutral_set key v ttl : storeNeutral (set key v ttl).
Proof. unfold set. neutral. Qed.

Lemma quiet_get key : quiet (get key).
Proof. unfold get. apply quiet_tryCatch; [neutral | intros; apply quiet_ret]. Qed.
#[local] Hint Resolve neutral_set : neutral.

Lemma neutral_get key : storeNeutral (get key).
Proof. apply quiet_neutral, quiet_get. Qed.
#[local] Hint Resolve neutral_get : neutral.

Lemma neutral_invalidateWorkerTaskCache workerId :
  storeNeutral (invalidateWorkerTaskCache workerId).
Proof. unfold invalidateWorkerTaskCache. cbn [foldl]. neutral. Qed.
#[local] Hint Resolve neutral_invalidateWorkerTaskCache : neutral.

Lemma neutral_getWorkerTaskSummaryCached workerId :
  storeNeutral (getWorkerTaskSummaryCached workerId).
Proof. unfold getWorkerTaskSummaryCached. neutral. Qed.
#[local] Hint Resolve neutral_getWorkerTaskSummaryCached : neutral.

Lemma neutral_updateWorkerTaskSummaryCacheBulk workerId n :
  storeNeutral (updateWorkerTaskSummaryCacheBulk workerId n).
Proof. unfold updateWorkerTaskSummaryCacheBulk. neutral. Qed.

Lemma neutral_updateWorkerTaskSummaryCache workerId o n :
  storeNeutral (updateWorkerTaskSummaryCache workerId o n).
Proof. unfold updateWorkerTaskSummaryCache. neutral. Qed.
#[local] Hint Resolve neutral_updateWorkerTaskSummaryCacheBulk
  neutral_updateWorkerTaskSummaryCache : neutral.

(** [invalidateWorkerCaches] swallows every cache failure. *)
Lemma quiet_invalidateWorkerCaches workerIds counts :
  quiet (invalidateWorkerCaches workerIds counts).
Proof.
  unfold invalidateWorkerCaches.
  apply quiet_tryCatch; [neutral | intros; apply quiet_ret].
Qed.

Lemma quiet_cacheWorkersWithSpatialIndex workers :
  quiet (cacheWorkersWithSpatialIndex workers).
Proof.
  unfold cacheWorkersWithSpatialIndex.
  apply quiet_tryCatch; [neutral | intros; apply quiet_ret].
Qed.

Lemma quiet_cacheSpatialIndexStats stats ts : quiet (cacheSpatialIndexStats stats ts).
Proof.
  unfold cacheSpatialIndexStats.
  apply quiet_tryCatch; [neutral | intros; apply quiet_ret].
Qed.

Lemma quiet_getCacheVersion key : quiet (getCacheVersion key).
Proof.
  unfold getCacheVersion.
  apply quiet_tryCatch; [neutral | intros; apply quiet_ret].
Qed.

Lemma neutral_getCacheVersion key : storeNeutral (getCacheVersion key).
Proof. apply quiet_neutral, quiet_getCacheVersion. Qed.
#[local] Hint Resolve neutral_getCacheVersion : neutral.

Lemma neutral_setCacheVersion key v : storeNeutral (setCacheVersion key v).
Proof. unfold setCacheVersion. neutral. Qed.
#[local] Hint Resolve neutral_setCacheVersion : neutral.

Lemma neutral_updateCacheWithVersion key data v :
  storeNeutral (updateCacheWithVersion key data v).
Proof. unfold updateCacheWithVersion. neutral. Qed.
#[local] Hint Resolve neutral_updateCacheWithVersion : neutral.

Lemma quiet_syncCacheWithVersion key data v : quiet (syncCacheWithVersion key data v).
Proof.
  unfold syncCacheWithVersion.
  apply quiet_tryCatch; [neutral | intros; apply quiet_ret].
Qed.

Lemma quiet_cacheAllocationResults results ts : quiet (cacheAllocationResults results ts).
Proof.
  unfold cacheAllocationResults.
  apply quiet_tryCatch; [neutral | intros; apply quiet_ret].
Qed.

End CacheFacts.

(** ** The allocation run *)

Module EngineFacts.
Import SpatialIndex Store Allocation Cache Engine CacheFacts.

(** The run without its cache traffic: what [allocateTasksOptimized] returns
    and the task table it leaves, from the store it starts on, what other
    writers do before the commit, and the time of the commit. *)
Definition runOutcome (concurrent : list Task -> list Task) (now : Z)
    (batchSize : nat) (db : DB) : AllocationResult * list Task :=
  let tasks := findPendingGeocoded db batchSize in
  let workers := getWorkers db in
  if (length tasks =? 0)%nat || (length workers =? 0)%nat then
    (NoTasksOrWorkers (length tasks) 0 (length tasks), db_tasks db)
  else
    let idx := buildSpatialIndex workers in
    let workerTaskCounts := getWorkerTaskCountsBatch db (map user_id workers) in
    let proposed := proposeAll idx workerTaskCounts tasks in
    let committed :=
      bulkUpdateTaskAllocations now (fst proposed) (concurrent (db_tasks db)) in
    let rc :=
      if (0 <? length (fst proposed))%nat
      then reconcile (fst proposed) (fst committed) (snd proposed) workerTaskCounts
      else mkReconciled [] 0 (snd proposed) workerTaskCounts [] in
    (Completed
       (mkMetrics (length tasks) (rc_allocated rc) (rc_failed rc)
          (length (rc_affected rc))
          (successRateOf (rc_allocated rc) (length tasks))
          (calculateAverageDistance
             (if (0 <? length (rc_successful rc))%nat then rc_successful rc
              else fst proposed))
          (calculateWorkerUtilization workers (rc_counts rc))),
     if (0 <? length (fst proposed))%nat then snd committed else db_tasks db).

Lemma commitAllocations_run allocations env w :
  commitAllocations allocations env w
  = let committed :=
      bulkUpdateTaskAllocations (env_clock env (w_tick w)) allocations
        (env_concurrent env (db_tasks (w_db w))) in
    (Ok (fst committed),
     mkWorld (mkDB (snd committed) (db_users (w_db w))) (w_redis w) (w_breaker w)
             (S (w_tick w))).
Proof.
  unfold commitAllocations, tryCatch, bind, yieldToOtherWriters, dateNow, getDB, setTasks,
    ret, tick. cbn [w_db w_redis w_breaker w_tick db_tasks db_users].
  destruct (bulkUpdateTaskAllocations _ _ _) as [ids rows]. reflexivity.
Qed.

Ltac run_quiet lem :=
  let a := fresh "a" in let w' := fresh "w" in
  let E := fresh "E" in let D := fresh "D" in let H := fresh "H" in
  match goal with
  | |- context [let (_, _) := ?m ?env ?w in _] =>
      assert (H : quiet m) by (apply lem);
      destruct (H env w) as (a & w' & E & D); rewrite E; clear E H; cbv beta iota
  end.

Ltac db_chain :=
  repeat first
    [ progress (unfold tick; cbn [w_db db_tasks db_users])
    | match goal with H : w_db _ = _ |- _ => rewrite H end ].

(** [allocateTasksOptimized] returns [runOutcome], for the time at which its
    transaction ran, and leaves the task table [runOutcome] describes. *)
Lemma allocate_outcome batchSize env w :
  exists now w',
    allocateTasksOptimized batchSize env w
    = (Ok (fst (runOutcome (env_concurrent env) now batchSize (w_db w))), w')
    /\ db_tasks (w_db w') = snd (runOutcome (env_concurrent env) now batchSize (w_db w))
    /\ db_users (w_db w') = db_users (w_db w).
Proof.
  unfold allocateTasksOptimized, runOutcome. unfold tryCatch at 1.
  unfold bind at 1. unfold dateNow at 1. cbv beta iota.
  unfold bind at 1. unfold getDB at 1. cbv beta iota zeta.
  replace (w_db (tick w)) with (w_db w) by reflexivity.
  set (db := w_db w).
  set (tasks := findPendingGeocoded db batchSize).
  set (workers := getWorkers db).
  destruct ((length tasks =? 0)%nat || (length workers =? 0)%nat) eqn:Eearly.
  - exists 0, (tick w). unfold ret. cbn [fst snd]. auto.
  - unfold bind at 1. unfold dateNow at 1. cbv beta iota.
    unfold bind at 1.
    run_quiet quiet_cacheWorkersWithSpatialIndex.
    unfold bind at 1. unfold bind at 1. unfold dateNow at 1. cbv beta iota.
    run_quiet quiet_cacheSpatialIndexStats.
    unfold bind at 1.
    run_quiet quiet_syncCacheWithVersion.
    unfold bind at 1. unfold getDB at 1. cbv beta iota.
    assert (Hdb : w_db w2 = db) by (db_chain; reflexivity).
    rewrite Hdb.
    set (counts := getWorkerTaskCountsBatch db (map user_id workers)).
    destruct (proposeAll (buildSpatialIndex workers) counts tasks)
      as [allocations failedInLoop] eqn:Eprop.
    cbn [fst snd]. unfold bind at 1.
    destruct (0 <? length allocations)%nat eqn:Esome.
    + unfold bind at 1. rewrite commitAllocations_run. cbv beta iota zeta.
      unfold ret at 1. rewrite Hdb.
      set (now := env_clock env (w_tick w2)).
      set (committed := bulkUpdateTaskAllocations now allocations
                          (env_concurrent env (db_tasks db))).
      set (rc := reconcile allocations (fst committed) failedInLoop counts).
      exists now.
      unfold bind at 1.
      destruct (0 <? length (rc_affected rc))%nat.
      * run_quiet quiet_invalidateWorkerCaches.
        unfold bind at 1. unfold bind at 1. unfold dateNow at 1. cbv beta iota.
        run_quiet quiet_cacheAllocationResults.
        unfold ret. eexists. split; [reflexivity|].
        rewrite D3. unfold tick. cbn [w_db]. rewrite D2. cbn. auto.
      * unfold ret at 1. cbv beta iota.
        unfold bind at 1. unfold bind at 1. unfold dateNow at 1. cbv beta iota.
        run_quiet quiet_cacheAllocationResults.
        unfold ret. eexists. split; [reflexivity|].
        rewrite D2. cbn. auto.
    + unfold ret at 1. cbv beta iota. cbn [rc_affected length Nat.ltb Nat.leb].
      exists 0.
      unfold bind at 1. unfold ret at 1. cbv beta iota.
      unfold bind at 1. unfold bind at 1. unfold dateNow at 1. cbv beta iota.
      run_quiet quiet_cacheAllocationResults.
      unfold ret. eexists. split; [reflexivity|].
      rewrite D2. cbn. rewrite Hdb. auto.
Qed.

(** *** The outcome does not depend on when the transaction ran *)

Definition sameGuard (t t' : Task) : Prop :=
  task_id t = task_id t' /\ task_status t = task_status t'.

Lemma stillUnassigned_related rows rows' taskId :
  Forall2 sameGuard rows rows' ->
  CommitFacts.stillUnassigned rows taskId = CommitFacts.stillUnassigned rows' taskId.
Proof.
  unfold CommitFacts.stillUnassigned.
  induction 1 as [|t t' rows rows' [Hid Hst] _ IH]; [reflexivity|].
  cbn [existsb]. rewrite IH. unfold guardMatches. rewrite Hid, Hst. reflexivity.
Qed.

Lemma commit_fold_related now now' allocations :
  forall ids rows rows',
    Forall2 sameGuard rows rows' ->
    fst (foldl (CommitFacts.commitStep now) (ids, rows) allocations)
    = fst (foldl (CommitFacts.commitStep now') (ids, rows') allocations).
Proof.
  induction allocations as [|a allocations IH]; intros ids rows rows' Hrel; [reflexivity|].
  cbn [foldl]. rewrite !CommitFacts.commitStep_eq.
  rewrite (stillUnassigned_related rows rows' _ Hrel).
  apply IH. clear IH.
  induction Hrel as [|t t' rows rows' [Hid Hst] _ IHrel]; [constructor|].
  cbn [map]. constructor; [|exact IHrel].
  unfold guardMatches. rewrite Hid, Hst.
  destruct (_ && _); [|split; assumption].
  split; [exact Hid | reflexivity].
Qed.

Lemma Forall2_sameGuard_refl rows : Forall2 sameGuard rows rows.
Proof. induction rows; constructor; [split; reflexivity | assumption]. Qed.

Lemma committed_ids_now now now' allocations rows :
  fst (bulkUpdateTaskAllocations now allocations rows)
  = fst (bulkUpdateTaskAllocations now' allocations rows).
Proof.
  rewrite !CommitFacts.bulkUpdate_fold.
  apply commit_fold_related, Forall2_sameGuard_refl.
Qed.

Lemma runOutcome_now concurrent now now' batchSize db :
  fst (runOutcome concurrent now batchSize db)
  = fst (runOutcome concurrent now' batchSize db).
Proof.
  unfold runOutcome. cbv zeta.
  destruct (_ || _); [reflexivity|]. cbn [fst].
  rewrite (committed_ids_now now now'). reflexivity.
Qed.

(** C6.  Started on the same store, with the same interference from other
    writers, a run in which every Redis command fails and a run in which
    every Redis command succeeds both complete without throwing and return
    the same result (hence the same totalTasks, allocated, failed,
    successRate and avgDistance), whatever the cache held, whatever state
    the circuit breaker was in and whatever the clock shows. *)
Theorem cache_outage_does_not_change_outcome
    (batchSize : nat) (concurrent : list Task -> list Task) (db : DB)
    (clock clock' : nat -> Z) (redis redis' : gmap string RVal)
    (breaker breaker' : CircuitBreaker) (ticks ticks' : nat) :
  exists result w1 w2,
    allocateTasksOptimized batchSize (mkEnv (fun _ => true) clock concurrent)
      (mkWorld db redis breaker ticks) = (Ok result, w1)
    /\ allocateTasksOptimized batchSize (mkEnv (fun _ => false) clock' concurrent)
         (mkWorld db redis' breaker' ticks') = (Ok result, w2).
Proof.
  destruct (allocate_outcome batchSize (mkEnv (fun _ => true) clock concurrent)
              (mkWorld db redis breaker ticks)) as (now1 & w1 & E1 & _).
  destruct (allocate_outcome batchSize (mkEnv (fun _ => false) clock' concurrent)
              (mkWorld db redis' breaker' ticks')) as (now2 & w2 & E2 & _).
  cbn [env_concurrent w_db] in E1, E2.
  exists (fst (runOutcome concurrent now1 batchSize db)), w1, w2.
  split; [exact E1|]. rewrite E2. rewrite (runOutcome_now concurrent now2 now1).
  reflexivity.
Qed.

(** *** Where a proposal comes from *)

Lemma selectBest_chosen nearbyWorkers counts task w d :
  selectBestWorkerOptimized nearbyWorkers counts task = Some (w, d) ->
  exists wp, wp ∈ nearbyWorkers /\ wp_data wp = w /\ distanceOf task wp = d.
Proof.
  unfold selectBestWorkerOptimized. intros H.
  assert (Hinv := ScorerFacts.selectInv_fold counts task nearbyWorkers []
                    (mkBest None (-1) Js.Infinity)).
  cbn [app] in Hinv.
  specialize (Hinv (conj eq_refl (fun wp (Hin : wp ∈ []) _ => not_elem_of_nil wp Hin))).
  unfold ScorerFacts.selectInv in Hinv.
  destruct (bestWorker _) as [w0|]; [|discriminate].
  injection H as <- <-.
  destruct Hinv as (i & wp & Hi & Hw & Hd & _).
  exists wp. split; [eapply list_elem_of_lookup_2; exact Hi | auto].
Qed.

Lemma selectBest_single wp counts task :
  ScorerFacts.eligible counts wp ->
  selectBestWorkerOptimized [wp] counts task = Some (wp_data wp, distanceOf task wp).
Proof.
  intros He. unfold selectBestWorkerOptimized. cbn [foldl].
  rewrite ScorerFacts.selectStep_eligible by exact He. cbn [bestScore].
  rewrite ScorerFacts.Rltb_true; [reflexivity|].
  assert (Hpos := ScorerFacts.score_positive counts task wp He).
  apply (Rlt_trans _ 0%R); [lra | exact Hpos].
Qed.

Lemma proposeAll_snoc idx counts tasks task :
  proposeAll idx counts (tasks ++ [task])
  = match proposeForTask idx counts task with
    | Some a => (fst (proposeAll idx counts tasks) ++ [a], snd (proposeAll idx counts tasks))
    | None => (fst (proposeAll idx counts tasks), S (snd (proposeAll idx counts tasks)))
    end.
Proof. unfold proposeAll. rewrite foldl_snoc. reflexivity. Qed.

Lemma proposeAll_elem idx counts tasks a :
  a ∈ fst (proposeAll idx counts tasks) ->
  exists task, task ∈ tasks /\ proposeForTask idx counts task = Some a.
Proof.
  induction tasks as [|task tasks IH] using rev_ind; intros Hin.
  - inversion Hin.
  - rewrite proposeAll_snoc in Hin.
    destruct (proposeForTask idx counts task) as [a'|] eqn:E; cbn [fst] in Hin.
    + apply elem_of_app in Hin as [Hin|Hin].
      * destruct (IH Hin) as (t & Ht & Hp). exists t. split; [|exact Hp].
        apply elem_of_app. left. exact Ht.
      * apply list_elem_of_singleton in Hin as ->. exists task. split; [|exact E].
        apply elem_of_app. right. left.
    + destruct (IH Hin) as (t & Ht & Hp). exists t. split; [|exact Hp].
      apply elem_of_app. left. exact Ht.
Qed.

(** The worker of a proposal is an indexed worker within the radius of the
    task it is proposed for. *)
Lemma proposal_worker workers counts task a :
  proposeForTask (buildSpatialIndex workers) counts task = Some a ->
  alloc_taskId a = task_id task
  /\ exists u, u ∈ workers /\ alloc_workerId a = user_id u
       /\ Js.truthy (user_lat u) = true /\ Js.truthy (user_lon u) = true.
Proof.
  unfold proposeForTask. intros H.
  destruct (task_lat task) as [lat|]; [|discriminate].
  destruct (task_lon task) as [lon|]; [|discriminate].
  destruct (negb _ || negb _); [discriminate|].
  destruct (length _ =? 0)%nat; [discriminate|].
  destruct (selectBestWorkerOptimized _ counts task) as [[w d]|] eqn:E; [|discriminate].
  injection H as <-. cbn [alloc_taskId alloc_workerId]. split; [reflexivity|].
  apply selectBest_chosen in E as (wp & Hin & <- & _).
  apply list_elem_of_In, in_map_iff in Hin as (sp & <- & Hsp).
  apply list_elem_of_In, SpatialFacts.findNearbyWorkers_sound in Hsp
    as (Hw & _ & T1 & T2).
  exists (pt_data sp). cbn [wp_data]. auto.
Qed.

Lemma proposeForTask_zero idx counts task :
  task_lat task = Some 0%R \/ task_lon task = Some 0%R ->
  proposeForTask idx counts task = None.
Proof.
  unfold proposeForTask. intros [H|H]; rewrite H.
  - destruct (task_lon task); [|reflexivity].
    rewrite SpatialFacts.truthy_zero. reflexivity.
  - destruct (task_lat task); [|reflexivity].
    rewrite SpatialFacts.truthy_zero. cbn [negb]. rewrite orb_true_r. reflexivity.
Qed.

(** C10.  A worker whose latitude or longitude is exactly 0 is in no bucket
    of the spatial index and, its id being its own, is the worker of no
    proposed allocation; a task whose latitude or longitude is exactly 0 is
    counted as failed whatever the index holds, so without a query. *)
Theorem zero_coordinate_is_treated_as_missing :
  (forall (workers : list User) (w : User) key bucket p,
      user_lat w = Some 0%R \/ user_lon w = Some 0%R ->
      buildSpatialIndex workers !! key = Some bucket -> p ∈ bucket ->
      pt_data p <> w)
  /\ (forall (workers : list User) (w : User) counts tasks a,
        user_lat w = Some 0%R \/ user_lon w = Some 0%R ->
        (forall u, u ∈ workers -> user_id u = user_id w -> u = w) ->
        a ∈ fst (proposeAll (buildSpatialIndex workers) counts tasks) ->
        alloc_workerId a <> user_id w)
  /\ (forall idx counts (task : Task),
        task_lat task = Some 0%R \/ task_lon task = Some 0%R ->
        proposeForTask idx counts task = None)
  /\ (forall idx counts tasks (task : Task),
        task_lat task = Some 0%R \/ task_lon task = Some 0%R ->
        proposeAll idx counts (tasks ++ [task])
        = (fst (proposeAll idx counts tasks), S (snd (proposeAll idx counts tasks)))).
Proof.
  assert (Hfalsy : forall w : User,
            user_lat w = Some 0%R \/ user_lon w = Some 0%R ->
            Js.truthy (user_lat w) = true -> Js.truthy (user_lon w) = true -> False).
  { intros w [H|H] T1 T2; rewrite H, SpatialFacts.truthy_zero in *; discriminate. }
  split; [|split; [|split]].
  - intros workers w key bucket p Hz Hlook Hin Heq. subst w.
    destruct (SpatialFacts.index_invariant workers key bucket p Hlook Hin)
      as (_ & _ & Hlat & Hlon & Hnz1 & Hnz2 & _).
    destruct Hz as [Hz|Hz]; congruence.
  - intros workers w counts tasks a Hz Huniq Hin Hid.
    apply proposeAll_elem in Hin as (task & _ & Hp).
    apply proposal_worker in Hp as (_ & u & Hu & Hau & T1 & T2).
    assert (u = w) by (apply Huniq; [exact Hu | congruence]). subst u.
    exact (Hfalsy w Hz T1 T2).
  - intros idx counts task Hz. apply proposeForTask_zero, Hz.
  - intros idx counts tasks task Hz.
    rewrite proposeAll_snoc, (proposeForTask_zero idx counts task Hz). reflexivity.
Qed.

Definition equatorTask : Task :=
  mkTask "t0" (Some 0%R) (Some 32.5%R) unassigned false None None.

Lemma zero_coordinate_is_treated_as_missing_witness :
  (task_lat equatorTask = Some 0%R \/ task_lon equatorTask = Some 0%R)
  /\ proposeForTask ∅ ∅ equatorTask = None.
Proof.
  assert (H : task_lat equatorTask = Some 0%R \/ task_lon equatorTask = Some 0%R)
    by (left; reflexivity).
  split; [exact H|].
  exact (proj1 (proj2 (proj2 zero_coordinate_is_treated_as_missing)) ∅ ∅ equatorTask H).
Defined.

(** *** Runs over a store with one worker *)

(** With one worker in the index, a task in reach of it is proposed to it as
    long as the worker's counted load is below the cap. *)
Lemma propose_single (W : User) (wlat wlon : R) counts (T : Task) (tlat tlon : R) :
  user_lat W = Some wlat -> user_lon W = Some wlon -> wlat <> 0%R -> wlon <> 0%R ->
  task_lat T = Some tlat -> task_lon T = Some tlon -> tlat <> 0%R -> tlon <> 0%R ->
  getGridKey wlat wlon ∈ getSearchCells tlat tlon (MAX_ALLOCATION_RADIUS / 111)%R ->
  (haversineDistance tlat tlon wlat wlon <= MAX_ALLOCATION_RADIUS)%R ->
  (currentTasksOf counts W < MAX_TASKS_PER_WORKER)%nat ->
  proposeForTask (buildSpatialIndex [W]) counts T
  = Some (mkAllocation (task_id T) (user_id W)
            (Some (Js.Fin (haversineDistance tlat tlon wlat wlon)))).
Proof.
  intros Hwlat Hwlon Hw1 Hw2 Htlat Htlon Ht1 Ht2 Hcell Hd Hload.
  unfold proposeForTask. rewrite Htlat, Htlon.
  assert (T1 : Js.truthy (Some tlat) = true) by (apply SpatialFacts.truthy_spec; eauto).
  assert (T2 : Js.truthy (Some tlon) = true) by (apply SpatialFacts.truthy_spec; eauto).
  rewrite T1, T2. cbn [negb orb].
  rewrite (SpatialFacts.findNearbyWorkers_single_hit W wlat wlon) by assumption.
  cbn [map length Nat.eqb pt_data].
  rewrite selectBest_single by exact Hload.
  cbn [wp_data]. unfold distanceOf. cbn [wp_distance wp_data].
  rewrite Htlat, Htlon, Hwlat, Hwlon. reflexivity.
Qed.

(** A point is in the cells searched around itself. *)
Lemma own_cell_is_searched (lat lon : R) :
  getGridKey lat lon ∈ getSearchCells lat lon (MAX_ALLOCATION_RADIUS / 111)%R.
Proof.
  unfold getGridKey. rewrite SpatialFacts.elem_of_getSearchCells.
  unfold MAX_ALLOCATION_RADIUS, GRID_SIZE.
  assert (Zceil (10 / 111 / 0.01) = 10) as -> by (apply Zceil_eq; lra).
  lia.
Qed.

(** A worker in Dhaka with 49 active tasks, and two new tasks at the
    worker's own position. *)
Definition dhakaWorker : User :=
  mkUser "w1" (Some 23.81%R) (Some 90.412%R) "WORKER" true.

Definition busyTaskId (n : nat) : string :=
  "a" +:+ String (ascii_of_nat (48 + n / 10)) (String (ascii_of_nat (48 + n mod 10)) "").

Definition busyTasks : list Task :=
  map (fun n => mkTask (busyTaskId n) None None assigned false (Some "w1") (Some 0))
      (seq 0 49).

Definition dhakaTask (id : string) : Task :=
  mkTask id (Some 23.81%R) (Some 90.412%R) unassigned false None None.

Definition crowdedStore : DB :=
  mkDB (busyTasks ++ [dhakaTask "t1"; dhakaTask "t2"]) [dhakaWorker].

(** No cache failure, no other writer. *)
Definition calmEnv : Env :=
  mkEnv (fun _ => false) (fun n => Z.of_nat n) (fun rows => rows).

Lemma crowded_proposals :
  proposeAll (buildSpatialIndex [dhakaWorker])
    (getWorkerTaskCountsBatch crowdedStore ["w1"])
    [dhakaTask "t1"; dhakaTask "t2"]
  = ([mkAllocation "t1" "w1"
        (Some (Js.Fin (haversineDistance 23.81 90.412 23.81 90.412)));
      mkAllocation "t2" "w1"
        (Some (Js.Fin (haversineDistance 23.81 90.412 23.81 90.412)))], 0%nat).
Proof.
  assert (Hload : (currentTasksOf (getWorkerTaskCountsBatch crowdedStore ["w1"]) dhakaWorker
                   < MAX_TASKS_PER_WORKER)%nat).
  { assert (currentTasksOf (getWorkerTaskCountsBatch crowdedStore ["w1"]) dhakaWorker
            = 49%nat) as -> by (vm_compute; reflexivity).
    unfold MAX_TASKS_PER_WORKER. lia. }
  assert (Hd : (haversineDistance 23.81 90.412 23.81 90.412 <= MAX_ALLOCATION_RADIUS)%R).
  { rewrite SpatialFacts.haversine_self. unfold MAX_ALLOCATION_RADIUS. lra. }
  unfold proposeAll. cbn [foldl].
  rewrite !(propose_single dhakaWorker 23.81 90.412 _ _ 23.81 90.412);
    try reflexivity; try lra; try exact Hload; try exact Hd; try apply own_cell_is_searched.
Qed.

Lemma crowded_outcome (now : Z) :
  res_allocated (fst (runOutcome (fun rows => rows) now 100 crowdedStore)) = 2%nat
  /\ res_failed (fst (runOutcome (fun rows => rows) now 100 crowdedStore)) = 0%nat
  /\ countActive
       (mkDB (snd (runOutcome (fun rows => rows) now 100 crowdedStore)) [dhakaWorker])
       "w1" = 51%nat.
Proof.
  unfold runOutcome.
  replace (findPendingGeocoded crowdedStore 100)
    with [dhakaTask "t1"; dhakaTask "t2"] by reflexivity.
  replace (getWorkers crowdedStore) with [dhakaWorker] by reflexivity.
  cbv zeta. cbn [length Nat.eqb orb map user_id dhakaWorker].
  rewrite crowded_proposals. cbn [fst snd length Nat.ltb Nat.leb].
  generalize (haversineDistance 23.81 90.412 23.81 90.412). intros d.
  repeat split; vm_compute; reflexivity.
Qed.

(** C1 fails on the code.  The store holds one worker with 49 active tasks
    and two unassigned tasks at the worker's position; nothing fails and
    nobody else writes.  One run of [allocateTasksOptimized] proposes both
    tasks to the worker, because the load it compares with the cap is the
    count read before the loop, commits both, and leaves the worker with 51
    active tasks, above [MAX_TASKS_PER_WORKER] = 50. *)
Theorem batch_overfills_worker :
  countActive crowdedStore "w1" = 49%nat
  /\ exists result w',
       allocateTasksOptimized 100 calmEnv (mkWorld crowdedStore ∅ initialBreaker 0)
       = (Ok result, w')
       /\ res_allocated result = 2%nat
       /\ res_failed result = 0%nat
       /\ countActive (w_db w') "w1" = 51%nat
       /\ (MAX_TASKS_PER_WORKER < countActive (w_db w') "w1")%nat.
Proof.
  split; [vm_compute; reflexivity|].
  destruct (allocate_outcome 100 calmEnv (mkWorld crowdedStore ∅ initialBreaker 0))
    as (now & w' & E & Hrows & Husers).
  cbn [env_concurrent calmEnv w_db] in E, Hrows, Husers.
  destruct (crowded_outcome now) as (H1 & H2 & H3).
  eexists _, w'. split; [exact E|]. split; [exact H1|]. split; [exact H2|].
  assert (Hdb : w_db w'
                = mkDB (snd (runOutcome (fun rows => rows) now 100 crowdedStore))
                       [dhakaWorker]).
  { destruct (w_db w') as [rows users]. cbn in Hrows, Husers. subst. reflexivity. }
  rewrite Hdb, H3. split; [reflexivity|]. unfold MAX_TASKS_PER_WORKER. lia.
Qed.

(** *** A run whose only proposal loses the race *)

(** One task and one idle worker, 0.005 degrees of longitude apart on the
    60th parallel. *)
Definition northTask : Task :=
  mkTask "t1" (Some 60%R) (Some 10%R) unassigned false None None.

Definition northWorker : User :=
  mkUser "w1" (Some 60%R) (Some 10.005%R) "WORKER" true.

Definition northStore : DB := mkDB [northTask] [northWorker].

(** Nothing fails, but between the run's reads and its transaction another
    writer (an admin, a second run) assigns task [t1] to worker [w2]. *)
Definition raceEnv : Env :=
  mkEnv (fun _ => false) (fun n => Z.of_nat n)
        (fun rows => map (fun t => if String.eqb (task_id t) "t1"
                                   then assignRow "w2" 0 t else t) rows).

Definition northDistance : R := haversineDistance 60 10 60 10.005.

Lemma northDistance_bounds : (0 < northDistance <= 10)%R.
Proof.
  unfold northDistance. replace 10.005%R with (10 + 0.005)%R by lra.
  apply SpatialFacts.haversine_lat60. lra.
Qed.

Lemma north_proposals :
  proposeAll (buildSpatialIndex [northWorker])
    (getWorkerTaskCountsBatch northStore ["w1"]) [northTask]
  = ([mkAllocation "t1" "w1" (Some (Js.Fin northDistance))], 0%nat).
Proof.
  assert (Hload : (currentTasksOf (getWorkerTaskCountsBatch northStore ["w1"]) northWorker
                   < MAX_TASKS_PER_WORKER)%nat).
  { assert (currentTasksOf (getWorkerTaskCountsBatch northStore ["w1"]) northWorker
            = 0%nat) as -> by (vm_compute; reflexivity).
    unfold MAX_TASKS_PER_WORKER. lia. }
  assert (Hcell : getGridKey 60 10.005
                    ∈ getSearchCells 60 10 (MAX_ALLOCATION_RADIUS / 111)%R).
  { unfold getGridKey. rewrite SpatialFacts.elem_of_getSearchCells.
    unfold MAX_ALLOCATION_RADIUS, GRID_SIZE.
    assert (Zceil (10 / 111 / 0.01) = 10) as -> by (apply Zceil_eq; lra).
    assert (Zfloor (10.005 / 0.01) = 1000) as -> by (apply Zfloor_eq; lra).
    assert (Zfloor (10 / 0.01) = 1000) as -> by (apply Zfloor_eq; lra).
    lia. }
  unfold proposeAll. cbn [foldl].
  rewrite (propose_single northWorker 60 10.005 _ northTask 60 10);
    try reflexivity; try lra; try exact Hload; try exact Hcell.
  apply northDistance_bounds.
Qed.

Lemma average_single taskId workerId (d : R) :
  (0 <= d)%R ->
  calculateAverageDistance [mkAllocation taskId workerId (Some (Js.Fin d))] = Js.Fin d.
Proof.
  intros Hd. unfold calculateAverageDistance. cbn [length Nat.eqb].
  assert (Hv : omap validDistance [mkAllocation taskId workerId (Some (Js.Fin d))]
               = [Js.Fin d]).
  { cbn [omap list_omap]. unfold validDistance. cbn [alloc_distance].
    rewrite SpatialFacts.Rleb_true by exact Hd. reflexivity. }
  rewrite Hv. cbn. f_equal. lra.
Qed.

Lemma race_outcome (now : Z) :
  fst (runOutcome (env_concurrent raceEnv) now 100 northStore)
  = Completed (mkMetrics 1 0 1 0 (successRateOf 0 1) (Js.Fin northDistance)
                 (calculateWorkerUtilization [northWorker]
                    (getWorkerTaskCountsBatch northStore ["w1"]))).
Proof.
  unfold runOutcome.
  replace (findPendingGeocoded northStore 100) with [northTask] by reflexivity.
  replace (getWorkers northStore) with [northWorker] by reflexivity.
  cbv zeta. cbn [length Nat.eqb orb map user_id northWorker].
  rewrite north_proposals. cbn [fst snd length Nat.ltb Nat.leb].
  assert (Hids : fst (bulkUpdateTaskAllocations now
                        [mkAllocation "t1" "w1" (Some (Js.Fin northDistance))]
                        (env_concurrent raceEnv (db_tasks northStore))) = []).
  { generalize northDistance. intros d. vm_compute. reflexivity. }
  rewrite Hids. unfold reconcile.
  cbn [omap list_omap rc_successful rc_allocated rc_failed rc_counts rc_affected length
       foldl Nat.ltb Nat.leb Nat.sub Nat.add fst].
  rewrite average_single by (apply Rlt_le, northDistance_bounds).
  reflexivity.
Qed.

(** C2 fails on the code.  The run proposes task [t1] to worker [w1], some
    [northDistance] > 0 km away; another writer takes the task first, so the
    guarded commit commits nothing.  The counters reflect that (allocated 0,
    failed 1, no affected worker), but the reported average distance is
    [northDistance], the average of the proposed list, where the committed
    subset is empty and has average 0. *)
Theorem average_distance_uses_proposals_when_nothing_commits :
  exists result w',
    allocateTasksOptimized 100 raceEnv (mkWorld northStore ∅ initialBreaker 0)
    = (Ok result, w')
    /\ res_allocated result = 0%nat
    /\ res_failed result = 1%nat
    /\ res_avgDistance result = Some (Js.Fin northDistance)
    /\ (0 < northDistance)%R
    /\ calculateAverageDistance [] = Js.Fin 0.
Proof.
  destruct (allocate_outcome 100 raceEnv (mkWorld northStore ∅ initialBreaker 0))
    as (now & w' & E & _ & _).
  cbn [w_db] in E. rewrite race_outcome in E.
  eexists _, w'. split; [exact E|].
  cbn [res_allocated res_failed res_avgDistance am_allocated am_failed am_avgDistance].
  repeat split. apply northDistance_bounds.
Qed.

(** *** Two scenarios of the specification *)

(** No task and no worker: the early exit, with nothing allocated and nothing
    failed, and no exception. *)
Example empty_store_run :
  fst (allocateTasksOptimized 100 calmEnv (mkWorld (mkDB [] []) ∅ initialBreaker 0))
  = Ok (NoTasksOrWorkers 0 0 0).
Proof. vm_compute. reflexivity. Qed.

(** One task and one worker already at the cap: the worker is excluded, and
    the task is counted as failed. *)
Lemma propose_single_full (W : User) (wlat wlon : R) counts (T : Task) (tlat tlon : R) :
  user_lat W = Some wlat -> user_lon W = Some wlon -> wlat <> 0%R -> wlon <> 0%R ->
  task_lat T = Some tlat -> task_lon T = Some tlon ->
  getGridKey wlat wlon ∈ getSearchCells tlat tlon (MAX_ALLOCATION_RADIUS / 111)%R ->
  (haversineDistance tlat tlon wlat wlon <= MAX_ALLOCATION_RADIUS)%R ->
  (MAX_TASKS_PER_WORKER <= currentTasksOf counts W)%nat ->
  proposeForTask (buildSpatialIndex [W]) counts T = None.
Proof.
  intros Hwlat Hwlon Hw1 Hw2 Htlat Htlon Hcell Hd Hload.
  unfold proposeForTask. rewrite Htlat, Htlon.
  destruct (negb _ || negb _); [reflexivity|].
  rewrite (SpatialFacts.findNearbyWorkers_single_hit W wlat wlon) by assumption.
  cbn [map length Nat.eqb pt_data].
  unfold selectBestWorkerOptimized. cbn [foldl].
  rewrite ScorerFacts.selectStep_skip; [reflexivity|].
  unfold ScorerFacts.eligible. cbn [wp_data]. lia.
Qed.

Definition fullStore : DB :=
  mkDB (busyTasks
          ++ [mkTask "a49" None None accepted false (Some "w1") (Some 0);
              dhakaTask "t1"])
       [dhakaWorker].

Example worker_at_cap_run (now : Z) :
  countActive fullStore "w1" = 50%nat
  /\ res_allocated (fst (runOutcome (fun rows => rows) now 100 fullStore)) = 0%nat
  /\ res_failed (fst (runOutcome (fun rows => rows) now 100 fullStore)) = 1%nat.
Proof.
  split; [vm_compute; reflexivity|].
  unfold runOutcome.
  replace (findPendingGeocoded fullStore 100) with [dhakaTask "t1"] by reflexivity.
  replace (getWorkers fullStore) with [dhakaWorker] by reflexivity.
  cbv zeta. cbn [length Nat.eqb orb map user_id dhakaWorker].
  assert (Hprop : proposeAll (buildSpatialIndex [dhakaWorker])
                    (getWorkerTaskCountsBatch fullStore ["w1"]) [dhakaTask "t1"]
                  = ([], 1%nat)).
  { unfold proposeAll. cbn [foldl].
    assert (Hload : (MAX_TASKS_PER_WORKER
                     <= currentTasksOf (getWorkerTaskCountsBatch fullStore ["w1"])
                          dhakaWorker)%nat).
    { assert (currentTasksOf (getWorkerTaskCountsBatch fullStore ["w1"]) dhakaWorker
              = 50%nat) as -> by (vm_compute; reflexivity).
      unfold MAX_TASKS_PER_WORKER. lia. }
    assert (Hd : (haversineDistance 23.81 90.412 23.81 90.412
                  <= MAX_ALLOCATION_RADIUS)%R).
    { rewrite SpatialFacts.haversine_self. unfold MAX_ALLOCATION_RADIUS. lra. }
    rewrite (propose_single_full dhakaWorker 23.81 90.412 _ _ 23.81 90.412);
      try reflexivity; try lra; try exact Hload; try exact Hd;
      try apply own_cell_is_searched. }
  rewrite Hprop. split; reflexivity.
Qed.

End EngineFacts.

(** * Further properties *)

(** ** Accounting and bounds of a run *)

Module RunFacts.
Import SpatialIndex Store Allocation Cache Engine.









(** *** Distances *)

Lemma atan2_nonneg (y x : R) : (0 <= y)%R -> (0 <= x)%R -> (0 <= Js.atan2 y x)%R.
Proof.
  intros Hy Hx. unfold Js.atan2.
  assert (HPI := PI_RGT_0).
  destruct (Rlt_dec 0 x) as [Hpos|Hnpos].
  - destruct (Req_dec y 0) as [->|Hne].
    + replace (0 / x)%R with 0%R by (unfold Rdiv; ring). rewrite atan_0. lra.
    + assert (0 < y / x)%R by (apply Rdiv_lt_0_compat; lra).
      apply Rlt_le. rewrite <- atan_0. apply atan_increasing. assumption.
  - destruct (Rlt_dec x 0); [lra|].
    destruct (Rlt_dec 0 y); [lra|].
    destruct (Rlt_dec y 0); lra.
Qed.

(** The haversine distance is never negative. *)
Lemma haversine_nonneg lat1 lon1 lat2 lon2 :
  (0 <= haversineDistance lat1 lon1 lat2 lon2)%R.
Proof.
  unfold haversineDistance. cbv zeta.
  match goal with |- (0 <= 6371 * (2 * Js.atan2 ?y ?x))%R =>
    assert (H := atan2_nonneg y x (sqrt_pos _) (sqrt_pos _)) end.
  lra.
Qed.

Lemma selectBest_chosen_eligible nearbyWorkers counts task w d :
  selectBestWorkerOptimized nearbyWorkers counts task = Some (w, d) ->
  exists wp, wp ∈ nearbyWorkers /\ wp_data wp = w /\ distanceOf task wp = d
             /\ (currentTasksOf counts w < MAX_TASKS_PER_WORKER)%nat.
Proof.
  unfold selectBestWorkerOptimized. intros H.
  assert (Hinv := ScorerFacts.selectInv_fold counts task nearbyWorkers []
                    (mkBest None (-1) Js.Infinity)).
  cbn [app] in Hinv.
  specialize (Hinv (conj eq_refl (fun wp (Hin : wp ∈ []) _ => not_elem_of_nil wp Hin))).
  unfold ScorerFacts.selectInv in Hinv.
  destruct (bestWorker _) as [w0|]; [|discriminate].
  injection H as <- <-.
  destruct Hinv as (i & wp & Hi & Hw & Hd & Hel & _).
  exists wp. split; [eapply list_elem_of_lookup_2; exact Hi|].
  unfold ScorerFacts.eligible in Hel. rewrite Hw in Hel. auto.
Qed.


(** X2.  Every allocation the loop proposes pairs a task of the batch with a
    worker of the list: both have coordinates, the recorded distance is the
    haversine distance between them, it is at most [MAX_ALLOCATION_RADIUS],
    and the worker's counted load was below [MAX_TASKS_PER_WORKER]. *)
Theorem proposals_within_radius workers counts tasks a :
  a ∈ fst (proposeAll (buildSpatialIndex workers) counts tasks) ->
  exists task u tlat tlon wlat wlon,
    task ∈ tasks /\ u ∈ workers
    /\ alloc_taskId a = task_id task /\ alloc_workerId a = user_id u
    /\ task_lat task = Some tlat /\ task_lon task = Some tlon
    /\ user_lat u = Some wlat /\ user_lon u = Some wlon
    /\ alloc_distance a = Some (Js.Fin (haversineDistance tlat tlon wlat wlon))
    /\ (0 <= haversineDistance tlat tlon wlat wlon <= MAX_ALLOCATION_RADIUS)%R
    /\ (currentTasksOf counts u < MAX_TASKS_PER_WORKER)%nat.
Proof.
  intros Hin. apply EngineFacts.proposeAll_elem in Hin as (task & Htask & Hp).
  unfold proposeForTask in Hp.
  destruct (task_lat task) as [tlat|] eqn:Etlat; [|discriminate].
  destruct (task_lon task) as [tlon|] eqn:Etlon; [|discriminate].
  destruct (negb _ || negb _); [discriminate|].
  destruct (length _ =? 0)%nat; [discriminate|].
  destruct (selectBestWorkerOptimized _ counts task) as [[w d]|] eqn:E; [|discriminate].
  injection Hp as <-.
  apply selectBest_chosen_eligible in E as (wp & Hwp & <- & <- & Hload).
  apply list_elem_of_In, in_map_iff in Hwp as (sp & <- & Hsp).
  apply list_elem_of_In, SpatialFacts.elem_of_findNearbyWorkers in Hsp
    as (key & bucket & _ & Hlook & Hb & Hd).
  destruct (SpatialFacts.index_invariant workers key bucket sp Hlook Hb)
    as (Hw & _ & Hlat & Hlon & _).
  exists task, (pt_data sp), tlat, tlon, (pt_lat sp), (pt_lon sp).
  cbn [alloc_taskId alloc_workerId alloc_distance wp_data] in *.
  repeat (split; [first [assumption | reflexivity]|]).
  split.
  - unfold distanceOf. cbn [wp_distance wp_data]. rewrite Etlat, Etlon, Hlat, Hlon.
    reflexivity.
  - split; [|exact Hload]. split; [apply haversine_nonneg | exact Hd].
Qed.

Lemma proposals_within_radius_witness :
  mkAllocation "t1" "w1"
    (Some (Js.Fin (haversineDistance 23.81 90.412 23.81 90.412)))
  ∈ fst (proposeAll (buildSpatialIndex [EngineFacts.dhakaWorker])
           (getWorkerTaskCountsBatch EngineFacts.crowdedStore ["w1"])
           [EngineFacts.dhakaTask "t1"; EngineFacts.dhakaTask "t2"])
  /\ exists task u tlat tlon wlat wlon,
       task ∈ [EngineFacts.dhakaTask "t1"; EngineFacts.dhakaTask "t2"]
       /\ u ∈ [EngineFacts.dhakaWorker]
       /\ task_lat task = Some tlat /\ task_lon task = Some tlon
       /\ user_lat u = Some wlat /\ user_lon u = Some wlon
       /\ (haversineDistance tlat tlon wlat wlon <= MAX_ALLOCATION_RADIUS)%R.
Proof.
  assert (H : mkAllocation "t1" "w1"
                (Some (Js.Fin (haversineDistance 23.81 90.412 23.81 90.412)))
              ∈ fst (proposeAll (buildSpatialIndex [EngineFacts.dhakaWorker])
                       (getWorkerTaskCountsBatch EngineFacts.crowdedStore ["w1"])
                       [EngineFacts.dhakaTask "t1"; EngineFacts.dhakaTask "t2"])).
  { rewrite EngineFacts.crowded_proposals. left. }
  split; [exact H|].
  destruct (proposals_within_radius _ _ _ _ H)
    as (task & u & tlat & tlon & wlat & wlon & H1 & H2 & _ & _ & H3 & H4 & H5 & H6 & _
        & [_ H7] & _).
  exists task, u, tlat, tlon, wlat, wlon. auto 10.
Defined.

(** *** The average of bounded distances *)






Lemma successRate_bounds (allocated total : nat) :
  (allocated <= total)%nat -> (0 <= successRateOf allocated total <= 100)%R.
Proof.
  intros Hle. unfold successRateOf.
  destruct total as [|n]; cbn [Nat.ltb Nat.leb]; [lra|].
  assert (Hn : (0 < INR (S n))%R) by (apply lt_0_INR; lia).
  assert (Ha : (0 <= INR allocated <= INR (S n))%R)
    by (split; [apply pos_INR | apply le_INR; exact Hle]).
  assert (Hq : (0 <= INR allocated / INR (S n) <= 1)%R).
  { split.
    - apply Rmult_le_reg_r with (INR (S n)); [exact Hn|].
      unfold Rdiv. rewrite Rmult_assoc, Rinv_l by lra. lra.
    - apply Rmult_le_reg_r with (INR (S n)); [exact Hn|].
      unfold Rdiv. rewrite Rmult_assoc, Rinv_l by lra. lra. }
  lra.
Qed.

(** *** The accounting of a run *)




End RunFacts.

(** ** Two commits over the same table *)

Module RaceFacts.
Import Store Allocation.
Import CommitFacts.

(** The rows after the transaction, with no assumption on the proposals. *)
Lemma commit_fold_rows now allocations :
  forall ids rows,
    snd (foldl (commitStep now) (ids, rows) allocations)
    = map (committedRow now allocations) rows.
Proof.
  induction allocations as [|a allocations IH]; intros ids rows.
  - cbn [foldl snd]. induction rows as [|t rows IHr]; [reflexivity|].
    cbn [map]. rewrite <- IHr. reflexivity.
  - cbn [foldl]. rewrite commitStep_eq, IH, map_map.
    apply map_ext. intros t. apply committedRow_cons.
Qed.

(** An update never makes a row unassigned. *)
Lemma stillUnassigned_after now a rows taskId :
  stillUnassigned rows taskId = false ->
  stillUnassigned
    (map (fun t => if guardMatches (alloc_taskId a) t
                   then assignRow (alloc_workerId a) now t else t) rows) taskId = false.
Proof.
  unfold stillUnassigned. induction rows as [|t rows IH]; [reflexivity|].
  cbn [map existsb]. intros H. apply orb_false_iff in H as [H1 H2].
  rewrite (IH H2), orb_false_r.
  destruct (guardMatches (alloc_taskId a) t); [|exact H1].
  unfold guardMatches, assignRow. cbn [task_status task_id].
  rewrite bool_decide_eq_false_2 by discriminate. apply andb_false_r.
Qed.

Lemma stillUnassigned_self now a rows :
  stillUnassigned
    (map (fun t => if guardMatches (alloc_taskId a) t
                   then assignRow (alloc_workerId a) now t else t) rows)
    (alloc_taskId a) = false.
Proof.
  unfold stillUnassigned. induction rows as [|t rows IH]; [reflexivity|].
  cbn [map existsb]. rewrite IH, orb_false_r.
  destruct (guardMatches (alloc_taskId a) t) eqn:E; [|exact E].
  unfold guardMatches, assignRow. cbn [task_status task_id].
  rewrite bool_decide_eq_false_2 by discriminate. apply andb_false_r.
Qed.

(** The loop invariant of the transaction: the ids collected so far are
    distinct, each was unassigned in the table the transaction started from,
    and none is unassigned any more. *)
Definition collected (rows0 : list Task) (acc : list string * list Task) : Prop :=
  NoDup (fst acc)
  /\ (forall id, id ∈ fst acc -> stillUnassigned rows0 id = true)
  /\ (forall id, id ∈ fst acc -> stillUnassigned (snd acc) id = false)
  /\ (forall id, stillUnassigned rows0 id = false -> stillUnassigned (snd acc) id = false).

Lemma collected_step now rows0 acc a :
  collected rows0 acc -> collected rows0 (commitStep now acc a).
Proof.
  destruct acc as [ids rows]. intros (Hnd & Hwas & Hnow & Hmono).
  rewrite commitStep_eq. cbn [fst snd] in *.
  destruct (stillUnassigned rows (alloc_taskId a)) eqn:E.
  - repeat split; cbn [fst snd].
    + apply NoDup_app. split; [exact Hnd|]. split; [|apply NoDup_singleton].
      intros id Hid Hin. apply list_elem_of_singleton in Hin as ->.
      rewrite (Hnow _ Hid) in E. discriminate.
    + intros id Hid. apply elem_of_app in Hid as [Hid|Hid]; [exact (Hwas id Hid)|].
      apply list_elem_of_singleton in Hid as ->.
      destruct (stillUnassigned rows0 (alloc_taskId a)) eqn:E0; [reflexivity|].
      rewrite (Hmono _ E0) in E. discriminate.
    + intros id Hid. apply elem_of_app in Hid as [Hid|Hid].
      * apply stillUnassigned_after. exact (Hnow id Hid).
      * apply list_elem_of_singleton in Hid as ->. apply stillUnassigned_self.
    + intros id Hid. apply stillUnassigned_after. exact (Hmono id Hid).
  - repeat split; cbn [fst snd].
    + exact Hnd.
    + exact Hwas.
    + intros id Hid. apply stillUnassigned_after. exact (Hnow id Hid).
    + intros id Hid. apply stillUnassigned_after. exact (Hmono id Hid).
Qed.

Lemma collected_fold now rows0 allocations :
  forall acc, collected rows0 acc ->
              collected rows0 (foldl (commitStep now) acc allocations).
Proof.
  induction allocations as [|a allocations IH]; intros acc H; [exact H|].
  cbn [foldl]. apply IH, collected_step, H.
Qed.

Lemma collected_bulkUpdate now allocations rows :
  collected rows (bulkUpdateTaskAllocations now allocations rows).
Proof.
  rewrite bulkUpdate_fold. apply collected_fold.
  repeat split; cbn [fst snd].
  - apply NoDup_nil_2.
  - intros id Hid. inversion Hid.
  - intros id Hid. inversion Hid.
  - intros id Hid. exact Hid.
Qed.

(** X3.  Two transactions run one after the other over the same table, with
    any two lists of proposals (duplicates and unknown ids included): each
    returns its ids without repetition, no task id is returned by both, and
    the second leaves every row that the first left in a state other than
    unassigned exactly as it is.  A task is therefore given to at most one
    worker, whichever run proposes it. *)
Theorem commits_never_overlap (now1 now2 : Z) (allocations1 allocations2 : list Allocation)
    (rows : list Task) :
  exists ids1 rows1 ids2 rows2,
    bulkUpdateTaskAllocations now1 allocations1 rows = (ids1, rows1)
    /\ bulkUpdateTaskAllocations now2 allocations2 rows1 = (ids2, rows2)
    /\ NoDup ids1 /\ NoDup ids2
    /\ (forall id, id ∈ ids1 -> id ∉ ids2)
    /\ length rows2 = length rows
    /\ (forall i t, rows1 !! i = Some t -> task_status t <> unassigned ->
          rows2 !! i = Some t).
Proof.
  destruct (bulkUpdateTaskAllocations now1 allocations1 rows) as [ids1 rows1] eqn:E1.
  destruct (bulkUpdateTaskAllocations now2 allocations2 rows1) as [ids2 rows2] eqn:E2.
  exists ids1, rows1, ids2, rows2. split; [reflexivity|]. split; [exact E2|].
  destruct (collected_bulkUpdate now1 allocations1 rows) as (Hnd1 & _ & Hnow1 & _).
  destruct (collected_bulkUpdate now2 allocations2 rows1) as (Hnd2 & Hwas2 & _ & _).
  assert (R1 : rows1 = map (committedRow now1 allocations1) rows).
  { rewrite <- (commit_fold_rows now1 allocations1 [] rows), <- bulkUpdate_fold, E1.
    reflexivity. }
  assert (R2 : rows2 = map (committedRow now2 allocations2) rows1).
  { rewrite <- (commit_fold_rows now2 allocations2 [] rows1), <- bulkUpdate_fold, E2.
    reflexivity. }
  rewrite E1 in Hnd1, Hnow1. rewrite E2 in Hnd2, Hwas2. cbn [fst snd] in *.
  split; [exact Hnd1|]. split; [exact Hnd2|]. split; [|split].
  - intros id H1 H2. specialize (Hwas2 id H2).
    rewrite (Hnow1 id H1) in Hwas2. discriminate.
  - rewrite R2, R1, !length_map. reflexivity.
  - intros i t Hi Hs. rewrite R2, lookup_map_row, Hi.
    cbn [fmap option_fmap option_map]. f_equal.
    unfold committedRow. destruct (List.find _ allocations2); [|reflexivity].
    rewrite bool_decide_eq_false_2 by exact Hs. reflexivity.
Qed.

End RaceFacts.

(** ** The load snapshot *)

Module CountFacts.
Import Store Allocation.





End CountFacts.

(** ** What the score prefers *)

Module BalanceFacts.
Import SpatialIndex Store Allocation.
Local Open Scope R_scope.

(** Within the allocation radius the distance term is not clipped, and the
    score is [150 - distance/10 - load]. *)
Lemma score_within_radius (d : R) (currentTasks : nat) :
  0 <= d <= MAX_ALLOCATION_RADIUS ->
  calculateWorkerScore (Js.Fin d) currentTasks MAX_TASKS_PER_WORKER
  = 150 - d / 10 - INR currentTasks.
Proof.
  unfold MAX_ALLOCATION_RADIUS, calculateWorkerScore, MAX_TASKS_PER_WORKER.
  intros Hd. rewrite Rmax_right by lra.
  replace (INR 50) with 50 by (simpl; lra). lra.
Qed.

(** Among candidates that all lie within the radius, the chosen worker has
    at most one task more than any other candidate. *)
Lemma chosen_load_within_one nearbyWorkers counts task w d :
  (forall wp, wp ∈ nearbyWorkers ->
     exists x, distanceOf task wp = Js.Fin x /\ 0 <= x <= MAX_ALLOCATION_RADIUS) ->
  selectBestWorkerOptimized nearbyWorkers counts task = Some (w, d) ->
  forall wp, wp ∈ nearbyWorkers ->
    (currentTasksOf counts w <= currentTasksOf counts (wp_data wp) + 1)%nat.
Proof.
  intros Hnear Hsel wp Hwp. unfold selectBestWorkerOptimized in Hsel.
  assert (Hinv := ScorerFacts.selectInv_fold counts task nearbyWorkers []
                    (mkBest None (-1) Js.Infinity)).
  cbn [app] in Hinv.
  specialize (Hinv (conj eq_refl (fun wp (Hin : wp ∈ []) _ => not_elem_of_nil wp Hin))).
  unfold ScorerFacts.selectInv in Hinv.
  destruct (bestWorker _) as [w0|]; [|discriminate].
  injection Hsel as <- <-.
  destruct Hinv as (i & wp0 & Hi & <- & _ & Hel & _ & Hmax & _).
  destruct (lt_dec (currentTasksOf counts (wp_data wp)) MAX_TASKS_PER_WORKER) as [He|Hne].
  - apply list_elem_of_lookup in Hwp as [j Hj].
    specialize (Hmax j wp Hj He). unfold ScorerFacts.scoreOf in Hmax.
    destruct (Hnear wp (list_elem_of_lookup_2 _ _ _ Hj)) as (x & Ex & Hx).
    destruct (Hnear wp0 (list_elem_of_lookup_2 _ _ _ Hi)) as (x0 & Ex0 & Hx0).
    rewrite Ex, Ex0, !score_within_radius in Hmax by assumption.
    unfold MAX_ALLOCATION_RADIUS in *.
    apply INR_le. rewrite plus_INR. simpl (INR 1). lra.
  - unfold ScorerFacts.eligible in *. lia.
Qed.

(** X5.  The worker proposed for a task has at most one active task more
    than any other worker the index returns for that task: within the
    10 km radius the distance moves the score by at most one point, and one
    task moves it by exactly one, so the load decides and the distance only
    breaks near-ties. *)
Theorem proposal_balances_load workers counts task a :
  proposeForTask (buildSpatialIndex workers) counts task = Some a ->
  exists u tlat tlon,
    u ∈ workers /\ alloc_workerId a = user_id u
    /\ task_lat task = Some tlat /\ task_lon task = Some tlon
    /\ forall sp,
         sp ∈ findNearbyWorkers (buildSpatialIndex workers) tlat tlon MAX_ALLOCATION_RADIUS ->
         (currentTasksOf counts u <= currentTasksOf counts (pt_data sp) + 1)%nat.
Proof.
  unfold proposeForTask. intros H.
  destruct (task_lat task) as [tlat|] eqn:Etlat; [|discriminate].
  destruct (task_lon task) as [tlon|] eqn:Etlon; [|discriminate].
  destruct (negb _ || negb _); [discriminate|].
  destruct (length _ =? 0)%nat; [discriminate|].
  destruct (selectBestWorkerOptimized _ counts task) as [[w d]|] eqn:E; [|discriminate].
  injection H as <-. cbn [alloc_workerId].
  exists w, tlat, tlon.
  destruct (EngineFacts.selectBest_chosen _ _ _ _ _ E) as (wp & Hwp & Hw & _).
  apply list_elem_of_In, in_map_iff in Hwp as (sp0 & <- & Hsp0).
  apply list_elem_of_In, SpatialFacts.findNearbyWorkers_sound in Hsp0 as (Hin0 & _).
  cbn [wp_data] in Hw. subst w.
  split; [exact Hin0|]. split; [reflexivity|]. split; [reflexivity|]. split; [reflexivity|].
  intros sp Hsp.
  apply (chosen_load_within_one _ _ _ _ _ ) with (wp := mkWorkerPoint (pt_data sp) None) in E.
  - exact E.
  - intros wp Hwp. apply list_elem_of_In, in_map_iff in Hwp as (sp1 & <- & Hsp1).
    apply list_elem_of_In, SpatialFacts.elem_of_findNearbyWorkers in Hsp1
      as (key & bucket & _ & Hlook & Hb & Hd).
    destruct (SpatialFacts.index_invariant workers key bucket sp1 Hlook Hb)
      as (_ & _ & Hlat & Hlon & _).
    exists (haversineDistance tlat tlon (pt_lat sp1) (pt_lon sp1)).
    unfold distanceOf. cbn [wp_distance wp_data]. rewrite Etlat, Etlon, Hlat, Hlon.
    split; [reflexivity|]. split; [apply RunFacts.haversine_nonneg | exact Hd].
  - apply list_elem_of_In, in_map_iff. exists sp. split; [reflexivity|].
    apply list_elem_of_In. exact Hsp.
Qed.

Lemma proposal_balances_load_witness :
  proposeForTask (buildSpatialIndex [EngineFacts.dhakaWorker]) ∅ (EngineFacts.dhakaTask "t1")
  = Some (mkAllocation "t1" "w1"
            (Some (Js.Fin (haversineDistance 23.81 90.412 23.81 90.412))))
  /\ exists u tlat tlon,
       u ∈ [EngineFacts.dhakaWorker]
       /\ task_lat (EngineFacts.dhakaTask "t1") = Some tlat
       /\ task_lon (EngineFacts.dhakaTask "t1") = Some tlon
       /\ forall sp,
            sp ∈ findNearbyWorkers (buildSpatialIndex [EngineFacts.dhakaWorker])
                   tlat tlon MAX_ALLOCATION_RADIUS ->
            (currentTasksOf ∅ u <= currentTasksOf ∅ (pt_data sp) + 1)%nat.
Proof.
  assert (H : proposeForTask (buildSpatialIndex [EngineFacts.dhakaWorker]) ∅
                (EngineFacts.dhakaTask "t1")
              = Some (mkAllocation "t1" "w1"
                        (Some (Js.Fin (haversineDistance 23.81 90.412 23.81 90.412))))).
  { apply (EngineFacts.propose_single EngineFacts.dhakaWorker 23.81 90.412 ∅
             (EngineFacts.dhakaTask "t1") 23.81 90.412);
      try reflexivity; try lra.
    - apply EngineFacts.own_cell_is_searched.
    - rewrite SpatialFacts.haversine_self. unfold MAX_ALLOCATION_RADIUS. lra.
    - unfold currentTasksOf, MAX_TASKS_PER_WORKER. rewrite lookup_empty. cbn. lia. }
  split; [exact H|].
  destruct (proposal_balances_load _ _ _ _ H) as (u & tlat & tlon & H1 & _ & H2 & H3 & H4).
  exists u, tlat, tlon. auto.
Defined.

End BalanceFacts.

(** ** What the index holds and what a query returns *)

Module IndexFacts.
Import SpatialIndex.
Local Open Scope R_scope.

(** Is the worker indexed at all? *)
Definition indexed (u : User) : bool :=
  Js.truthy (user_lat u) && Js.truthy (user_lon u).

Lemma indexWorker_skip idx u : indexed u = false -> indexWorker idx u = idx.
Proof.
  unfold indexed, indexWorker. intros H.
  destruct (user_lat u), (user_lon u); try reflexivity. rewrite H. reflexivity.
Qed.

Lemma indexWorker_insert idx u :
  indexed u = true ->
  exists lat lon,
    user_lat u = Some lat /\ user_lon u = Some lon /\ lat <> 0 /\ lon <> 0
    /\ indexWorker idx u
       = <[getGridKey lat lon :=
             default [] (idx !! getGridKey lat lon) ++ [mkPoint (user_id u) lat lon u]]> idx.
Proof.
  unfold indexed. intros H. apply andb_true_iff in H as [H1 H2].
  assert (H1' := H1). assert (H2' := H2).
  apply SpatialFacts.truthy_spec in H1' as (lat & Elat & Hlat).
  apply SpatialFacts.truthy_spec in H2' as (lon & Elon & Hlon).
  exists lat, lon. repeat (split; [assumption|]).
  unfold indexWorker. rewrite Elat, Elon. rewrite Elat in H1. rewrite Elon in H2.
  rewrite H1, H2. reflexivity.
Qed.



(** *** Statistics of the index *)

Definition totalOf (idx : Index) : nat :=
  map_fold (fun _ workers acc => (acc + length workers)%nat) 0%nat idx.

Lemma totalOf_insert_new (idx : Index) key bucket :
  idx !! key = None ->
  totalOf (<[key := bucket]> idx) = (totalOf idx + length bucket)%nat.
Proof.
  intros Hnone. unfold totalOf.
  rewrite map_fold_insert_L; [reflexivity| |exact Hnone].
  intros. lia.
Qed.

Lemma totalOf_insert_old (idx : Index) key old bucket :
  idx !! key = Some old ->
  (totalOf (<[key := bucket]> idx) + length old = totalOf idx + length bucket)%nat.
Proof.
  intros Hsome.
  rewrite <- (insert_delete_eq idx key bucket).
  rewrite totalOf_insert_new by apply lookup_delete_eq.
  unfold totalOf at 2.
  rewrite (map_fold_delete_L _ _ key old idx); [fold (totalOf (delete key idx)); lia| |exact Hsome].
  intros. lia.
Qed.

(** The counters of [getStats] along [buildSpatialIndex]. *)
Lemma stats_invariant workers :
  totalOf (buildSpatialIndex workers) = length (List.filter indexed workers)
  /\ (size (buildSpatialIndex workers) <= totalOf (buildSpatialIndex workers))%nat
  /\ (workers <> [] -> List.filter indexed workers <> [] ->
      (0 < size (buildSpatialIndex workers))%nat).
Proof.
  induction workers as [|w workers IH] using rev_ind.
  - unfold buildSpatialIndex, totalOf. cbn [foldl List.filter length].
    rewrite map_fold_empty, map_size_empty. repeat split; [lia | congruence].
  - destruct IH as (Htot & Hsize & _).
    rewrite SpatialFacts.buildSpatialIndex_snoc, List.filter_app, length_app.
    cbn [List.filter].
    destruct (indexed w) eqn:Ew.
    + destruct (indexWorker_insert (buildSpatialIndex workers) w Ew)
        as (lat & lon & _ & _ & _ & _ & ->).
      cbn [length].
      destruct (buildSpatialIndex workers !! getGridKey lat lon) as [old|] eqn:Eold.
      * cbn [default from_option Datatypes.id].
        assert (H := totalOf_insert_old _ _ old (old ++ [mkPoint (user_id w) lat lon w]) Eold).
        rewrite length_app in H. cbn [length] in H.
        rewrite map_size_insert_Some by eauto.
        assert (Hpos : (0 < size (buildSpatialIndex workers))%nat).
        { destruct (decide (size (buildSpatialIndex workers) = 0%nat)) as [Hz|Hz]; [|lia].
          apply map_size_empty_iff in Hz. rewrite Hz, lookup_empty in Eold. discriminate. }
        repeat split; lia.
      * cbn [default from_option Datatypes.id app].
        rewrite totalOf_insert_new by exact Eold. cbn [length].
        rewrite map_size_insert_None by exact Eold.
        repeat split; lia.
    + rewrite indexWorker_skip by exact Ew. cbn [length].
      split; [lia|]. split; [exact Hsize|].
      intros _ Hne. rewrite app_nil_r in Hne.
      destruct (List.filter indexed workers) eqn:Ef; [congruence|].
      cbn [length] in Htot.
      destruct (decide (size (buildSpatialIndex workers) = 0%nat)) as [Hz|Hz]; [|lia].
      apply map_size_empty_iff in Hz. rewrite Hz in Htot.
      unfold totalOf in Htot. rewrite map_fold_empty in Htot. lia.
Qed.

(** X7.  [getStats] after [buildSpatialIndex]: [totalWorkers] is the number
    of workers with both coordinates non-zero, [gridCells] is at most that
    number and is 0 only if it is, and the average per cell is at least 1
    whenever a worker is indexed. *)
Theorem stats_count_indexed_workers (workers : list User) :
  let stats := getStats (buildSpatialIndex workers) in
  st_totalWorkers stats = length (List.filter indexed workers)
  /\ (st_gridCells stats <= st_totalWorkers stats)%nat
  /\ (st_gridCells stats = 0%nat <-> st_totalWorkers stats = 0%nat)
  /\ (st_totalWorkers stats = 0%nat -> st_avgWorkersPerCell stats = 0)
  /\ ((0 < st_totalWorkers stats)%nat -> 1 <= st_avgWorkersPerCell stats).
Proof.
  cbv zeta. unfold getStats. cbn [st_totalWorkers st_gridCells st_avgWorkersPerCell].
  fold (totalOf (buildSpatialIndex workers)).
  destruct (stats_invariant workers) as (Htot & Hsize & Hpos).
  set (idx := buildSpatialIndex workers) in *.
  assert (Hzero : size idx = 0%nat <-> totalOf idx = 0%nat).
  { split; intros Hz.
    - apply map_size_empty_iff in Hz. rewrite Hz. unfold totalOf. apply map_fold_empty.
    - lia. }
  split; [exact Htot|]. split; [exact Hsize|]. split; [exact Hzero|]. split.
  - intros Hz. apply Hzero in Hz. rewrite Hz. cbn [Nat.ltb Nat.leb]. reflexivity.
  - intros Hp. assert (Hs : (0 < size idx)%nat) by lia.
    apply Nat.ltb_lt in Hs as Hb. rewrite Hb.
    assert (0 < INR (size idx)) by (apply lt_0_INR; lia).
    assert (INR (size idx) <= INR (totalOf idx)) by (apply le_INR; exact Hsize).
    apply Rmult_le_reg_r with (INR (size idx)); [assumption|].
    unfold Rdiv. rewrite Rmult_assoc, Rinv_l by lra. lra.
Qed.

End IndexFacts.

(** ** The breaker after a failed probe *)

Module ProbeFacts.
Import Cache.
Import BreakerFacts.

(** One wrapped command that finds the breaker HALF_OPEN while Redis is
    down: the command is sent, its error comes back, and the breaker only
    counts. *)
Lemma half_open_failure {A} (f : gmap string RVal -> A * gmap string RVal) env w :
  cb_state (w_breaker w) = HALF_OPEN ->
  env_fails env (S (w_tick w)) = true ->
  executeWithCircuitBreaker (redisCmd f) env w
  = (Throw "Redis connection error",
     mkWorld (w_db w) (w_redis w)
       (mkBreaker (S (cb_failures (w_breaker w))) (env_clock env (S (S (w_tick w))))
                  HALF_OPEN)
       (S (S (S (w_tick w))))).
Proof.
  intros Hst Hdown. breaker_cases w. subst s.
  cbn [cb_state stateEqb]. rewrite Hdown. reflexivity.
Qed.

Lemma attempt_half_open {A} (f : gmap string RVal -> A * gmap string RVal) env w :
  (forall k, env_fails env k = true) ->
  cb_state (w_breaker w) = HALF_OPEN ->
  exists w', attempt f env w = (Ok tt, w')
    /\ cb_state (w_breaker w') = HALF_OPEN
    /\ cb_failures (w_breaker w') = S (cb_failures (w_breaker w))
    /\ w_tick w' = (w_tick w + 3)%nat
    /\ w_redis w' = w_redis w /\ w_db w' = w_db w.
Proof.
  intros Hdown Hst. unfold attempt, tryCatch, bind.
  rewrite (half_open_failure f env w Hst (Hdown _)).
  eexists. split; [reflexivity|]. cbn. repeat split; try reflexivity; lia.
Qed.

(** X8.  Once the breaker is HALF_OPEN, failures no longer open it: while
    Redis stays down, each of any number of wrapped commands is sent to
    Redis (three clock ticks each, where a fast failure takes one), the
    failure count grows without bound past the threshold of 5, and the state
    stays HALF_OPEN. *)
Theorem half_open_never_reopens {A} (f : gmap string RVal -> A * gmap string RVal)
    (env : Env) (n : nat) :
  (forall k, env_fails env k = true) ->
  forall w,
    cb_state (w_breaker w) = HALF_OPEN ->
    exists w',
      attempts n f env w = (Ok tt, w')
      /\ cb_state (w_breaker w') = HALF_OPEN
      /\ cb_failures (w_breaker w') = (cb_failures (w_breaker w) + n)%nat
      /\ w_tick w' = (w_tick w + 3 * n)%nat
      /\ w_redis w' = w_redis w /\ w_db w' = w_db w.
Proof.
  intros Hdown. induction n as [|n IH]; intros w Hst.
  - exists w. cbn [attempts]. unfold ret. repeat split; try reflexivity; try exact Hst; lia.
  - destruct (attempt_half_open f env w Hdown Hst)
      as (w1 & E1 & Hst1 & Hf1 & Ht1 & Hr1 & Hd1).
    destruct (IH w1 Hst1) as (w2 & E2 & Hst2 & Hf2 & Ht2 & Hr2 & Hd2).
    exists w2. cbn [attempts]. unfold bind at 1. rewrite E1, E2.
    repeat split; [exact Hst2 | lia | lia | congruence | congruence].
Qed.

(** Redis down for good, and a world whose breaker has just gone HALF_OPEN
    with the five failures that opened it. *)
Definition downEnv : Env :=
  mkEnv (fun _ => true) (fun n => Z.of_nat n) (fun rows => rows).

Definition probingWorld : World :=
  mkWorld (Store.mkDB [] []) ∅ (mkBreaker 5 0 HALF_OPEN) 0.

Lemma half_open_never_reopens_witness :
  exists w',
    attempts 100 (fun r => (r !! "k", r)) downEnv probingWorld = (Ok tt, w')
    /\ cb_state (w_breaker w') = HALF_OPEN
    /\ cb_failures (w_breaker w') = 105%nat.
Proof.
  destruct (half_open_never_reopens (fun r => (r !! "k", r)) downEnv 100
              (fun _ => eq_refl) probingWorld eq_refl)
    as (w' & E & Hst & Hf & _).
  exists w'. split; [exact E|]. split; [exact Hst|]. exact Hf.
Defined.

End ProbeFacts.

(** ** The cached task summary of a worker *)

Module SummaryFacts.
Import Store Cache.
Import BreakerFacts.

Definition summaryKey (workerId : string) : string := "worker:summary:" +:+ workerId.

(** The guarded read of the summary key, as [getWorkerTaskSummaryCached]
    and the two updaters start. *)
Definition readSummary (cacheKey : string) : M (option Summary) :=
  tryCatch
    (let* cached := executeWithCircuitBreaker (redis_get cacheKey) in
     match cached with
     | Some v =>
         if rvalTruthy v then
           match parseSummary v with
           | Some s => ret (Some s)
           | None => throw "SyntaxError"
           end
         else ret None
     | None => ret None
     end)
    (fun _ => ret None).

(** The miss path of [getWorkerTaskSummaryCached]. *)
Definition fromStore (workerId : string) : M Summary :=
  let* db := getDB in
  let summary := summaryFromStore db workerId in
  tryCatch
    (executeWithCircuitBreaker
       (redis_setex (summaryKey workerId) SUMMARY_TTL (VSummary summary)))
    (fun _ => ret tt) ;;
  ret summary.

Lemma getWorkerTaskSummaryCached_eq workerId :
  getWorkerTaskSummaryCached workerId
  = (let* hit := readSummary (summaryKey workerId) in
     match hit with
     | Some s => ret s
     | None => fromStore workerId
     end).
Proof. reflexivity. Qed.

Lemma readSummary_run cacheKey env w :
  exists hit w1,
    readSummary cacheKey env w = (Ok hit, w1)
    /\ w_db w1 = w_db w /\ w_redis w1 = w_redis w
    /\ (forall s, hit = Some s -> w_redis w !! cacheKey = Some (VSummary s))
    /\ (w_redis w !! cacheKey = None -> hit = None).
Proof.
  unfold readSummary, tryCatch, bind, redis_get.
  rewrite execute_redis. cbv zeta.
  destruct (stateEqb _ OPEN);
    [eexists _, _; split; [reflexivity|]; cbn; repeat split; intros; congruence|].
  destruct (env_fails env (S (w_tick w)));
    [eexists _, _; split; [reflexivity|]; cbn; repeat split; intros; congruence|].
  cbn [fst snd].
  destruct (w_redis w !! cacheKey) as [v|] eqn:E;
    [|eexists _, _; split; [reflexivity|]; cbn; repeat split; intros; congruence].
  destruct (rvalTruthy v) eqn:Et;
    [|eexists _, _; split; [reflexivity|]; cbn; repeat split; intros; congruence].
  destruct v; cbn [parseSummary];
    eexists _, _; (split; [reflexivity|]); cbn; repeat split; intros; congruence.
Qed.

Lemma fromStore_run workerId env w :
  exists w',
    fromStore workerId env w = (Ok (summaryFromStore (w_db w) workerId), w')
    /\ w_db w' = w_db w
    /\ (forall k, k <> summaryKey workerId -> w_redis w' !! k = w_redis w !! k)
    /\ (w_redis w' !! summaryKey workerId = w_redis w !! summaryKey workerId
        \/ w_redis w' !! summaryKey workerId
           = Some (VSummary (summaryFromStore (w_db w) workerId))).
Proof.
  unfold fromStore, getDB, tryCatch, redis_setex. unfold bind at 1. cbv zeta.
  unfold bind at 1. rewrite execute_redis. cbv zeta.
  destruct (stateEqb _ OPEN).
  { eexists. split; [reflexivity|]. cbn. auto. }
  destruct (env_fails env (S (w_tick w))).
  { eexists. split; [reflexivity|]. cbn. auto. }
  eexists. split; [reflexivity|]. cbn [fst snd w_db w_redis]. split; [reflexivity|]. split.
  - intros k Hk. apply lookup_insert_ne. congruence.
  - right. apply lookup_insert_eq.
Qed.

(** X9.  [getWorkerTaskSummaryCached] never throws and never writes to the
    store, whatever Redis and the breaker do.  It returns the summary cached
    under the worker's key or the one counted from the store; with nothing
    cached it is the store's.  The only key it may change is the worker's
    own, and only to the store's summary. *)
Theorem summary_read_through (workerId : string) (env : Env) (w : World) :
  exists s w',
    getWorkerTaskSummaryCached workerId env w = (Ok s, w')
    /\ w_db w' = w_db w
    /\ (s = summaryFromStore (w_db w) workerId
        \/ w_redis w !! summaryKey workerId = Some (VSummary s))
    /\ (w_redis w !! summaryKey workerId = None ->
        s = summaryFromStore (w_db w) workerId)
    /\ (forall k, k <> summaryKey workerId -> w_redis w' !! k = w_redis w !! k)
    /\ (w_redis w' !! summaryKey workerId = w_redis w !! summaryKey workerId
        \/ w_redis w' !! summaryKey workerId
           = Some (VSummary (summaryFromStore (w_db w) workerId))).
Proof.
  rewrite getWorkerTaskSummaryCached_eq. unfold bind.
  destruct (readSummary_run (summaryKey workerId) env w)
    as (hit & w1 & E1 & Hdb1 & Hr1 & Hhit & Hmiss).
  rewrite E1. destruct hit as [s|].
  - exists s, w1. unfold ret. split; [reflexivity|]. split; [exact Hdb1|].
    split; [right; auto|]. split.
    + intros Hnone. rewrite (Hhit s eq_refl) in Hnone. discriminate.
    + rewrite Hr1. auto.
  - destruct (fromStore_run workerId env w1) as (w' & E2 & Hdb2 & Hother & Hkey).
    rewrite Hdb1 in E2. rewrite Hdb1 in Hkey. rewrite Hr1 in Hother, Hkey.
    exists (summaryFromStore (w_db w) workerId), w'.
    split; [exact E2|]. split; [congruence|]. auto.
Qed.

(** A wrapped command on a healthy Redis behind a closed breaker. *)
Lemma execute_healthy {A} (f : gmap string RVal -> A * gmap string RVal) env w :
  env_fails env (S (w_tick w)) = false ->
  cb_state (w_breaker w) = CLOSED ->
  (cb_failures (w_breaker w) < failureThreshold)%nat ->
  executeWithCircuitBreaker (redisCmd f) env w
  = (Ok (fst (f (w_redis w))),
     mkWorld (w_db w) (snd (f (w_redis w)))
             (mkBreaker 0 (cb_lastFailure (w_breaker w)) CLOSED)
             (S (S (w_tick w)))).
Proof.
  intros Hup Hst Hlt. breaker_cases w. subst s.
  destruct (Nat.leb_spec failureThreshold n); [lia|].
  cbn [cb_state stateEqb]. rewrite Hup. reflexivity.
Qed.

(** X10.  A bulk update that finds a summary cached, on a healthy Redis
    behind a closed breaker, stores the summary with [assigned] raised by the
    given count and with a [total] that is the sum of the five status counts
    plus the total that was cached: the old total is counted again.  For a
    cached summary whose total was the sum of its counts, the stored total
    is twice the old total plus the count, one old total too many. *)
Theorem bulk_update_counts_old_total_again (workerId : string) (assignedCount : nat)
    (env : Env) (w : World) (s : Summary) :
  (forall k, env_fails env k = false) ->
  cb_state (w_breaker w) = CLOSED ->
  (cb_failures (w_breaker w) < failureThreshold)%nat ->
  w_redis w !! summaryKey workerId = Some (VSummary s) ->
  exists w' s',
    updateWorkerTaskSummaryCacheBulk workerId assignedCount env w = (Ok true, w')
    /\ w_redis w' !! summaryKey workerId = Some (VSummary s')
    /\ sm_assigned s' = (sm_assigned s + assignedCount)%nat
    /\ sm_unassigned s' = sm_unassigned s /\ sm_accepted s' = sm_accepted s
    /\ sm_completed s' = sm_completed s /\ sm_rejected s' = sm_rejected s
    /\ sm_total s'
       = (sm_unassigned s' + sm_assigned s' + sm_accepted s' + sm_completed s'
          + sm_rejected s' + sm_total s)%nat
    /\ (sm_total s = (sm_unassigned s + sm_assigned s + sm_accepted s + sm_completed s
                      + sm_rejected s)%nat ->
        sm_total s' = (2 * sm_total s + assignedCount)%nat).
Proof.
  intros Hup Hst Hlt Hcached.
  unfold updateWorkerTaskSummaryCacheBulk, redis_get, redis_setex.
  fold (summaryKey workerId).
  unfold bind at 1. unfold tryCatch at 1. unfold bind at 1.
  rewrite (execute_healthy _ env w (Hup _) Hst Hlt). cbn [fst snd].
  rewrite Hcached. cbn [rvalTruthy parseSummary].
  unfold tryCatch at 1. unfold bind at 1.
  rewrite execute_healthy;
    [|apply Hup | reflexivity | cbn; unfold failureThreshold; lia].
  cbn [fst snd w_redis w_db w_breaker w_tick]. unfold ret.
  eexists _, _. split; [reflexivity|]. cbn [w_redis].
  rewrite lookup_insert_eq. split; [reflexivity|].
  destruct (0 <? assignedCount)%nat eqn:En.
  - cbn. repeat split; lia.
  - apply Nat.ltb_ge in En. assert (assignedCount = 0%nat) as -> by lia.
    cbn. repeat split; lia.
Qed.

(** A healthy Redis holding a consistent summary for worker [w1]. *)
Definition healthyEnv : Env :=
  mkEnv (fun _ => false) (fun n => Z.of_nat n) (fun rows => rows).

Definition cachedWorld : World :=
  mkWorld (mkDB [] [])
          (<[summaryKey "w1" := VSummary (mkSummary 0 1 0 0 0 1)]> ∅)
          initialBreaker 0.

Lemma bulk_update_counts_old_total_again_witness :
  exists w' s',
    updateWorkerTaskSummaryCacheBulk "w1" 2 healthyEnv cachedWorld = (Ok true, w')
    /\ w_redis w' !! summaryKey "w1" = Some (VSummary s')
    /\ sm_assigned s' = 3%nat /\ sm_total s' = 4%nat.
Proof.
  destruct (bulk_update_counts_old_total_again "w1" 2 healthyEnv cachedWorld
              (mkSummary 0 1 0 0 0 1) (fun _ => eq_refl) eq_refl)
    as (w' & s' & E & Hk & Ha & _ & _ & _ & _ & _ & Ht).
  - cbn. unfold failureThreshold. lia.
  - reflexivity.
  - exists w', s'. split; [exact E|]. split; [exact Hk|].
    split; [exact Ha | exact (Ht eq_refl)].
Defined.

End SummaryFacts.

(** ** Reallocation policy under environment overrides *)

Module PolicyFacts.
Import Reallocation SharedConfig.

(** The first call in a process. *)
Lemma load_is_first_shared_load env :
  loadTaskReallocationConfig env
  = fst (loadTaskReallocationConfigShared env
           (allowedStatuses defaultTaskReallocationConfig)).
Proof. reflexivity. Qed.

Lemma lookup_setAllowed a s s' b :
  lookupAllowed (setAllowed a s b) s' = if bool_decide (s = s') then b else lookupAllowed a s'.
Proof. destruct s, s'; reflexivity. Qed.

(** What a call leaves in the shared object, status by status. *)
Lemma shared_load_lookup env shared s :
  lookupAllowed (snd (loadTaskReallocationConfigShared env shared)) s
  = match env !! overrideVar s with
    | Some envValue => String.eqb (toLowerCase envValue) "true"
    | None => lookupAllowed shared s
    end.
Proof.
  unfold loadTaskReallocationConfigShared, allStatuses, overrideVar. cbn [snd foldl].
  assert (K : forall st,
    "TASK_REALLOCATION_" +:+ toUpperCase (statusName st)
    = match st with
      | unassigned => "TASK_REALLOCATION_UNASSIGNED"
      | assigned => "TASK_REALLOCATION_ASSIGNED"
      | accepted => "TASK_REALLOCATION_ACCEPTED"
      | rejected => "TASK_REALLOCATION_REJECTED"
      | completed => "TASK_REALLOCATION_COMPLETED"
      end) by (intros []; reflexivity).
  rewrite !K.
  destruct s; cbv iota;
    destruct (env !! "TASK_REALLOCATION_UNASSIGNED"),
             (env !! "TASK_REALLOCATION_ASSIGNED"),
             (env !! "TASK_REALLOCATION_ACCEPTED"),
             (env !! "TASK_REALLOCATION_REJECTED"),
             (env !! "TASK_REALLOCATION_COMPLETED");
    reflexivity.
Qed.

(** X11.  [loadTaskReallocationConfig] and [canReallocateTask] together: a
    status can be reallocated exactly when its variable
    [TASK_REALLOCATION_<STATUS>] is set to a spelling of [true] in any
    letter case, or is not set and the status is not [completed]; any other
    value of the variable, the empty string included, forbids it.
    [TASK_REALLOCATION_DEFAULT] never changes the answer. *)
Theorem override_decides_reallocation (env : gmap string string) (s : TaskStatus) :
  canReallocateTask s (loadTaskReallocationConfig env)
  = match env !! overrideVar s with
    | Some envValue => String.eqb (toLowerCase envValue) "true"
    | None => match s with completed => false | _ => true end
    end
  /\ (forall v, canReallocateTask s (loadTaskReallocationConfig (<["TASK_REALLOCATION_DEFAULT" := v]> env))
               = canReallocateTask s (loadTaskReallocationConfig env)).
Proof.
  assert (H : forall env0,
    canReallocateTask s (loadTaskReallocationConfig env0)
    = match env0 !! overrideVar s with
      | Some envValue => String.eqb (toLowerCase envValue) "true"
      | None => match s with completed => false | _ => true end
      end).
  { intros env0. unfold canReallocateTask.
    change (allowedStatuses (loadTaskReallocationConfig env0))
      with (snd (loadTaskReallocationConfigShared env0
                   (allowedStatuses defaultTaskReallocationConfig))).
    rewrite shared_load_lookup. destruct (env0 !! overrideVar s); [reflexivity|].
    destruct s; reflexivity. }
  split; [apply H|].
  intros v. rewrite !H. rewrite lookup_insert_ne; [reflexivity|].
  destruct s; vm_compute; discriminate.
Qed.

(** X12.  The object that [loadTaskReallocationConfig] writes its overrides
    into is the [allowedStatuses] of the module-level default, which every
    later call starts from.  So a second call made after the variables are
    gone returns the permissions of the first call, not the defaults: an
    override, once loaded, stays for the life of the process. *)
Theorem override_outlives_its_variable (env : gmap string string) (shared : AllowedStatuses)
    (s : TaskStatus) :
  let first := loadTaskReallocationConfigShared env shared in
  let second := loadTaskReallocationConfigShared ∅ (snd first) in
  allowedStatuses (fst first) = snd first
  /\ canReallocateTask s (fst second) = canReallocateTask s (fst first)
  /\ canReallocateTask completed
       (fst (loadTaskReallocationConfigShared ∅
               (snd (loadTaskReallocationConfigShared
                       (<["TASK_REALLOCATION_COMPLETED" := "TRUE"]> ∅)
                       (allowedStatuses defaultTaskReallocationConfig)))))
     = true.
Proof.
  cbv zeta. split; [reflexivity|]. split; [|vm_compute; reflexivity].
  unfold canReallocateTask.
  change (allowedStatuses (fst (loadTaskReallocationConfigShared ∅
                                  (snd (loadTaskReallocationConfigShared env shared)))))
    with (snd (loadTaskReallocationConfigShared ∅
                 (snd (loadTaskReallocationConfigShared env shared)))).
  rewrite shared_load_lookup, lookup_empty. reflexivity.
Qed.

End PolicyFacts.

(** ** Deleting unassigned tasks *)

Module DeletionFacts.
Import Store Cache Deletion.

Lemma deleteMatches_app l1 l2 t :
  deleteMatches (l1 ++ l2) t = deleteMatches l1 t || deleteMatches l2 t.
Proof.
  unfold deleteMatches.
  destruct (bool_decide (task_status t = unassigned)); [|rewrite !andb_false_r; reflexivity].
  rewrite !andb_true_r.
  destruct (decide (task_id t ∈ l1)) as [H1|H1], (decide (task_id t ∈ l2)) as [H2|H2];
    rewrite ?(bool_decide_eq_true_2 _ H1), ?(bool_decide_eq_false_2 _ H1),
            ?(bool_decide_eq_true_2 _ H2), ?(bool_decide_eq_false_2 _ H2);
    cbn [orb];
    first [ apply bool_decide_eq_true_2; apply elem_of_app; auto
          | apply bool_decide_eq_false_2; rewrite elem_of_app; tauto ].
Qed.

(** Deleting chunk after chunk is deleting the concatenation at once. *)
Lemma delete_in_two l1 l2 rows :
  List.filter (fun t => negb (deleteMatches l2 t))
              (List.filter (fun t => negb (deleteMatches l1 t)) rows)
  = List.filter (fun t => negb (deleteMatches (l1 ++ l2) t)) rows
  /\ (length (List.filter (deleteMatches l1) rows)
      + length (List.filter (deleteMatches l2)
                            (List.filter (fun t => negb (deleteMatches l1 t)) rows))
      = length (List.filter (deleteMatches (l1 ++ l2)) rows))%nat.
Proof.
  induction rows as [|t rows [IH1 IH2]]; [split; reflexivity|].
  cbn [List.filter]. rewrite deleteMatches_app.
  destruct (deleteMatches l1 t) eqn:E1; cbn [negb orb List.filter length].
  - split; [exact IH1 | lia].
  - destruct (deleteMatches l2 t) eqn:E2; cbn [negb length].
    + split; [exact IH1 | lia].
    + split; [f_equal; exact IH1 | exact IH2].
Qed.

Lemma delete_nothing rows :
  List.filter (deleteMatches []) rows = []
  /\ List.filter (fun t => negb (deleteMatches [] t)) rows = rows.
Proof.
  induction rows as [|t rows [IH1 IH2]]; [split; reflexivity|].
  cbn [List.filter]. unfold deleteMatches at 1 3.
  rewrite bool_decide_eq_false_2 by apply not_elem_of_nil.
  cbn [andb negb]. split; [exact IH1 | f_equal; exact IH2].
Qed.

Lemma deleteLoop_spec (chunkSize : nat) (ids : list string) :
  (0 < chunkSize)%nat ->
  forall fuel i rows totalDeleted,
    (length ids - i <= fuel)%nat ->
    deleteLoop fuel ids chunkSize i rows totalDeleted
    = Some ((totalDeleted + length (List.filter (deleteMatches (drop i ids)) rows))%nat,
            List.filter (fun t => negb (deleteMatches (drop i ids) t)) rows).
Proof.
  intros Hc.
  assert (Hdone : forall i rows totalDeleted, (length ids <= i)%nat ->
            Some (totalDeleted, rows)
            = Some ((totalDeleted
                     + length (List.filter (deleteMatches (drop i ids)) rows))%nat,
                    List.filter (fun t => negb (deleteMatches (drop i ids) t)) rows)).
  { intros i rows totalDeleted Hge. rewrite drop_ge by lia.
    destruct (delete_nothing rows) as [-> ->]. cbn [length]. do 2 f_equal. lia. }
  induction fuel as [|fuel IH]; intros i rows totalDeleted Hfuel.
  - cbn [deleteLoop]. destruct (Nat.ltb_spec i (length ids)); [lia|].
    apply Hdone. assumption.
  - cbn [deleteLoop]. destruct (Nat.ltb_spec i (length ids)) as [Hlt|Hge].
    + unfold deleteManyUnassigned. rewrite IH by lia.
      destruct (delete_in_two (take chunkSize (drop i ids)) (drop chunkSize (drop i ids)) rows)
        as [H1 H2].
      rewrite take_drop in H1, H2. rewrite drop_drop in H1, H2.
      rewrite H1, <- H2. do 2 f_equal. lia.
    + apply Hdone. assumption.
Qed.

(** X13.  With a positive chunk size and a non-empty id list,
    [deleteUnassignedTasks] ends after at most one round per id, removes
    exactly the rows that are unassigned and named in the list, in whatever
    chunks the list was cut, keeps every other row in its place, and
    reports the number of rows it removed. *)
Theorem delete_removes_listed_unassigned (ids : list string) (chunkSize : nat)
    (rows : list Task) :
  ids <> [] -> (0 < chunkSize)%nat ->
  exists totalDeleted rows',
    deleteUnassignedTasks (length ids) ids chunkSize rows = Some (Ok totalDeleted, rows')
    /\ rows' = List.filter (fun t => negb (deleteMatches ids t)) rows
    /\ totalDeleted = length (List.filter (deleteMatches ids) rows)
    /\ (totalDeleted + length rows' = length rows)%nat
    /\ (forall t, t ∈ rows' <->
          t ∈ rows /\ ~ (task_id t ∈ ids /\ task_status t = unassigned)).
Proof.
  intros Hids Hc. unfold deleteUnassignedTasks.
  destruct ids as [|id ids]; [congruence|]. cbn [length Nat.eqb].
  rewrite (deleteLoop_spec chunkSize (id :: ids) Hc) by (cbn [length]; lia).
  rewrite drop_0. cbn [Nat.add].
  eexists _, _. split; [reflexivity|]. split; [reflexivity|]. split; [reflexivity|].
  split.
  - induction rows as [|t rows IHr]; [reflexivity|].
    cbn [List.filter]. destruct (deleteMatches (id :: ids) t); cbn [negb length]; lia.
  - intros t. rewrite list_elem_of_In, filter_In, <- list_elem_of_In.
    unfold deleteMatches. rewrite negb_true_iff, andb_false_iff,
      !bool_decide_eq_false. tauto.
Qed.

Definition staleRows : list Task :=
  [mkTask "t1" None None unassigned true None None;
   mkTask "t2" None None assigned false (Some "w1") (Some 1);
   mkTask "t3" None None unassigned false None None].

Lemma delete_removes_listed_unassigned_witness :
  exists totalDeleted rows',
    deleteUnassignedTasks 3 ["t1"; "t2"; "t4"] 2 staleRows = Some (Ok totalDeleted, rows')
    /\ rows' = List.filter (fun t => negb (deleteMatches ["t1"; "t2"; "t4"] t)) staleRows
    /\ (totalDeleted + length rows' = 3)%nat.
Proof.
  destruct (delete_removes_listed_unassigned ["t1"; "t2"; "t4"] 2 staleRows)
    as (n & rows' & E & Hrows & _ & Hn & _).
  - discriminate.
  - lia.
  - exists n, rows'. split; [exact E|]. split; [exact Hrows | exact Hn].
Defined.

Lemma deleteLoop_stuck (ids : list string) :
  forall fuel i rows totalDeleted,
    (i < length ids)%nat -> deleteLoop fuel ids 0 i rows totalDeleted = None.
Proof.
  induction fuel as [|fuel IH]; intros i rows totalDeleted Hlt; cbn [deleteLoop];
    destruct (Nat.ltb_spec i (length ids)); try lia; [reflexivity|].
  unfold deleteManyUnassigned. rewrite Nat.add_0_r. apply IH. exact Hlt.
Qed.

(** X14.  With chunk size 0 the loop of [deleteUnassignedTasks] never
    advances: for a non-empty id list no number of rounds brings it to its
    end, so the call never returns.  An empty list is refused before the
    loop, whatever the chunk size. *)
Theorem delete_with_zero_chunk_never_returns (ids : list string) (rows : list Task)
    (fuel : nat) :
  ids <> [] ->
  deleteUnassignedTasks fuel ids 0 rows = None
  /\ forall chunkSize,
       deleteUnassignedTasks fuel [] chunkSize rows
       = Some (Throw "IDs must be a non-empty array", rows).
Proof.
  intros Hids. split; [|reflexivity].
  unfold deleteUnassignedTasks. destruct ids as [|id ids]; [congruence|].
  cbn [length Nat.eqb]. rewrite deleteLoop_stuck by (cbn [length]; lia). reflexivity.
Qed.

Lemma delete_with_zero_chunk_never_returns_witness :
  deleteUnassignedTasks 1000 ["t1"] 0 staleRows = None.
Proof.
  apply (delete_with_zero_chunk_never_returns ["t1"] staleRows 1000). discriminate.
Defined.

End DeletionFacts.

(** ** Batch synchronisation *)

Module BatchSyncFacts.
Import Cache BatchSync.

(** With Redis down, [syncCacheWithVersion] reads the version as 0, sees no
    conflict, ignores the [false] of [updateCacheWithVersion], and answers
    [true]. *)
Lemma sync_unreachable key data version env w :
  (forall k, env_fails env k = true) ->
  syncCacheWithVersion key data version env w
  = (Ok true, mkWorld (w_db w) (w_redis w) (w_breaker w) (3 + w_tick w)).
Proof.
  intros Hdown.
  unfold syncCacheWithVersion, updateCacheWithVersion, getCacheVersion, setCacheVersion,
    redis_get, redis_setex, redisCmd, tryCatch, bind, ret, tick.
  cbn [w_tick w_db w_redis w_breaker]. rewrite !Hdown.
  cbn [versionConflict Z.eqb negb andb w_tick w_db w_redis w_breaker]. rewrite !Hdown.
  cbn [versionConflict Z.eqb negb andb w_tick w_db w_redis w_breaker]. rewrite ?Hdown.
  reflexivity.
Qed.

Lemma batchLoop_run updates :
  forall acc env w,
    exists r w',
      batchLoop updates acc env w = (Ok r, w')
      /\ br_failed r = br_failed acc
      /\ (br_successful r + br_conflicts r
          = br_successful acc + br_conflicts acc + length updates)%nat
      /\ w_db w' = w_db w
      /\ ((forall k, env_fails env k = true) ->
          br_conflicts r = br_conflicts acc /\ w_redis w' = w_redis w).
Proof.
  induction updates as [|u updates IH]; intros acc env w.
  - exists acc, w. cbn [batchLoop length]. unfold ret.
    repeat split; try reflexivity; lia.
  - cbn [batchLoop length]. unfold bind at 1. unfold batchStep, tryCatch, bind.
    destruct (CacheFacts.quiet_syncCacheWithVersion (up_key u) (up_data u) (up_version u)
                env w) as (b & w1 & E & Hdb).
    rewrite E.
    assert (Hdown1 : (forall k, env_fails env k = true) ->
                     b = true /\ w_redis w1 = w_redis w).
    { intros Hdown. rewrite sync_unreachable in E by exact Hdown.
      injection E as <- <-. split; reflexivity. }
    destruct b; unfold ret.
    + destruct (IH (mkBatch (S (br_successful acc)) (br_failed acc) (br_conflicts acc))
                  env w1) as (r & w' & E' & Hf & Hsum & Hdb' & Hdown').
      exists r, w'. cbn [br_failed br_successful br_conflicts] in *.
      split; [exact E'|]. split; [exact Hf|]. split; [lia|]. split; [congruence|].
      intros Hdown. destruct (Hdown' Hdown) as [Hc Hr].
      destruct (Hdown1 Hdown) as [_ Hr1]. split; [exact Hc | congruence].
    + destruct (IH (mkBatch (br_successful acc) (br_failed acc) (S (br_conflicts acc)))
                  env w1) as (r & w' & E' & Hf & Hsum & Hdb' & Hdown').
      exists r, w'. cbn [br_failed br_successful br_conflicts] in *.
      split; [exact E'|]. split; [exact Hf|]. split; [lia|]. split; [congruence|].
      intros Hdown. destruct (Hdown1 Hdown) as [Hb _]. discriminate.
Qed.

(** X15.  [batchSyncCache] never throws and never counts a failure: every
    update is counted as successful or as a conflict, because
    [syncCacheWithVersion] catches everything.  With Redis down all the way
    it reports every update successful and no conflict, although Redis is
    left exactly as it was. *)
Theorem batch_sync_never_counts_a_failure (updates : list SyncUpdate)
    (env : Env) (w : World) :
  exists r w',
    batchSyncCache updates env w = (Ok r, w')
    /\ br_failed r = 0%nat
    /\ (br_successful r + br_conflicts r = length updates)%nat
    /\ w_db w' = w_db w
    /\ ((forall k, env_fails env k = true) ->
        br_successful r = length updates /\ br_conflicts r = 0%nat
        /\ w_redis w' = w_redis w).
Proof.
  unfold batchSyncCache.
  destruct (batchLoop_run updates (mkBatch 0 0 0) env w)
    as (r & w' & E & Hf & Hsum & Hdb & Hdown).
  cbn [br_failed br_successful br_conflicts] in *.
  exists r, w'. split; [exact E|]. split; [exact Hf|]. split; [lia|]. split; [exact Hdb|].
  intros Hd. destruct (Hdown Hd) as [Hc Hr]. repeat split; [lia | exact Hc | exact Hr].
Qed.

Lemma batch_sync_never_counts_a_failure_witness :
  exists r w',
    batchSyncCache [mkUpdate "a" (VText "x") 1; mkUpdate "b" (VText "y") 2]
      ProbeFacts.downEnv (mkWorld (Store.mkDB [] []) ∅ initialBreaker 0) = (Ok r, w')
    /\ br_successful r = 2%nat /\ br_failed r = 0%nat /\ w_redis w' = ∅.
Proof.
  destruct (batch_sync_never_counts_a_failure
              [mkUpdate "a" (VText "x") 1; mkUpdate "b" (VText "y") 2]
              ProbeFacts.downEnv (mkWorld (Store.mkDB [] []) ∅ initialBreaker 0))
    as (r & w' & E & Hf & _ & _ & Hdown).
  destruct (Hdown (fun _ => eq_refl)) as (Hs & _ & Hr).
  exists r, w'. split; [exact E|]. split; [exact Hs|]. split; [exact Hf | exact Hr].
Defined.

End BatchSyncFacts.

(** ** The performance monitor *)

Module MonitorFacts.
Import Monitor.

Lemma length_lastN {A} (n : nat) (l : list A) :
  length (lastN n l) = Nat.min n (length l).
Proof. unfold lastN. rewrite length_drop. lia. Qed.

Lemma lastN_suffix {A} (n : nat) (l : list A) :
  take (length l - n) l ++ lastN n l = l.
Proof. unfold lastN. apply take_drop. Qed.

Lemma elem_of_lastN {A} (n : nat) (l : list A) x : x ∈ lastN n l -> x ∈ l.
Proof.
  intros H. rewrite <- (lastN_suffix n l). apply elem_of_app. right. exact H.
Qed.


Lemma length_updateFound operationId f metrics :
  length (updateFound operationId f metrics) = length metrics.
Proof.
  induction metrics as [|m metrics IH]; [reflexivity|].
  cbn [updateFound]. destruct (String.eqb _ _); cbn [length]; congruence.
Qed.

Lemma updateFound_unknown operationId f metrics :
  (forall m, m ∈ metrics -> pm_operation m <> operationId) ->
  updateFound operationId f metrics = metrics.
Proof.
  induction metrics as [|m metrics IH]; intros H; [reflexivity|].
  cbn [updateFound].
  destruct (String.eqb_spec (pm_operation m) operationId) as [E|_].
  - exfalso. exact (H m (list_elem_of_here _ _) E).
  - f_equal. apply IH. intros m' Hm'. apply H. right. exact Hm'.
Qed.

(** Only the first metric with the id is touched. *)
Lemma updateFound_first operationId f before m after :
  (forall m', m' ∈ before -> pm_operation m' <> operationId) ->
  pm_operation m = operationId ->
  updateFound operationId f (before ++ m :: after) = before ++ f m :: after.
Proof.
  intros Hbefore Hm. induction before as [|b before IH]; cbn [app updateFound].
  - rewrite Hm, String.eqb_refl. reflexivity.
  - destruct (String.eqb_spec (pm_operation b) operationId) as [E|_].
    + exfalso. exact (Hbefore b (list_elem_of_here _ _) E).
    + f_equal. apply IH. intros m' Hm'. apply Hbefore. right. exact Hm'.
Qed.

(** X16.  [endOperation] completes at most one record, the first one that
    carries the id, and none when the id is unknown; afterwards at most
    [MAX_METRICS] = 1000 records are kept, and what is dropped is the oldest
    part of the list. *)
Theorem end_operation_keeps_newest (operationId : string) (success : bool)
    (metadata : Metadata) (now : Z) (metrics : list PerformanceMetrics) :
  let updated := updateFound operationId (endMetric success metadata now) metrics in
  let kept := endOperation operationId success metadata now metrics in
  (length kept <= MAX_METRICS)%nat
  /\ (exists evicted,
        updated = evicted ++ kept
        /\ length evicted = (length metrics - MAX_METRICS)%nat)
  /\ ((forall m, m ∈ metrics -> pm_operation m <> operationId) -> updated = metrics)
  /\ (forall before m after,
        metrics = before ++ m :: after ->
        (forall m', m' ∈ before -> pm_operation m' <> operationId) ->
        pm_operation m = operationId ->
        updated = before ++ endMetric success metadata now m :: after).
Proof.
  cbv zeta. unfold endOperation.
  set (updated := updateFound operationId (endMetric success metadata now) metrics).
  assert (Hlen : length updated = length metrics) by apply length_updateFound.
  split; [|split; [|split]].
  - destruct (Nat.ltb_spec MAX_METRICS (length updated)).
    + rewrite length_lastN. lia.
    + lia.
  - destruct (Nat.ltb_spec MAX_METRICS (length updated)).
    + exists (take (length updated - MAX_METRICS) updated).
      split; [symmetry; apply lastN_suffix|].
      rewrite length_take. lia.
    + exists []. split; [reflexivity|]. cbn [length]. lia.
  - apply updateFound_unknown.
  - intros before m after -> Hbefore Hm. apply updateFound_first; assumption.
Qed.

(** *** Statistics *)

Lemma foldl_min_le (ds : list Z) :
  forall d, foldl Z.min d ds <= d /\ forall x, x ∈ ds -> foldl Z.min d ds <= x.
Proof.
  induction ds as [|y ds IH]; intros d; cbn [foldl].
  - split; [lia|]. intros x Hx. inversion Hx.
  - destruct (IH (Z.min d y)) as [H1 H2]. split; [lia|].
    intros x Hx. apply elem_of_cons in Hx as [->|Hx]; [lia | exact (H2 x Hx)].
Qed.

Lemma foldl_max_ge (ds : list Z) :
  forall d, d <= foldl Z.max d ds /\ forall x, x ∈ ds -> x <= foldl Z.max d ds.
Proof.
  induction ds as [|y ds IH]; intros d; cbn [foldl].
  - split; [lia|]. intros x Hx. inversion Hx.
  - destruct (IH (Z.max d y)) as [H1 H2]. split; [lia|].
    intros x Hx. apply elem_of_cons in Hx as [->|Hx]; [lia | exact (H2 x Hx)].
Qed.

Lemma minOf_maxOf l x : x ∈ l -> minOf l <= x <= maxOf l.
Proof.
  destruct l as [|d ds]; [inversion 1|]. cbn [minOf maxOf]. intros Hx.
  destruct (foldl_min_le ds d) as [H1 H2]. destruct (foldl_max_ge ds d) as [H3 H4].
  apply elem_of_cons in Hx as [->|Hx]; [lia|].
  specialize (H2 x Hx). specialize (H4 x Hx). lia.
Qed.

Lemma foldl_add_bounds (lo hi : Z) (l : list Z) :
  (forall x, x ∈ l -> lo <= x <= hi) ->
  forall acc,
    acc + Z.of_nat (length l) * lo <= foldl Z.add acc l
    <= acc + Z.of_nat (length l) * hi.
Proof.
  induction l as [|y l IH]; intros H acc; cbn [foldl length].
  - lia.
  - assert (Hy := H y (list_elem_of_here _ _)).
    assert (Hl := IH (fun x Hx => H x (list_elem_of_further _ _ _ Hx)) (acc + y)).
    lia.
Qed.

Lemma ratio_between (lo hi s : Z) (n : nat) :
  (0 < n)%nat -> Z.of_nat n * lo <= s <= Z.of_nat n * hi ->
  (IZR lo <= IZR s / INR n <= IZR hi)%R.
Proof.
  intros Hn [H1 H2].
  assert (Hpos : (0 < INR n)%R) by (apply lt_0_INR; exact Hn).
  apply IZR_le in H1. apply IZR_le in H2.
  rewrite mult_IZR, <- INR_IZR_INZ in H1, H2.
  split.
  - apply Rmult_le_reg_r with (INR n); [exact Hpos|].
    unfold Rdiv. rewrite Rmult_assoc, Rinv_l by lra. lra.
  - apply Rmult_le_reg_r with (INR n); [exact Hpos|].
    unfold Rdiv. rewrite Rmult_assoc, Rinv_l by lra. lra.
Qed.

Lemma filter_length_le {A} (p : A -> bool) (l : list A) :
  (length (List.filter p l) <= length l)%nat.
Proof.
  induction l as [|x l IH]; [reflexivity|].
  cbn [List.filter]. destruct (p x); cbn [length]; lia.
Qed.

(** X17.  [getPerformanceStats] counts only operations that were ended:
    [totalOperations] is at most the number of records, [successRate] lies
    between 0 and 100, at most 10 recent records are returned and each of
    them is an ended record of the list, and whenever an operation is
    counted the average duration lies between the minimum and the maximum. *)
Theorem performance_stats_bounds (operation : option string)
    (metrics : list PerformanceMetrics) :
  let stats := getPerformanceStats operation metrics in
  (ps_totalOperations stats <= length metrics)%nat
  /\ (0 <= ps_successRate stats <= 100)%R
  /\ (length (ps_recentMetrics stats) <= 10)%nat
  /\ (forall m, m ∈ ps_recentMetrics stats ->
        m ∈ metrics /\ exists d, pm_duration m = Some d)
  /\ ((0 < ps_totalOperations stats)%nat ->
        (IZR (ps_minDuration stats) <= ps_avgDuration stats
         <= IZR (ps_maxDuration stats))%R)
  /\ (ps_totalOperations stats = 0%nat ->
        ps_successRate stats = 0%R /\ ps_avgDuration stats = 0%R
        /\ ps_minDuration stats = 0 /\ ps_maxDuration stats = 0).
Proof.
  cbv zeta. unfold getPerformanceStats.
  set (relevant := match operation with
                   | Some op => if String.eqb op "" then metrics else List.filter _ metrics
                   | None => metrics
                   end).
  assert (Hrel : forall m, m ∈ relevant -> m ∈ metrics).
  { intros m. unfold relevant. destruct operation as [op|]; [|auto].
    destruct (String.eqb op ""); [auto|].
    rewrite !list_elem_of_In, filter_In. tauto. }
  assert (Hrlen : (length relevant <= length metrics)%nat).
  { unfold relevant. destruct operation as [op|]; [|lia].
    destruct (String.eqb op ""); [lia | apply filter_length_le]. }
  set (completed := List.filter isCompleted relevant).
  assert (Hclen : (length completed <= length relevant)%nat) by apply filter_length_le.
  cbn [ps_totalOperations ps_successRate ps_recentMetrics ps_avgDuration
       ps_minDuration ps_maxDuration].
  rewrite length_map.
  split; [lia|]. split.
  { change (0 <= Engine.successRateOf (length (List.filter pm_success completed))
                                      (length completed) <= 100)%R.
    apply RunFacts.successRate_bounds, filter_length_le. }
  split; [rewrite length_lastN; lia|]. split.
  { intros m Hm. apply elem_of_lastN in Hm.
    apply list_elem_of_In, filter_In in Hm as [Hm Hc].
    split; [apply Hrel, list_elem_of_In, Hm|].
    unfold isCompleted in Hc. destruct (pm_duration m) as [d|]; [eauto | discriminate]. }
  split.
  - intros Hpos. apply Nat.ltb_lt in Hpos as Hb. rewrite Hb.
    rewrite <- (length_map durationOf completed).
    apply ratio_between; [rewrite length_map; exact Hpos|].
    assert (Hin : forall x, x ∈ map durationOf completed ->
              minOf (map durationOf completed) <= x <= maxOf (map durationOf completed))
      by (intros x; apply minOf_maxOf).
    assert (H := foldl_add_bounds _ _ _ Hin 0). unfold sumZ. lia.
  - intros Hz. rewrite Hz. cbn [Nat.ltb Nat.leb]. auto.
Qed.

End MonitorFacts.

(** ** Trends of the allocation runs *)

Module TrendFacts.
Import Monitor.
Local Open Scope R_scope.







End TrendFacts.

(** ** What a run leaves in the monitor *)

Module MonitoredFacts.
Import Store Cache Engine Monitor MonitoredEngine.








End MonitoredFacts.

(** ** Recent allocation results *)

Module RecentFacts.
Import Allocation Cache Recent.

(** What [allocation:recent] holds, read as a list. *)
Definition storedRecent (r : gmap string RVal) : list (AllocationMetrics * Z) :=
  match r !! "allocation:recent" with
  | Some (VResults l) => l
  | _ => []
  end.

Lemma resultsKey_not_recent (suffix : string) :
  "allocation:results:" +:+ suffix <> "allocation:recent".
Proof. apply String.eqb_neq. reflexivity. Qed.

Lemma keepLast50_spec {A} (l : list A) (x : A) :
  (length (keepLast50 (l ++ [x])) <= 50)%nat
  /\ last (keepLast50 (l ++ [x])) = Some x
  /\ exists dropped, l ++ [x] = dropped ++ keepLast50 (l ++ [x]).
Proof.
  unfold keepLast50. rewrite length_app. cbn [length].
  destruct (Nat.ltb_spec 50 (length l + 1)) as [Hlt|Hge].
  - rewrite drop_app_le by lia. split; [|split].
    + rewrite length_app, length_drop. cbn [length]. lia.
    + apply last_snoc.
    + exists (take (length l + 1 - 50) l).
      rewrite app_assoc, take_drop. reflexivity.
  - split; [rewrite length_app; cbn [length]; lia|].
    split; [apply last_snoc|]. exists []. reflexivity.
Qed.

Lemma sliceFrom_last {A} (limit : Z) (l : list A) :
  0 < limit ->
  sliceFrom (- limit) l = drop (length l - Z.to_nat limit) l.
Proof.
  intros Hpos. unfold sliceFrom.
  destruct (Z.ltb_spec (- limit) 0); [|lia]. f_equal. lia.
Qed.

(** [cacheAllocationResults] over a reachable Redis whose recent list is
    absent or a list. *)
Lemma cacheAllocationResults_reachable clock concurrent results timestamp w :
  (w_redis w !! "allocation:recent" = None
   \/ exists l, w_redis w !! "allocation:recent" = Some (VResults l)) ->
  exists w',
    cacheAllocationResults results timestamp (VersionFacts.reachable clock concurrent) w
    = (Ok tt, w')
    /\ w_db w' = w_db w
    /\ w_redis w' !! "allocation:recent"
       = Some (VResults (keepLast50 (storedRecent (w_redis w) ++ [(results, timestamp)]))).
Proof.
  intros Hrecent.
  unfold cacheAllocationResults, set, get, redis_setex, redis_get, redisCmd,
    tryCatch, bind, dateNow, ret, tick.
  cbn [VersionFacts.reachable env_fails env_clock w_tick w_db w_redis w_breaker
       Z.ltb Z.compare].
  rewrite lookup_insert_ne by apply resultsKey_not_recent.
  unfold storedRecent.
  destruct Hrecent as [Hnone | [l Hl]].
  - rewrite Hnone. cbn [w_tick w_db w_redis w_breaker].
    eexists. split; [reflexivity|]. cbn [w_db w_redis]. split; [reflexivity|].
    apply lookup_insert_eq.
  - rewrite Hl. cbn [rvalTruthy parseResults w_tick w_db w_redis w_breaker].
    eexists. split; [reflexivity|]. cbn [w_db w_redis]. split; [reflexivity|].
    apply lookup_insert_eq.
Qed.

Lemma getRecent_reachable clock concurrent limit w l :
  w_redis w !! "allocation:recent" = Some (VResults l) ->
  fst (getRecentAllocationResults limit (VersionFacts.reachable clock concurrent) w)
  = Ok (sliceFrom (- limit) l).
Proof.
  intros Hl.
  unfold getRecentAllocationResults, get, redis_get, redisCmd, tryCatch, bind, ret.
  cbn [VersionFacts.reachable env_fails]. rewrite Hl. reflexivity.
Qed.

(** X20.  Over a reachable Redis, [cacheAllocationResults] appends the
    result to the list under [allocation:recent] and keeps its last 50
    entries, so the list never grows past 50 and ends with the new result;
    [getRecentAllocationResults(limit)] then returns the last [limit]
    entries of that list for a positive [limit], the new result last, and
    the whole list for [limit] 0, since [slice(-0)] is [slice(0)]. *)
Theorem recent_results_round_trip (clock : nat -> Z) (concurrent : list Task -> list Task)
    (results : AllocationMetrics) (timestamp : Z) (w : World) :
  (w_redis w !! "allocation:recent" = None
   \/ exists l, w_redis w !! "allocation:recent" = Some (VResults l)) ->
  exists w' stored,
    cacheAllocationResults results timestamp (VersionFacts.reachable clock concurrent) w
    = (Ok tt, w')
    /\ w_redis w' !! "allocation:recent" = Some (VResults stored)
    /\ (length stored <= 50)%nat
    /\ last stored = Some (results, timestamp)
    /\ (exists dropped,
          storedRecent (w_redis w) ++ [(results, timestamp)] = dropped ++ stored)
    /\ (forall limit, 0 < limit ->
          exists recent,
            fst (getRecentAllocationResults limit
                   (VersionFacts.reachable clock concurrent) w') = Ok recent
            /\ recent = drop (length stored - Z.to_nat limit) stored
            /\ last recent = Some (results, timestamp)
            /\ (length recent <= Z.to_nat limit)%nat)
    /\ fst (getRecentAllocationResults 0 (VersionFacts.reachable clock concurrent) w')
       = Ok stored.
Proof.
  intros Hrecent.
  destruct (cacheAllocationResults_reachable clock concurrent results timestamp w Hrecent)
    as (w' & E & _ & Hstored).
  destruct (keepLast50_spec (storedRecent (w_redis w)) (results, timestamp))
    as (Hlen & Hlast & Hdropped).
  set (stored := keepLast50 (storedRecent (w_redis w) ++ [(results, timestamp)])) in *.
  exists w', stored. split; [exact E|]. split; [exact Hstored|].
  split; [exact Hlen|]. split; [exact Hlast|]. split; [exact Hdropped|]. split.
  - intros limit Hpos. exists (drop (length stored - Z.to_nat limit) stored).
    rewrite (getRecent_reachable clock concurrent limit w' stored Hstored).
    rewrite sliceFrom_last by exact Hpos.
    split; [reflexivity|]. split; [reflexivity|]. split.
    + assert (Hne : stored <> []) by (intros Hnil; rewrite Hnil in Hlast; discriminate).
      destruct (exists_last Hne) as (front & x & Hfx).
      rewrite Hfx in Hlast |- *. rewrite last_snoc in Hlast. injection Hlast as ->.
      rewrite length_app. cbn [length].
      rewrite drop_app_le by lia. apply last_snoc.
    + rewrite length_drop. lia.
  - rewrite (getRecent_reachable clock concurrent 0 w' stored Hstored). reflexivity.
Qed.

Lemma recent_results_round_trip_witness :
  exists w' stored,
    cacheAllocationResults (mkMetrics 2 2 0 1 100 (Js.Fin 0) 0) 7
      (VersionFacts.reachable (fun _ => 0) (fun rows => rows))
      (mkWorld (Store.mkDB [] []) ∅ initialBreaker 0) = (Ok tt, w')
    /\ w_redis w' !! "allocation:recent" = Some (VResults stored)
    /\ last stored = Some (mkMetrics 2 2 0 1 100 (Js.Fin 0) 0, 7).
Proof.
  destruct (recent_results_round_trip (fun _ => 0) (fun rows => rows)
              (mkMetrics 2 2 0 1 100 (Js.Fin 0) 0) 7
              (mkWorld (Store.mkDB [] []) ∅ initialBreaker 0)
              (or_introl (lookup_empty "allocation:recent")))
    as (w' & stored & E & Hs & _ & Hl & _).
  exists w', stored. split; [exact E|]. split; [exact Hs | exact Hl].
Defined.

End RecentFacts.

(** ** The worker snapshot under [workers:spatial_index] *)

Module SnapshotFacts.
Import Store Cache.
Import VersionFacts.

Lemma set_reachable clock concurrent key value ttl w :
  set key value ttl (reachable clock concurrent) w
  = (Ok tt, withRedis w (<[key := value]> (w_redis w)) 1).
Proof.
  unfold set, tryCatch, redis_setex, redis_set, redisCmd, withRedis, tick.
  destruct (0 <? ttl); reflexivity.
Qed.

(** One [set] per worker, as [Promise.all(workers.map(...))] issues them. *)
Lemma sets_reachable clock concurrent (key : User -> string) (value : User -> RVal) ttl
    (workers : list User) :
  forall w,
    forEachM workers (fun worker => set (key worker) (value worker) ttl)
      (reachable clock concurrent) w
    = (Ok tt,
       withRedis w (foldl (fun r worker => <[key worker := value worker]> r)
                          (w_redis w) workers)
                 (length workers)).
Proof.
  induction workers as [|u workers IH]; intros w.
  - destruct w. reflexivity.
  - cbn [forEachM foldl length]. unfold bind. rewrite set_reachable, IH.
    unfold withRedis. cbn [w_db w_redis w_breaker w_tick].
    replace (length workers + (1 + w_tick w))%nat with (S (length workers) + w_tick w)%nat
      by lia.
    reflexivity.
Qed.

(** A key after the per-worker writes: untouched, or written for a worker. *)
Lemma sets_lookup (key : User -> string) (value : User -> RVal) (workers : list User)
    (k : string) :
  forall r : gmap string RVal,
    foldl (fun r worker => <[key worker := value worker]> r) r workers !! k = r !! k
    \/ exists u, u ∈ workers
         /\ foldl (fun r worker => <[key worker := value worker]> r) r workers !! k
            = Some (value u).
Proof.
  induction workers as [|u workers IH]; intros r; cbn [foldl]; [left; reflexivity|].
  destruct (IH (<[key u := value u]> r)) as [H|(u' & Hu' & H)].
  - rewrite H. destruct (decide (key u = k)) as [<-|Hne].
    + right. exists u. split; [left|]. apply lookup_insert_eq.
    + left. apply lookup_insert_ne. exact Hne.
  - right. exists u'. split; [right; exact Hu' | exact H].
Qed.

(** X21.  The two writes a run makes under [workers:spatial_index], over a
    reachable Redis and with no newer version stored.
    [cacheWorkersWithSpatialIndex] stores its list of cached workers there;
    [syncCacheWithVersion], called next with the worker rows, is accepted and
    stores the rows under the same key.  What the key holds after a run is
    the rows, not the cached-worker list, and the version is the run's. *)
Theorem sync_replaces_cached_workers (clock : nat -> Z) (concurrent : list Task -> list Task)
    (workers : list User) (version : Z) (w : World) :
  (storedVersion (w_redis w) "workers:spatial_index" = 0
   \/ storedVersion (w_redis w) "workers:spatial_index" < version) ->
  exists w1 w2 first,
    cacheWorkersWithSpatialIndex workers (reachable clock concurrent) w = (Ok tt, w1)
    /\ w_redis w1 !! "workers:spatial_index" = Some first
    /\ ((exists cachedWorkers, first = VCachedWorkers cachedWorkers
                               /\ map cw_id cachedWorkers = map user_id workers)
        \/ exists cachedWorker, first = VCachedWorker cachedWorker)
    /\ syncCacheWithVersion "workers:spatial_index" (VUsers workers) version
         (reachable clock concurrent) w1 = (Ok true, w2)
    /\ w_redis w2 !! "workers:spatial_index" = Some (VUsers workers)
    /\ storedVersion (w_redis w2) "workers:spatial_index" = version
    /\ w_db w2 = w_db w.
Proof.
  intros Hversion.
  unfold cacheWorkersWithSpatialIndex, tryCatch, dateNow.
  unfold bind at 1. cbv beta iota. unfold bind at 1.
  rewrite set_reachable. rewrite sets_reachable.
  unfold withRedis. cbn [w_redis w_db w_breaker w_tick].
  set (cached := map _ workers).
  set (r1 := foldl _ _ workers).
  assert (Hkey : exists first,
            r1 !! "workers:spatial_index" = Some first
            /\ ((exists cachedWorkers, first = VCachedWorkers cachedWorkers
                                       /\ map cw_id cachedWorkers = map user_id workers)
                \/ exists cachedWorker, first = VCachedWorker cachedWorker)).
  { unfold r1.
    destruct (sets_lookup (fun worker => "worker:" +:+ user_id worker)
                (fun worker => VCachedWorker
                   (List.find (fun c => String.eqb (cw_id c) (user_id worker)) cached))
                workers "workers:spatial_index"
                (<["workers:spatial_index" := VCachedWorkers cached]> (w_redis (tick w))))
      as [H|(u & _ & H)].
    - eexists. split; [rewrite H; apply lookup_insert_eq|]. left.
      exists cached. split; [reflexivity|]. unfold cached. rewrite map_map.
      apply map_ext. reflexivity.
    - eexists. split; [exact H|]. right. eexists. reflexivity. }
  destruct Hkey as (first & Hfirst & Hshape).
  assert (Hver : storedVersion r1 "workers:spatial_index" = 0
                 \/ storedVersion r1 "workers:spatial_index"
                    = storedVersion (w_redis w) "workers:spatial_index").
  { unfold r1, storedVersion.
    destruct (sets_lookup (fun worker => "worker:" +:+ user_id worker)
                (fun worker => VCachedWorker
                   (List.find (fun c => String.eqb (cw_id c) (user_id worker)) cached))
                workers (versionKey "workers:spatial_index")
                (<["workers:spatial_index" := VCachedWorkers cached]> (w_redis (tick w))))
      as [H|(u & _ & H)].
    - right. rewrite H. rewrite lookup_insert_ne by (apply String.eqb_neq; reflexivity).
      reflexivity.
    - left. rewrite H. reflexivity. }
  assert (Hok : versionConflict (storedVersion r1 "workers:spatial_index") version = false).
  { apply versionConflict_false. destruct Hver as [->| ->]; [left; reflexivity|].
    exact Hversion. }
  eexists _, _, first. split; [reflexivity|]. cbn [w_redis].
  split; [exact Hfirst|]. split; [exact Hshape|].
  rewrite sync_reachable. cbn [w_redis]. rewrite Hok.
  split; [reflexivity|]. unfold withRedis. cbn [w_redis w_db tick].
  split; [|split; [apply storedVersion_after_write | reflexivity]].
  rewrite lookup_insert_ne by (apply String.eqb_neq; reflexivity).
  apply lookup_insert_eq.
Qed.

Lemma sync_replaces_cached_workers_witness :
  exists w1 w2,
    cacheWorkersWithSpatialIndex [EngineFacts.dhakaWorker]
      (reachable (fun n => Z.of_nat n) (fun rows => rows))
      (mkWorld (mkDB [] []) ∅ initialBreaker 0) = (Ok tt, w1)
    /\ syncCacheWithVersion "workers:spatial_index" (VUsers [EngineFacts.dhakaWorker]) 1
         (reachable (fun n => Z.of_nat n) (fun rows => rows)) w1 = (Ok true, w2)
    /\ w_redis w2 !! "workers:spatial_index" = Some (VUsers [EngineFacts.dhakaWorker]).
Proof.
  destruct (sync_replaces_cached_workers (fun n => Z.of_nat n) (fun rows => rows)
              [EngineFacts.dhakaWorker] 1
              (mkWorld (mkDB [] []) ∅ initialBreaker 0))
    as (w1 & w2 & first & E1 & _ & _ & E2 & Hk & _); [left; reflexivity|].
  exists w1, w2. split; [exact E1|]. split; [exact E2 | exact Hk].
Defined.

End SnapshotFacts.

(** ** The summaries a run leaves in the cache *)

Module RefreshFacts.
Import Store Cache Engine.
Import VersionFacts SummaryFacts.

(** *** Keys and patterns *)

Lemma append_cons (c : ascii) (s t : string) : String c s +:+ t = String c (s +:+ t).
Proof. reflexivity. Qed.

Lemma append_empty (t : string) : "" +:+ t = t.
Proof. reflexivity. Qed.

Ltac spell := rewrite ?append_cons, ?append_empty.

Lemma append_inj (prefix a b : string) : prefix +:+ a = prefix +:+ b -> a = b.
Proof.
  induction prefix as [|c prefix IH]; spell; [auto|].
  intros H. injection H as H. exact (IH H).
Qed.

Lemma summaryKey_inj a b : summaryKey a = summaryKey b -> a = b.
Proof. apply append_inj. Qed.

(** The two task-list patterns of a worker match no summary key. *)
Lemma tasks_pattern_misses (rest workerId : string) :
  matchesPattern ("worker:tasks:" +:+ rest) (summaryKey workerId) = false.
Proof.
  unfold matchesPattern, summaryKey. spell. cbn.
  destruct (String.eqb _ "*"); reflexivity.
Qed.

(** A pattern matches itself, be it a glob or not. *)
Lemma prefix_refl (s t : string) : String.prefix s (s +:+ t) = true.
Proof.
  induction s as [|c s IH]; spell; cbn; [destruct t; reflexivity|].
  destruct (ascii_dec c c); [exact IH | congruence].
Qed.

Lemma prefix_substring (p : string) : forall n, String.prefix (String.substring 0 n p) p = true.
Proof.
  induction p as [|c p IH]; intros n.
  - destruct n; reflexivity.
  - destruct n as [|n]; [reflexivity|]. cbn.
    destruct (ascii_dec c c); [apply IH | congruence].
Qed.

Lemma matchesPattern_self (p : string) : matchesPattern p p = true.
Proof.
  unfold matchesPattern. destruct p as [|c p]; [reflexivity|].
  cbn [String.length].
  destruct (String.eqb _ "*"); [apply prefix_substring | apply String.eqb_refl].
Qed.

(** A key that does not end in the wildcard, used as a pattern, matches
    itself only. *)
Definition plainKey (key : string) : Prop :=
  String.eqb (String.substring (String.length key - 1) 1 key) "*" = false.

Lemma matchesPattern_plain (p key : string) :
  plainKey p -> matchesPattern p key = String.eqb p key.
Proof.
  unfold plainKey, matchesPattern. intros Hplain.
  destruct p as [|c p]; [cbn; apply String.eqb_sym|].
  cbn [String.length] in *. rewrite Nat.sub_1_r in Hplain. cbn [Nat.pred] in Hplain.
  rewrite Hplain. reflexivity.
Qed.

(** *** Deleting by pattern *)

(** What [getKeysByPattern] followed by [del] leaves. *)
Definition withoutPattern (pattern : string) (r : gmap string RVal) : gmap string RVal :=
  foldr delete r (List.filter (matchesPattern pattern) (map fst (map_to_list r))).

Lemma lookup_foldr_delete (keys : list string) (r : gmap string RVal) (k : string) :
  foldr delete r keys !! k = if bool_decide (k ∈ keys) then None else r !! k.
Proof.
  induction keys as [|k' keys IH]; cbn [foldr].
  - rewrite bool_decide_eq_false_2 by apply not_elem_of_nil. reflexivity.
  - destruct (decide (k' = k)) as [->|Hne].
    + rewrite lookup_delete_eq, bool_decide_eq_true_2 by left. reflexivity.
    + rewrite lookup_delete_ne by exact Hne. rewrite IH.
      destruct (decide (k ∈ keys)) as [Hin|Hnin].
      * rewrite !bool_decide_eq_true_2; [reflexivity | right; exact Hin | exact Hin].
      * rewrite !bool_decide_eq_false_2; [reflexivity| |exact Hnin].
        intros Hin. apply elem_of_cons in Hin as [->|Hin]; [congruence | exact (Hnin Hin)].
Qed.

Lemma lookup_withoutPattern pattern r k :
  withoutPattern pattern r !! k = if matchesPattern pattern k then None else r !! k.
Proof.
  unfold withoutPattern. rewrite lookup_foldr_delete.
  destruct (matchesPattern pattern k) eqn:Em.
  - destruct (r !! k) as [v|] eqn:Ek.
    + rewrite bool_decide_eq_true_2; [reflexivity|].
      apply list_elem_of_In, filter_In. split; [|exact Em].
      apply in_map_iff. exists (k, v). split; [reflexivity|].
      apply list_elem_of_In, elem_of_map_to_list. exact Ek.
    + destruct (bool_decide _); reflexivity.
  - rewrite bool_decide_eq_false_2; [reflexivity|].
    intros Hin. apply list_elem_of_In, filter_In in Hin as [_ Hm]. congruence.
Qed.

(** One round of the loop of [invalidateWorkerTaskCache], Redis reachable. *)
Lemma invalidate_round clock concurrent (totalKeysDeleted : nat) pattern w :
  exists n w',
    (let* keys := getKeysByPattern pattern in
     if (0 <? length keys)%nat
     then redis_del keys ;; ret (totalKeysDeleted + length keys)%nat
     else ret totalKeysDeleted) (reachable clock concurrent) w = (Ok n, w')
    /\ w_db w' = w_db w /\ w_breaker w' = w_breaker w
    /\ w_redis w' = withoutPattern pattern (w_redis w).
Proof.
  unfold bind, getKeysByPattern, redis_del, redisCmd, ret, withoutPattern.
  cbn [reachable env_fails].
  set (keys := List.filter (matchesPattern pattern) (map fst (map_to_list (w_redis w)))).
  cbn [w_redis w_db w_breaker w_tick tick].
  destruct (0 <? length keys)%nat eqn:E.
  - eexists _, _. split; [reflexivity|]. cbn. auto.
  - eexists _, _. split; [reflexivity|]. cbn. repeat split; try reflexivity.
    apply Nat.ltb_ge in E. destruct keys; [reflexivity | cbn in E; lia].
Qed.

Lemma invalidate_reachable clock concurrent workerId w :
  exists n w',
    invalidateWorkerTaskCache workerId (reachable clock concurrent) w = (Ok n, w')
    /\ w_db w' = w_db w /\ w_breaker w' = w_breaker w
    /\ w_redis w'
       = withoutPattern ("worker:tasks:all:" +:+ workerId)
           (withoutPattern ("worker:summary:" +:+ workerId)
              (withoutPattern ("worker:tasks:" +:+ workerId +:+ ":*") (w_redis w))).
Proof.
  unfold invalidateWorkerTaskCache. cbn [foldl].
  unfold bind at 1. unfold bind at 1. unfold bind at 1. unfold ret at 1.
  destruct (invalidate_round clock concurrent 0
              ("worker:tasks:" +:+ workerId +:+ ":*") w)
    as (n1 & w1 & E1 & Hd1 & Hb1 & Hr1).
  rewrite E1.
  destruct (invalidate_round clock concurrent n1 ("worker:summary:" +:+ workerId) w1)
    as (n2 & w2 & E2 & Hd2 & Hb2 & Hr2).
  rewrite E2.
  destruct (invalidate_round clock concurrent n2 ("worker:tasks:all:" +:+ workerId) w2)
    as (n3 & w3 & E3 & Hd3 & Hb3 & Hr3).
  exists n3, w3. split; [exact E3|].
  split; [congruence|]. split; [congruence|]. rewrite Hr3, Hr2, Hr1. reflexivity.
Qed.

Lemma tasks_all_pattern_misses (workerId other : string) :
  matchesPattern ("worker:tasks:all:" +:+ workerId) (summaryKey other) = false.
Proof. exact (tasks_pattern_misses ("all:" +:+ workerId) other). Qed.

(** After the invalidation the worker's summary is gone and the summaries
    of the other workers are where they were. *)
Lemma invalidated_summaries r workerId :
  plainKey (summaryKey workerId) ->
  let r' := withoutPattern ("worker:tasks:all:" +:+ workerId)
              (withoutPattern ("worker:summary:" +:+ workerId)
                 (withoutPattern ("worker:tasks:" +:+ workerId +:+ ":*") r)) in
  r' !! summaryKey workerId = None
  /\ forall other, other <> workerId -> r' !! summaryKey other = r !! summaryKey other.
Proof.
  intros Hplain. cbv zeta. split.
  - rewrite !lookup_withoutPattern.
    rewrite tasks_all_pattern_misses.
    fold (summaryKey workerId). rewrite matchesPattern_self. reflexivity.
  - intros other Hne. rewrite !lookup_withoutPattern.
    rewrite tasks_all_pattern_misses, tasks_pattern_misses.
    fold (summaryKey workerId). rewrite (matchesPattern_plain _ _ Hplain).
    destruct (String.eqb_spec (summaryKey workerId) (summaryKey other)) as [E|_];
      [|reflexivity].
    apply summaryKey_inj in E. congruence.
Qed.

(** *** Refreshing a summary that is not cached *)

Definition settled (w : World) : Prop :=
  cb_state (w_breaker w) = CLOSED /\ (cb_failures (w_breaker w) < failureThreshold)%nat.

Lemma cached_on_miss clock concurrent workerId w :
  settled w -> w_redis w !! summaryKey workerId = None ->
  exists w',
    getWorkerTaskSummaryCached workerId (reachable clock concurrent) w
    = (Ok (summaryFromStore (w_db w) workerId), w')
    /\ w_db w' = w_db w /\ settled w'
    /\ w_redis w'
       = <[summaryKey workerId := VSummary (summaryFromStore (w_db w) workerId)]> (w_redis w).
Proof.
  intros [Hst Hlt] Hmiss.
  rewrite getWorkerTaskSummaryCached_eq.
  unfold bind at 1. unfold readSummary, tryCatch, redis_get. unfold bind at 1.
  rewrite execute_healthy by (first [reflexivity | assumption]).
  cbn [fst snd]. rewrite Hmiss. unfold ret at 1.
  unfold fromStore, getDB, tryCatch, redis_setex. unfold bind at 1. cbv zeta.
  unfold bind at 1.
  rewrite execute_healthy;
    [|reflexivity | reflexivity | cbn; unfold failureThreshold; lia].
  cbn [fst snd w_db w_redis w_breaker w_tick]. unfold ret.
  eexists. split; [reflexivity|]. cbn [w_db w_redis w_breaker].
  split; [reflexivity|]. split; [|reflexivity].
  split; [reflexivity|]. cbn. unfold failureThreshold. lia.
Qed.

Lemma bulk_on_miss clock concurrent workerId assignedCount w :
  settled w -> w_redis w !! summaryKey workerId = None ->
  exists w',
    updateWorkerTaskSummaryCacheBulk workerId assignedCount (reachable clock concurrent) w
    = (Ok true, w')
    /\ w_db w' = w_db w /\ settled w'
    /\ w_redis w'
       = <[summaryKey workerId := VSummary (summaryFromStore (w_db w) workerId)]> (w_redis w).
Proof.
  intros [Hst Hlt] Hmiss.
  unfold updateWorkerTaskSummaryCacheBulk, redis_get. fold (summaryKey workerId).
  unfold bind at 1. unfold tryCatch at 1. unfold bind at 1.
  rewrite execute_healthy by (first [reflexivity | assumption]).
  cbn [fst snd]. rewrite Hmiss.
  unfold tryCatch at 1. unfold bind at 1.
  destruct (cached_on_miss clock concurrent workerId
              (mkWorld (w_db w) (w_redis w)
                 (mkBreaker 0 (cb_lastFailure (w_breaker w)) CLOSED) (S (S (w_tick w)))))
    as (w' & E & Hdb & Hset & Hr).
  { split; [reflexivity|]. cbn. unfold failureThreshold. lia. }
  { exact Hmiss. }
  rewrite E. unfold ret. eexists. split; [reflexivity|]. auto.
Qed.

Lemma update_on_miss clock concurrent workerId oldStatus newStatus w :
  settled w -> w_redis w !! summaryKey workerId = None ->
  exists w',
    updateWorkerTaskSummaryCache workerId oldStatus newStatus (reachable clock concurrent) w
    = (Ok true, w')
    /\ w_db w' = w_db w /\ settled w'
    /\ w_redis w'
       = <[summaryKey workerId := VSummary (summaryFromStore (w_db w) workerId)]> (w_redis w).
Proof.
  intros [Hst Hlt] Hmiss.
  unfold updateWorkerTaskSummaryCache, redis_get. fold (summaryKey workerId).
  unfold bind at 1. unfold tryCatch at 1. unfold bind at 1.
  rewrite execute_healthy by (first [reflexivity | assumption]).
  cbn [fst snd]. rewrite Hmiss.
  unfold tryCatch at 1. unfold bind at 1.
  destruct (cached_on_miss clock concurrent workerId
              (mkWorld (w_db w) (w_redis w)
                 (mkBreaker 0 (cb_lastFailure (w_breaker w)) CLOSED) (S (S (w_tick w)))))
    as (w' & E & Hdb & Hset & Hr).
  { split; [reflexivity|]. cbn. unfold failureThreshold. lia. }
  { exact Hmiss. }
  rewrite E. unfold ret. eexists. split; [reflexivity|]. auto.
Qed.

(** *** The loop of [invalidateWorkerCaches] *)

(** The body of the loop, for one affected worker. *)
Definition refreshWorker (workerTaskCounts : gmap string nat) (workerId : string) : M unit :=
  invalidateWorkerTaskCache workerId ;;
  if (0 <? default 0%nat (workerTaskCounts !! workerId))%nat then
    updateWorkerTaskSummaryCacheBulk workerId
      (default 0%nat (workerTaskCounts !! workerId)) ;;
    ret tt
  else
    updateWorkerTaskSummaryCache workerId (Some unassigned) assigned ;;
    ret tt.

Lemma invalidateWorkerCaches_eq workerIds workerTaskCounts :
  invalidateWorkerCaches workerIds workerTaskCounts
  = tryCatch (forEachM workerIds (refreshWorker workerTaskCounts)) (fun _ => ret tt).
Proof. reflexivity. Qed.

Lemma refresh_one clock concurrent counts workerId w :
  settled w -> plainKey (summaryKey workerId) ->
  exists w',
    refreshWorker counts workerId (reachable clock concurrent) w = (Ok tt, w')
    /\ w_db w' = w_db w /\ settled w'
    /\ w_redis w' !! summaryKey workerId
       = Some (VSummary (summaryFromStore (w_db w) workerId))
    /\ (forall other, other <> workerId ->
          w_redis w' !! summaryKey other = w_redis w !! summaryKey other).
Proof.
  intros Hset Hplain. unfold refreshWorker. unfold bind at 1.
  destruct (invalidate_reachable clock concurrent workerId w)
    as (n & w1 & E1 & Hdb1 & Hb1 & Hr1).
  rewrite E1.
  destruct (invalidated_summaries (w_redis w) workerId Hplain) as [Hgone Hkept].
  rewrite <- Hr1 in Hgone, Hkept.
  assert (Hset1 : settled w1) by (unfold settled; rewrite Hb1; exact Hset).
  assert (Hdone : forall w', w_db w' = w_db w1 ->
            w_redis w'
            = <[summaryKey workerId := VSummary (summaryFromStore (w_db w1) workerId)]>
                (w_redis w1) ->
            w_redis w' !! summaryKey workerId
            = Some (VSummary (summaryFromStore (w_db w) workerId))
            /\ (forall other, other <> workerId ->
                  w_redis w' !! summaryKey other = w_redis w !! summaryKey other)).
  { intros w' Hdb Hr. rewrite Hr, Hdb1. split; [apply lookup_insert_eq|].
    intros other Hne. rewrite lookup_insert_ne.
    - apply Hkept. exact Hne.
    - intros E. apply summaryKey_inj in E. congruence. }
  destruct (0 <? default 0%nat (counts !! workerId))%nat.
  - destruct (bulk_on_miss clock concurrent workerId (default 0%nat (counts !! workerId))
                w1 Hset1 Hgone) as (w' & E & Hdb & Hset' & Hr).
    unfold bind. rewrite E. unfold ret. exists w'. split; [reflexivity|].
    split; [congruence|]. split; [exact Hset'|]. apply Hdone; assumption.
  - destruct (update_on_miss clock concurrent workerId (Some unassigned) assigned
                w1 Hset1 Hgone) as (w' & E & Hdb & Hset' & Hr).
    unfold bind. rewrite E. unfold ret. exists w'. split; [reflexivity|].
    split; [congruence|]. split; [exact Hset'|]. apply Hdone; assumption.
Qed.

Lemma refresh_all clock concurrent counts (workerIds : list string) :
  (forall id, id ∈ workerIds -> plainKey (summaryKey id)) ->
  forall w, settled w ->
    exists w',
      forEachM workerIds (refreshWorker counts) (reachable clock concurrent) w = (Ok tt, w')
      /\ w_db w' = w_db w /\ settled w'
      /\ (forall id, id ∈ workerIds ->
            w_redis w' !! summaryKey id
            = Some (VSummary (summaryFromStore (w_db w) id)))
      /\ (forall other, other ∉ workerIds ->
            w_redis w' !! summaryKey other = w_redis w !! summaryKey other).
Proof.
  induction workerIds as [|id ids IH]; intros Hplain w Hset.
  - exists w. cbn [forEachM]. unfold ret. split; [reflexivity|].
    split; [reflexivity|]. split; [exact Hset|]. split; [|reflexivity].
    intros id Hin. inversion Hin.
  - destruct (refresh_one clock concurrent counts id w Hset (Hplain id (list_elem_of_here _ _)))
      as (w1 & E1 & Hdb1 & Hset1 & Hown & Hothers).
    destruct (IH (fun id' Hin => Hplain id' (list_elem_of_further _ _ _ Hin)) w1 Hset1)
      as (w' & E' & Hdb' & Hset' & Hall & Hframe).
    exists w'. cbn [forEachM]. unfold bind at 1. rewrite E1.
    split; [exact E'|]. split; [congruence|]. split; [exact Hset'|]. split.
    + intros id' Hin. destruct (decide (id' ∈ ids)) as [Hrest|Hnot].
      * rewrite (Hall id' Hrest), Hdb1. reflexivity.
      * apply elem_of_cons in Hin as [->|Hin]; [|contradiction].
        rewrite (Hframe id Hnot). exact Hown.
    + intros other Hnot. apply not_elem_of_cons in Hnot as [Hne Hnot].
      rewrite (Hframe other Hnot). apply Hothers. exact Hne.
Qed.

(** X22.  Over a reachable Redis and a closed breaker,
    [invalidateWorkerCaches] leaves under the summary key of every worker it
    is given the summary counted from the store as it is then, whatever was
    cached before: the invalidation removes the old summary first, so the
    update that follows never adds to a stale one.  The summaries of other
    workers are not touched, and the store is not written. *)
Theorem healthy_invalidation_refreshes_summaries (clock : nat -> Z)
    (concurrent : list Task -> list Task) (workerIds : list string)
    (workerTaskCounts : gmap string nat) (w : World) :
  cb_state (w_breaker w) = CLOSED ->
  (cb_failures (w_breaker w) < failureThreshold)%nat ->
  (forall id, id ∈ workerIds -> plainKey (summaryKey id)) ->
  exists w',
    invalidateWorkerCaches workerIds workerTaskCounts (reachable clock concurrent) w
    = (Ok tt, w')
    /\ w_db w' = w_db w
    /\ (forall id, id ∈ workerIds ->
          w_redis w' !! summaryKey id = Some (VSummary (summaryFromStore (w_db w) id)))
    /\ (forall other, other ∉ workerIds ->
          w_redis w' !! summaryKey other = w_redis w !! summaryKey other).
Proof.
  intros Hst Hlt Hplain.
  destruct (refresh_all clock concurrent workerTaskCounts workerIds Hplain w (conj Hst Hlt))
    as (w' & E & Hdb & _ & Hall & Hframe).
  exists w'. rewrite invalidateWorkerCaches_eq. unfold tryCatch. rewrite E.
  split; [reflexivity|]. split; [exact Hdb|]. split; [exact Hall | exact Hframe].
Qed.

(** A stale summary for worker [w1] in the cache, one assigned task in the
    store. *)
Definition staleWorld : World :=
  mkWorld (mkDB [mkTask "t1" None None assigned false (Some "w1") (Some 0)] [])
          (<[summaryKey "w1" := VSummary (mkSummary 0 7 0 0 0 7)]> ∅)
          initialBreaker 0.

Lemma healthy_invalidation_refreshes_summaries_witness :
  exists w',
    invalidateWorkerCaches ["w1"] (<["w1" := 1%nat]> ∅)
      (reachable (fun n => Z.of_nat n) (fun rows => rows)) staleWorld = (Ok tt, w')
    /\ w_redis w' !! summaryKey "w1" = Some (VSummary (mkSummary 0 1 0 0 0 1)).
Proof.
  destruct (healthy_invalidation_refreshes_summaries (fun n => Z.of_nat n)
              (fun rows => rows) ["w1"] (<["w1" := 1%nat]> ∅) staleWorld)
    as (w' & E & _ & Hall & _).
  - reflexivity.
  - cbn. unfold failureThreshold. lia.
  - intros id Hin. apply list_elem_of_singleton in Hin as ->. reflexivity.
  - exists w'. split; [exact E|]. rewrite (Hall "w1" (list_elem_of_here _ _)). reflexivity.
Defined.

End RefreshFacts.

(** ** What a run does to the store *)

Module StoreFacts.
Import SpatialIndex Store Allocation Cache Engine.

(** The table a run commits into: the one it read, or, when it has
    something to commit, the one other writers left in the meantime. *)
Definition tableAtCommit (env : Env) (batchSize : nat) (db : DB) : list Task :=
  let workers := getWorkers db in
  let proposed :=
    proposeAll (buildSpatialIndex workers)
               (getWorkerTaskCountsBatch db (map user_id workers))
               (findPendingGeocoded db batchSize) in
  if (length (findPendingGeocoded db batchSize) =? 0)%nat || (length workers =? 0)%nat
  then db_tasks db
  else if (0 <? length (fst proposed))%nat then env_concurrent env (db_tasks db)
  else db_tasks db.

(** X23.  A run of [allocateTasksOptimized] never changes the user table,
    never adds or removes a task row, and changes a task row in one way
    only: a row that is unassigned when the run commits, and whose id is the
    id of a task of the batch, becomes [assigned] to a worker of the worker
    list, with its id, coordinates and geocoding flag kept.  Rows in any
    other status are left exactly as they are. *)
Theorem run_only_assigns_unassigned_rows (batchSize : nat) (env : Env) (w : World) :
  exists r w',
    allocateTasksOptimized batchSize env w = (Ok r, w')
    /\ db_users (w_db w') = db_users (w_db w)
    /\ length (db_tasks (w_db w')) = length (tableAtCommit env batchSize (w_db w))
    /\ forall i t,
         tableAtCommit env batchSize (w_db w) !! i = Some t ->
         exists t',
           db_tasks (w_db w') !! i = Some t'
           /\ (task_status t <> unassigned -> t' = t)
           /\ (t' = t
               \/ (task_status t = unassigned /\ task_status t' = assigned
                   /\ task_id t' = task_id t
                   /\ task_lat t' = task_lat t /\ task_lon t' = task_lon t
                   /\ task_geocodePending t' = task_geocodePending t
                   /\ (exists task, task ∈ findPendingGeocoded (w_db w) batchSize
                                    /\ task_id task = task_id t)
                   /\ exists u, u ∈ getWorkers (w_db w)
                                /\ task_assignedUserId t' = Some (user_id u))).
Proof.
  destruct (EngineFacts.allocate_outcome batchSize env w) as (now & w' & E & Htasks & Husers).
  exists (fst (EngineFacts.runOutcome (env_concurrent env) now batchSize (w_db w))), w'.
  split; [exact E|]. split; [exact Husers|]. rewrite Htasks.
  unfold EngineFacts.runOutcome, tableAtCommit. cbv zeta.
  set (db := w_db w).
  set (workers := getWorkers db).
  set (tasks := findPendingGeocoded db batchSize).
  set (counts := getWorkerTaskCountsBatch db (map user_id workers)).
  set (proposed := proposeAll (buildSpatialIndex workers) counts tasks).
  assert (Hsame : forall rows : list Task,
            length rows = length rows
            /\ forall i t, rows !! i = Some t ->
                 exists t', rows !! i = Some t'
                   /\ (task_status t <> unassigned -> t' = t)
                   /\ (t' = t
                       \/ (task_status t = unassigned /\ task_status t' = assigned
                           /\ task_id t' = task_id t
                           /\ task_lat t' = task_lat t /\ task_lon t' = task_lon t
                           /\ task_geocodePending t' = task_geocodePending t
                           /\ (exists task, task ∈ tasks /\ task_id task = task_id t)
                           /\ exists u, u ∈ workers
                                        /\ task_assignedUserId t' = Some (user_id u)))).
  { intros rows. split; [reflexivity|]. intros i t Hi. exists t. auto. }
  destruct (_ || _); cbn [snd]; [apply Hsame|].
  destruct (0 <? length (fst proposed))%nat; [|apply Hsame].
  rewrite CommitFacts.bulkUpdate_fold, RaceFacts.commit_fold_rows.
  split; [apply length_map|].
  intros i t Hi. exists (CommitFacts.committedRow now (fst proposed) t).
  rewrite CommitFacts.lookup_map_row, Hi. split; [reflexivity|].
  unfold CommitFacts.committedRow.
  destruct (List.find _ (fst proposed)) as [a|] eqn:Hfind; [|auto].
  destruct (decide (task_status t = unassigned)) as [Hs|Hs].
  2:{ rewrite bool_decide_eq_false_2 by exact Hs. auto. }
  rewrite bool_decide_eq_true_2 by exact Hs. split; [congruence|]. right.
  apply find_some in Hfind as [Ha Hid]. apply String.eqb_eq in Hid.
  apply list_elem_of_In, EngineFacts.proposeAll_elem in Ha as (task & Htask & Hprop).
  apply EngineFacts.proposal_worker in Hprop as (Htid & u & Hu & Hw & _).
  unfold assignRow. cbn [task_status task_id task_lat task_lon task_geocodePending
                         task_assignedUserId].
  repeat (split; [reflexivity|]). split; [exact Hs|].
  repeat (split; [reflexivity|]). split.
  - exists task. split; [exact Htask | congruence].
  - exists u. split; [exact Hu | congruence].
Qed.

End StoreFacts.

(** ** The cells a query visits *)

Module WindowFacts.
Import SpatialIndex Allocation.



End WindowFacts.

(** ** Retries *)

Module RetryFacts.
Import Cache Retry.
Import BreakerFacts.

(** A wrapped command on a Redis that is down, behind a closed breaker. *)
Lemma execute_down {A} (f : gmap string RVal -> A * gmap string RVal) env w :
  env_fails env (S (w_tick w)) = true ->
  cb_state (w_breaker w) = CLOSED ->
  (cb_failures (w_breaker w) < failureThreshold)%nat ->
  executeWithCircuitBreaker (redisCmd f) env w
  = (Throw "Redis connection error",
     mkWorld (w_db w) (w_redis w)
       (mkBreaker (S (cb_failures (w_breaker w))) (env_clock env (S (S (w_tick w)))) CLOSED)
       (S (S (S (w_tick w))))).
Proof.
  intros Hdown Hst Hlt. breaker_cases w. subst s.
  destruct (Nat.leb_spec failureThreshold n); [lia|].
  cbn [cb_state stateEqb]. rewrite Hdown. reflexivity.
Qed.

Lemma retryFrom_down {A} (f : gmap string RVal -> A * gmap string RVal) env
    maxRetries baseDelay :
  (forall k, env_fails env k = true) ->
  forall remaining i w,
    (i + remaining = maxRetries)%nat -> (0 < remaining)%nat ->
    cb_state (w_breaker w) = CLOSED ->
    (cb_failures (w_breaker w) + remaining <= failureThreshold)%nat ->
    exists w',
      retryFrom (redisCmd f) maxRetries baseDelay remaining i env w
      = (Throw "Redis connection error", w')
      /\ cb_state (w_breaker w') = CLOSED
      /\ cb_failures (w_breaker w') = (cb_failures (w_breaker w) + remaining)%nat
      /\ w_redis w' = w_redis w /\ w_db w' = w_db w.
Proof.
  intros Hdown. induction remaining as [|remaining IH]; intros i w Hsum Hpos Hst Hle; [lia|].
  cbn [retryFrom]. unfold tryCatch.
  rewrite execute_down by (first [apply Hdown | exact Hst | lia]).
  destruct (Nat.eqb_spec i (maxRetries - 1)) as [Hlast|Hmore].
  - assert (remaining = 0%nat) as -> by lia.
    eexists. split; [reflexivity|]. cbn. repeat split; lia.
  - unfold bind, sleep.
    edestruct (IH (S i)) as (w' & E & Hst' & Hf' & Hr' & Hd');
      [| | |
       | rewrite E; exists w'; split; [reflexivity|];
         cbn in Hf', Hr', Hd'; repeat split; [exact Hst' | lia | exact Hr' | exact Hd'] ].
    + lia.
    + lia.
    + reflexivity.
    + cbn. lia.
Qed.

(** X25.  [retryOperation] makes no attempt when [maxRetries] is 0 and
    throws its own error.  On a healthy Redis behind a closed breaker the
    first attempt is the only one.  With Redis down, it makes exactly
    [maxRetries] attempts as long as the breaker stays closed, each of
    which the breaker counts as a failure, and throws the error of the last
    one. *)
Theorem retry_counts_every_attempt {A} (f : gmap string RVal -> A * gmap string RVal)
    (env : Env) (maxRetries : nat) (baseDelay : Z) (w : World) :
  retryOperation (redisCmd f) 0 baseDelay env w = (Throw "Retry operation failed", w)
  /\ ((0 < maxRetries)%nat ->
      cb_state (w_breaker w) = CLOSED ->
      (cb_failures (w_breaker w) < failureThreshold)%nat ->
      env_fails env (S (w_tick w)) = false ->
      retryOperation (redisCmd f) maxRetries baseDelay env w
      = executeWithCircuitBreaker (redisCmd f) env w
      /\ exists w', executeWithCircuitBreaker (redisCmd f) env w
                    = (Ok (fst (f (w_redis w))), w'))
  /\ ((0 < maxRetries)%nat ->
      cb_state (w_breaker w) = CLOSED ->
      (cb_failures (w_breaker w) + maxRetries <= failureThreshold)%nat ->
      (forall k, env_fails env k = true) ->
      exists w',
        retryOperation (redisCmd f) maxRetries baseDelay env w
        = (Throw "Redis connection error", w')
        /\ cb_state (w_breaker w') = CLOSED
        /\ cb_failures (w_breaker w') = (cb_failures (w_breaker w) + maxRetries)%nat
        /\ w_redis w' = w_redis w /\ w_db w' = w_db w).
Proof.
  split; [reflexivity|]. split.
  - intros Hpos Hst Hlt Hup. unfold retryOperation.
    destruct maxRetries as [|n]; [lia|]. cbn [retryFrom]. unfold tryCatch.
    rewrite (SummaryFacts.execute_healthy f env w Hup Hst Hlt).
    split; [reflexivity|]. eexists. reflexivity.
  - intros Hpos Hst Hle Hdown. unfold retryOperation.
    apply retryFrom_down; [exact Hdown | lia | exact Hpos | exact Hst | exact Hle].
Qed.

Lemma retry_counts_every_attempt_witness :
  exists w',
    retryOperation (redisCmd (fun r => (r !! "k", r))) 3 100 ProbeFacts.downEnv
      (mkWorld (Store.mkDB [] []) ∅ initialBreaker 0)
    = (Throw "Redis connection error", w')
    /\ cb_failures (w_breaker w') = 3%nat.
Proof.
  destruct (proj2 (proj2 (retry_counts_every_attempt (fun r => (r !! "k", r))
                            ProbeFacts.downEnv 3 100
                            (mkWorld (Store.mkDB [] []) ∅ initialBreaker 0))))
    as (w' & E & _ & Hf & _).
  - lia.
  - reflexivity.
  - cbn. unfold failureThreshold. lia.
  - reflexivity.
  - exists w'. split; [exact E | exact Hf].
Defined.

End RetryFacts.

(** ** How far a run can overfill a worker *)

Module CapFacts.
Import SpatialIndex Store Allocation Cache Engine.
Import CommitFacts.



















End CapFacts.

(** ** The distance formula *)

Module DistanceFacts.
Import SpatialIndex.
Local Open Scope R_scope.



End DistanceFacts.

(** ** The lock *)

Module LockFacts.
Import Cache Lock.
Import VersionFacts.

(** X28.  [withLock] over a reachable Redis.  While the lock key is set the
    call throws the acquisition error without running the operation and
    without touching Redis.  When the key is free the operation runs with the
    lock set to the time of the call, and if it leaves the lock as it is the
    lock is deleted afterwards whether the operation returned or threw, and
    the outcome of the operation is the outcome of the call. *)
Theorem lock_excludes_and_releases {A} (key : string) (operation : M A)
    (clock : nat -> Z) (concurrent : list Task -> list Task) (w : World) :
  let env := reachable clock concurrent in
  let lockKey := "lock:" +:+ key in
  let lockValue := VText (pretty (clock (w_tick w))) in
  (forall v, w_redis w !! lockKey = Some v ->
     exists w',
       withLock key operation env w
       = (Throw ("Lock acquisition failed for key: " +:+ key), w')
       /\ w_redis w' = w_redis w /\ w_db w' = w_db w)
  /\ (w_redis w !! lockKey = None ->
      forall outcome w2,
        operation env (mkWorld (w_db w) (<[lockKey := lockValue]> (w_redis w))
                               (w_breaker w) (S (S (w_tick w))))
        = (outcome, w2) ->
        w_redis w2 !! lockKey = Some lockValue ->
        exists w3,
          withLock key operation env w = (outcome, w3)
          /\ w_redis w3 = delete lockKey (w_redis w2)
          /\ w_redis w3 !! lockKey = None
          /\ w_db w3 = w_db w2).
Proof.
  cbv zeta. split.
  - intros v Hheld.
    unfold withLock, bind, dateNow, redis_set_nx, redisCmd, throw, tick.
    cbn [reachable env_fails env_clock w_tick w_db w_redis w_breaker].
    rewrite Hheld. cbn [negb]. eexists. split; [reflexivity|]. split; reflexivity.
  - intros Hfree outcome w2 Hop Hkept.
    unfold withLock, bind, dateNow, redis_set_nx, redisCmd, tick.
    cbn [reachable env_fails env_clock w_tick w_db w_redis w_breaker].
    rewrite Hfree. cbn [negb w_tick w_db w_redis w_breaker].
    unfold tryFinally. rewrite Hop.
    unfold bind, redis_get, redis_del, redisCmd, ret, tick.
    cbn [reachable env_fails w_tick w_db w_redis w_breaker].
    rewrite Hkept. cbn [isText]. rewrite String.eqb_refl.
    cbn [w_tick w_db w_redis w_breaker foldr].
    eexists. split; [reflexivity|]. cbn [w_redis w_db].
    split; [reflexivity|]. split; [apply lookup_delete_eq | reflexivity].
Qed.

Lemma lock_excludes_and_releases_witness :
  exists w',
    withLock "k" (redis_get "a")
      (reachable (fun n => Z.of_nat n) (fun rows => rows))
      (mkWorld (Store.mkDB [] []) (<["lock:k" := VText "5"]> ∅) initialBreaker 0)
    = (Throw "Lock acquisition failed for key: k", w')
    /\ w_redis w' = <["lock:k" := VText "5"]> ∅.
Proof.
  destruct (proj1 (lock_excludes_and_releases "k" (redis_get "a")
                     (fun n => Z.of_nat n) (fun rows => rows)
                     (mkWorld (Store.mkDB [] []) (<["lock:k" := VText "5"]> ∅)
                              initialBreaker 0))
              (VText "5") (lookup_insert_eq _ _ _))
    as (w' & E & Hr & _).
  exists w'. split; [exact E | exact Hr].
Defined.

End LockFacts.
